(** * Sort_Photo_Video: the media sorting pipeline of [main.py]

    A shallow embedding of [main.py] and the properties its specification
    states about it.  The program walks a source tree, classifies every file
    by the end of its name, resolves a year, and moves the file into a
    year folder, sending content duplicates to a separate tree.

    Layout of the development:
    - strings and POSIX path functions ([os.path]);
    - the file system as a finite map from path strings to nodes;
    - a monad of state, exceptions and divergence in which the functions of
      [main.py] are written line by line;
    - the theorems.

    Assumptions of the model are stated where they are made.  The two that
    matter everywhere: a file is identified by its path string (paths are
    taken as written, without [.], [..] or doubled separators), and names
    are strings over the code points below 256. *)

From Stdlib Require Import ZArith Ascii String DecimalString DecimalNat DecimalZ Lia.
From stdpp Require Import gmap strings list fin_maps.

Local Open Scope Z_scope.
Local Open Scope nat_scope.

(** ** Strings *)

(** Paths are strings. *)
Abbreviation path := string (only parsing).

(** [str.lower()] on code points below 256: the ASCII capitals and the
    Latin-1 capitals (all of U+00C0..U+00DE but the multiplication sign)
    move up by 32, every other character is unchanged. *)
Definition lower_char (c : ascii) : ascii :=
  let n := nat_of_ascii c in
  if ((65 <=? n) && (n <=? 90)) || ((192 <=? n) && (n <=? 222) && negb (n =? 215))
  then ascii_of_nat (n + 32)
  else c.

Fixpoint lower (s : string) : string :=
  match s with
  | EmptyString => EmptyString
  | String c r => String (lower_char c) (lower r)
  end.

(** [s.endswith(suffix)] for one suffix, and for a tuple of suffixes. *)
Fixpoint endswith (s suffix : string) : bool :=
  if String.eqb s suffix then true
  else match s with
       | EmptyString => false
       | String _ r => endswith r suffix
       end.

Definition endswith_any (s : string) (suffixes : list string) : bool :=
  existsb (endswith s) suffixes.

(** [s.startswith(pre)] *)
Fixpoint startswith (s pre : string) {struct pre} : bool :=
  match pre, s with
  | EmptyString, _ => true
  | String a pre', String b s' => Ascii.eqb a b && startswith s' pre'
  | String _ _, EmptyString => false
  end.

Fixpoint contains (c : ascii) (s : string) : bool :=
  match s with
  | EmptyString => false
  | String x r => if Ascii.eqb x c then true else contains c r
  end.

(** [all_char c s]: every character of [s] is [c] (true of the empty string). *)
Fixpoint all_char (c : ascii) (s : string) : bool :=
  match s with
  | EmptyString => true
  | String x r => Ascii.eqb x c && all_char c r
  end.

(** Split at the last occurrence of [c]: [rsplit c s = Some (a, b)] when
    [s = a ++ c :: b] and [c] does not occur in [b]; [None] when [c] does
    not occur in [s].  This is [s.rfind(c)] followed by the two slices. *)
Fixpoint rsplit (c : ascii) (s : string) : option (string * string) :=
  match s with
  | EmptyString => None
  | String x r =>
      match rsplit c r with
      | Some (a, b) => Some (String x a, b)
      | None => if Ascii.eqb x c then Some (EmptyString, r) else None
      end
  end.

(** [s.rstrip(c)] *)
Fixpoint rstrip (c : ascii) (s : string) : string :=
  match s with
  | EmptyString => EmptyString
  | String x r =>
      match rstrip c r with
      | EmptyString => if Ascii.eqb x c then EmptyString else String x EmptyString
      | r' => String x r'
      end
  end.

(** [str(n)] for a natural number and for an integer. *)
Definition str (n : nat) : string := NilZero.string_of_uint (Nat.to_uint n).
Definition str_Z (z : Z) : string := NilZero.string_of_int (Z.to_int z).

(** Decimal digits, for the facts about [str]. *)
Definition is_digit (c : ascii) : bool :=
  let n := nat_of_ascii c in (48 <=? n) && (n <=? 57).

Fixpoint all_digits (s : string) : bool :=
  match s with
  | EmptyString => true
  | String c r => is_digit c && all_digits r
  end.

(** ** [os.path] (posixpath) *)

Definition sep : ascii := "/"%char.
Definition extsep : ascii := "."%char.

(** [os.path.basename(p)]: [p[p.rfind('/')+1:]]. *)
Definition basename (p : path) : string :=
  match rsplit sep p with
  | Some (_, b) => b
  | None => p
  end.

(** [os.path.dirname(p)]: the head up to and including the last separator,
    with trailing separators stripped unless the head is all separators. *)
Definition dirname (p : path) : string :=
  match rsplit sep p with
  | Some (a, _) =>
      let head := (a +:+ String sep EmptyString) in
      if all_char sep head then head else rstrip sep head
  | None => EmptyString
  end.

(** [os.path.join(a, b)] *)
Definition join (a b : path) : path :=
  if startswith b (String sep EmptyString) then b
  else if String.eqb a EmptyString || endswith a (String sep EmptyString) then a +:+ b
  else a +:+ String sep (b).

Definition join3 (a b c : path) : path := join (join a b) c.

(** [os.path.splitext(p)] ([genericpath._splitext]): the extension starts at
    the last dot, provided that dot comes after the last separator and is
    preceded, within the file name, by a character that is not a dot. *)
Definition splitext (p : path) : string * string :=
  match rsplit extsep p with
  | None => (p, EmptyString)
  | Some (a, e) =>
      if contains sep e then (p, EmptyString)
      else if all_char extsep (basename a) then (p, EmptyString)
      else (a, String extsep e)
  end.

(** A directory name as [dirname] returns it: empty, the root, or without
    a trailing separator. *)
Definition dir_normal (d : string) : Prop :=
  d = EmptyString \/ all_char sep d = true \/ endswith d (String sep EmptyString) = false.

(** ** Classification by the end of the file name *)

Definition IMAGE_EXTENSIONS : list string :=
  [".jpg"; ".jpeg"; ".png"; ".gif"; ".bmp"; ".tiff"; ".heic"]%string.
Definition VIDEO_EXTENSIONS : list string :=
  [".mp4"; ".mov"; ".avi"; ".mkv"; ".wmv"; ".flv"; ".3gp"; "mts"]%string.

Inductive kind := Photo | Video | Ignored.

(** The test at the head of the loop body of [copy_media_sorted_by_year]. *)
Definition classify (file : string) : kind :=
  let file_lower := lower file in
  if endswith_any file_lower IMAGE_EXTENSIONS then Photo
  else if endswith_any file_lower VIDEO_EXTENSIONS then Video
  else Ignored.

(** ** The file system

    What the metadata libraries find in a file is recorded with the file:
    [Image.open(p)._getexif()] either raises or returns the EXIF dictionary
    (or [None]); [createParser(p)], once it has opened the file, returns a
    parser or nothing, and [extractMetadata] on that parser raises, returns
    nothing, or returns metadata with or without a creation date. *)

Inductive exif_probe :=
| ImageOpenRaises
| ExifData (d : option (list (nat * string))).

Inductive extract_result :=
| ExtractRaises
| MetadataNone
| NoCreationDate
| CreationDate (year : Z).

Inductive video_probe :=
| ParserNone
| ParserOpened (r : extract_result).

Record file := {
  f_data : string;          (* the bytes of the file *)
  f_mtime : Z;              (* st_mtime in microseconds since the epoch, rounded
                               to the microsecond as [datetime.fromtimestamp]
                               rounds the float it is given *)
  f_readable : bool;        (* whether opening and reading the file succeeds *)
  f_exif : exif_probe;
  f_video : video_probe
}.

(** A [BrokenLink] is a symbolic link whose target is missing: a directory
    listing shows it as a non-directory, but [stat] and [open] fail on it. *)
Inductive node :=
| File (f : file)
| Dir
| BrokenLink.

Inductive exn :=
| FileNotFoundError (p : path)
| FileExistsError (p : path)
| NotADirectoryError (p : path)
| IsADirectoryError (p : path)
| PermissionError (p : path)
| OSError (p : path)
| ShutilError (p : path)
| InputStreamError (p : path)
| NullStreamError (p : path)
| ValueError
| RecursionError.

Inductive result (A : Type) :=
| Ok (a : A)
| Err (e : exn).
Arguments Ok {A} a.
Arguments Err {A} e.

(** The node a path names.  The empty path names nothing and the root
    directory always exists. *)
Definition fs_lookup (m : gmap string node) (p : path) : option node :=
  if String.eqb p EmptyString then None
  else if all_char sep p then Some Dir
  else m !! p.

(** [os.path.exists], [os.path.isdir]: whether [os.stat] succeeds. *)
Definition exists_ (m : gmap string node) (p : path) : bool :=
  match fs_lookup m p with
  | Some (File _) | Some Dir => true
  | _ => false
  end.

Definition isdir (m : gmap string node) (p : path) : bool :=
  match fs_lookup m p with
  | Some Dir => true
  | _ => false
  end.

(** [os.path.getsize], [os.path.getmtime]; the time is in microseconds (see
    [f_mtime]).  Sizes and times of directories are not tracked; they read
    as 0. *)
Definition getsize (m : gmap string node) (p : path) : result nat :=
  match fs_lookup m p with
  | Some (File f) => Ok (String.length (f_data f))
  | Some Dir => Ok 0
  | _ => Err (FileNotFoundError p)
  end.

Definition getmtime (m : gmap string node) (p : path) : result Z :=
  match fs_lookup m p with
  | Some (File f) => Ok (f_mtime f)
  | Some Dir => Ok 0%Z
  | _ => Err (FileNotFoundError p)
  end.

(** [open(p, 'rb')] followed by the reads: the whole content, or the error. *)
Definition open_read (m : gmap string node) (p : path) : result string :=
  match fs_lookup m p with
  | Some (File f) => if f_readable f then Ok (f_data f) else Err (PermissionError p)
  | Some Dir => Err (IsADirectoryError p)
  | _ => Err (FileNotFoundError p)
  end.

(** The entries directly inside [top]: the keys that [os.path.join] builds
    from [top] and a non-empty name. *)
Definition child_of (top k : path) : bool :=
  negb (String.eqb (basename k) EmptyString) && String.eqb (join top (basename k)) k.

Definition is_dir_node (n : node) : bool :=
  match n with Dir => true | _ => false end.

(** [os.scandir(top)]: names with their [is_dir()], in the order of the map. *)
Definition scandir (m : gmap string node) (top : path) : result (list (string * bool)) :=
  if isdir m top then
    Ok (omap (fun kn : string * node =>
                if child_of top kn.1 then Some (basename kn.1, is_dir_node kn.2) else None)
             (map_to_list m))
  else Err (NotADirectoryError top).

(** The parent directory of [p] exists (a relative name lives in the
    current directory, which does). *)
Definition parent_ok (m : gmap string node) (p : path) : bool :=
  String.eqb (dirname p) EmptyString || isdir m (dirname p).

(** [os.mkdir(p)] *)
Definition mkdir (m : gmap string node) (p : path) : result (gmap string node) :=
  match fs_lookup m p with
  | Some _ => Err (FileExistsError p)
  | None =>
      if String.eqb p EmptyString then Err (FileNotFoundError p)
      else if parent_ok m p then Ok (<[p := Dir]> m)
      else if exists_ m (dirname p) then Err (NotADirectoryError p)
      else Err (FileNotFoundError p)
  end.

(** The last step of [os.makedirs(name, exist_ok=True)]: [mkdir], forgiving
    a directory that is already there. *)
Definition finish_makedirs (m1 : gmap string node) (name : path)
  : option (result (gmap string node)) :=
  match mkdir m1 name with
  | Ok m2 => Some (Ok m2)
  | Err e => if isdir m1 name then Some (Ok m1) else Some (Err e)
  end.

(** [os.makedirs(name, exist_ok=True)], with its recursion on the head of
    the path bounded by [fuel]; [None] when the bound is reached. *)
Fixpoint makedirs_aux (fuel : nat) (m : gmap string node) (name : path)
  : option (result (gmap string node)) :=
  match fuel with
  | O => None
  | S fuel' =>
      let head0 := dirname name in
      let tail0 := basename name in
      let '(head, tail) :=
        if String.eqb tail0 EmptyString then (dirname head0, basename head0)
        else (head0, tail0) in
      if negb (String.eqb head EmptyString) && negb (String.eqb tail EmptyString)
         && negb (exists_ m head)
      then
        match makedirs_aux fuel' m head with
        | None => None
        | Some (Ok m1) =>
            if String.eqb tail (String extsep EmptyString) then Some (Ok m1)
            else finish_makedirs m1 name
        | Some (Err (FileExistsError _)) =>
            if String.eqb tail (String extsep EmptyString) then Some (Ok m)
            else finish_makedirs m name
        | Some (Err e) => Some (Err e)
        end
      else finish_makedirs m name
  end.

(** The bound [S (length name)] is never reached ([makedirs_aux_fuel]). *)
Definition makedirs (m : gmap string node) (name : path) : result (gmap string node) :=
  match makedirs_aux (S (String.length name)) m name with
  | Some r => r
  | None => Err RecursionError
  end.

(** Moving a whole directory: every key at or below [src] is re-rooted at [dst]. *)
Definition rekey (src dst k : path) : path :=
  if String.eqb k src then dst
  else if startswith k (src +:+ String sep EmptyString)
       then dst +:+ String.substring (String.length src) (String.length k - String.length src) k
       else k.

Definition move_tree (m : gmap string node) (src dst : path) : gmap string node :=
  list_to_map (map (fun kn : string * node => (rekey src dst kn.1, kn.2)) (map_to_list m)).

Definition has_children (m : gmap string node) (p : path) : bool :=
  existsb (fun kn : string * node => child_of p kn.1) (map_to_list m).

(** [os.rename(src, dst)] on one POSIX file system.  A non-directory
    replaces whatever non-directory is at [dst]; nothing changes when the
    call fails. *)
Definition rename (m : gmap string node) (src dst : path) : result (gmap string node) :=
  match m !! src with
  | None => Err (FileNotFoundError src)
  | Some n =>
      if String.eqb (basename dst) EmptyString then Err (FileNotFoundError dst)
      else if negb (parent_ok m dst) then Err (FileNotFoundError dst)
      else if String.eqb src dst then Ok m
      else match n, m !! dst with
           | Dir, None =>
               if startswith dst (src +:+ String sep EmptyString) then Err (OSError dst)
               else Ok (move_tree m src dst)
           | Dir, Some Dir =>
               if has_children m dst then Err (OSError dst) else Ok (move_tree m src dst)
           | Dir, Some _ => Err (NotADirectoryError dst)
           | _, Some Dir => Err (IsADirectoryError dst)
           | _, _ => Ok (<[dst := n]> (delete src m))
           end
  end.

(** [shutil.move(src, dst)].  When [os.rename] fails, [shutil] falls back
    to copy and delete, which on a single file system fails for the same
    reason; the model reports the failure of the rename. *)
Definition shutil_move (m : gmap string node) (src dst : path) : result (gmap string node) :=
  if isdir m dst then
    if String.eqb src dst then rename m src dst
    else
      let real_dst := join dst (basename src) in
      if exists_ m real_dst then Err (ShutilError real_dst)
      else rename m src real_dst
  else rename m src dst.

(** [m1] is [m] with directories added and nothing else changed. *)
Definition dirs_added (m m1 : gmap string node) : Prop :=
  forall k, m1 !! k = m !! k \/ (m !! k = None /\ m1 !! k = Some Dir).

(** The length of the longest path in the map; it bounds the depth of a walk. *)
Definition max_key_len (m : gmap string node) : nat :=
  foldr (fun kn acc => Nat.max (String.length kn.1) acc) 0 (map_to_list m).

(** ** Calendar

    The year of the day that lies [days] days after 1970-01-01 in the
    proleptic Gregorian calendar, which is the calendar of [datetime]. *)
Definition civil_year (days : Z) : Z :=
  let z := (days + 719468)%Z in
  let era := (z / 146097)%Z in
  let doe := (z - era * 146097)%Z in
  let yoe := ((doe - doe / 1460 + doe / 36524 - doe / 146096) / 365)%Z in
  let y := (yoe + era * 400)%Z in
  let doy := (doe - (365 * yoe + yoe / 4 - yoe / 100))%Z in
  let mp := ((5 * doy + 2) / 153)%Z in
  if (mp <? 10)%Z then y else (y + 1)%Z.

(** ** Console output and the trace of effects *)

Inductive message :=
| MsgHashError (filepath : path) (e : exn)
| MsgDuplicateError (file1 file2 : path) (e : exn)
| MsgFullDuplicate (src dst : path)
| MsgNameConflict (src dst : path)
| MsgMoved (count : nat) (src dst : path)
| MsgMoveError (src : path) (e : exn)
| MsgInitialCounts (source photo video duplicate : nat)
| MsgSourceMissing (source_folder : path)
| MsgPostCounts (moved sorted_before sorted_post duplicates check : Z).

Inductive event :=
| Opened (p : path)              (* [open(p, 'rb')] was called *)
| ParserClosed (p : path)        (* [parser.close()] was called *)
| MadeDirs (p : path)            (* [os.makedirs(p, exist_ok=True)] was called *)
| MoveTried (src dst : path)     (* [shutil.move(src, dst)] was called *)
| Printed (m : message).         (* [print] *)

(** The state of a run: the file system and the events so far, the most
    recent first. *)
Record world := { fs : gmap string node; out : list event }.

(** ** The monad: state, exceptions, and divergence of the model's loops *)

Inductive outcome (A : Type) :=
| Return (a : A)
| Raise (e : exn)
| Diverge.
Arguments Return {A} a.
Arguments Raise {A} e.
Arguments Diverge {A}.

Definition M (A : Type) : Type := world -> outcome A * world.

Definition ret {A} (a : A) : M A := fun w => (Return a, w).

Definition bind {A B} (m : M A) (k : A -> M B) : M B :=
  fun w =>
    match m w with
    | (Return a, w1) => k a w1
    | (Raise e, w1) => (Raise e, w1)
    | (Diverge, w1) => (Diverge, w1)
    end.

#[global] Instance M_ret : MRet M := @ret.
#[global] Instance M_bind : MBind M := fun A B k m => bind m k.

Definition raise {A} (e : exn) : M A := fun w => (Raise e, w).
Definition diverge {A} : M A := fun w => (Diverge, w).

(** [try: m  except Exception as e: handler e] *)
Definition try_except {A} (m : M A) (handler : exn -> M A) : M A :=
  fun w =>
    match m w with
    | (Raise e, w1) => handler e w1
    | r => r
    end.

(** [try: m  finally: cleanup] *)
Definition try_finally {A} (m : M A) (cleanup : M unit) : M A :=
  fun w =>
    match m w with
    | (Diverge, w1) => (Diverge, w1)
    | (r, w1) =>
        match cleanup w1 with
        | (Return _, w2) => (r, w2)
        | (Raise e, w2) => (Raise e, w2)
        | (Diverge, w2) => (Diverge, w2)
        end
    end.

Definition log (e : event) : M unit :=
  fun w => (Return tt, {| fs := fs w; out := e :: out w |}).

Definition print (m : message) : M unit := log (Printed m).

(** Reading the file system, and running an operation that changes it. *)
Definition read_fs {A} (f : gmap string node -> A) : M A :=
  fun w => (Return (f (fs w)), w).

Definition of_result {A} (r : result A) : M A :=
  match r with
  | Ok a => ret a
  | Err e => raise e
  end.

Definition stat_fs {A} (f : gmap string node -> result A) : M A :=
  fun w => of_result (f (fs w)) w.

Definition update_fs (f : gmap string node -> result (gmap string node)) : M unit :=
  fun w =>
    match f (fs w) with
    | Ok m => (Return tt, {| fs := m; out := out w |})
    | Err e => (Raise e, w)
    end.

Definition of_fuel {A} (o : option A) : M A :=
  match o with
  | Some a => ret a
  | None => diverge
  end.

(** [for x in l: acc = body x acc] *)
Fixpoint for_each {A B} (l : list A) (body : A -> B -> M B) (acc : B) : M B :=
  match l with
  | [] => ret acc
  | x :: l' => acc' ← body x acc; for_each l' body acc'
  end.

(** ** [main.py] *)

Section Main.

(** The libraries the program calls and the model leaves open:
    [hashlib.sha256(data).hexdigest()], the offset of local time from UTC
    (in seconds) at an instant, as [datetime.fromtimestamp] uses it, and the
    year that [datetime.strptime(value, '%Y:%m:%d %H:%M:%S')] parses, if it
    parses. *)
Variable sha256_hex : string -> string.
Variable utcoffset : Z -> Z.
Variable strptime_year : string -> option Z.

(** The year of the local date at the instant [t], in seconds. *)
Definition local_year (t : Z) : Z := civil_year ((t + utcoffset t) / 86400).

(** The years a [datetime] can hold: [MINYEAR] to [MAXYEAR]. *)
Definition year_ok (y : Z) : bool := ((1 <=? y) && (y <=? 9999))%Z.

(** [datetime.fromtimestamp(us / 10**6).year] for a timestamp of [us]
    microseconds.  Besides the instant itself, [fromtimestamp] converts the
    instant 24 hours before it, to find out whether the local time is the
    second of two equal ones, and, when the offset from UTC went down within
    those 24 hours, a third instant; each conversion raises for a year
    outside 1..9999.  So the whole first day of year 1 raises.  (An instant
    too far off for the platform's [localtime] raises [OverflowError] or
    [OSError]; the model says [ValueError] there too.) *)
Definition fromtimestamp_year (us : Z) : result Z :=
  let t := (us / 1000000)%Z in
  let y := local_year t in
  let probe := (t - 86400)%Z in
  let transition := (utcoffset t - utcoffset probe)%Z in
  if negb (year_ok y) then Err ValueError
  else if negb (year_ok (local_year probe)) then Err ValueError
  else if (transition <? 0)%Z && negb (year_ok (local_year (t + transition)))
       then Err ValueError
  else Ok y.

(** The loop [while chunk := f.read(chunk_size): sha256.update(chunk)].
    [rest] is what the file object has not yet returned and [fed] what the
    hash object has been given. *)
Fixpoint read_loop (fuel chunk_size : nat) (rest fed : string) : option string :=
  match fuel with
  | O => None
  | S fuel' =>
      let chunk := String.substring 0 chunk_size rest in
      if String.eqb chunk EmptyString then Some fed
      else read_loop fuel' chunk_size
             (String.substring chunk_size (String.length rest - chunk_size) rest)
             (fed +:+ chunk)
  end.

Definition calculate_file_hash_with (chunk_size : nat) (filepath : path) : M (option string) :=
  try_except
    (log (Opened filepath);;
     content ← stat_fs (fun m => open_read m filepath);
     fed ← of_fuel (read_loop (S (String.length content)) chunk_size content EmptyString);
     mret (Some (sha256_hex fed)))
    (fun e => print (MsgHashError filepath e);; mret None).

Definition calculate_file_hash : path -> M (option string) :=
  calculate_file_hash_with 8192.

(** Truth value of a hash: [None] and the empty string are false. *)
Definition truthy (h : option string) : bool :=
  match h with
  | Some s => negb (String.eqb s EmptyString)
  | None => false
  end.

Definition hash_eqb (h1 h2 : option string) : bool :=
  match h1, h2 with
  | Some a, Some b => String.eqb a b
  | None, None => true
  | _, _ => false
  end.

Definition is_duplicate (file1 file2 : path) : M bool :=
  try_except
    (size1 ← stat_fs (fun m => getsize m file1);
     size2 ← stat_fs (fun m => getsize m file2);
     if negb (size1 =? size2) then mret false
     else
       hash1 ← calculate_file_hash file1;
       hash2 ← calculate_file_hash file2;
       if negb (truthy hash1) || negb (truthy hash2) then mret false
       else mret (hash_eqb hash1 hash2))
    (fun e => print (MsgDuplicateError file1 file2 e);; mret false).

Definition fallback_year (filepath : path) : M Z :=
  mod_time ← stat_fs (fun m => getmtime m filepath);
  of_result (fromtimestamp_year mod_time).

(** [Image.open(filepath)._getexif()] *)
Definition image_getexif (filepath : path) : M (option (list (nat * string))) :=
  fun w =>
    match fs_lookup (fs w) filepath with
    | Some (File f) =>
        if f_readable f then
          match f_exif f with
          | ExifData d => (Return d, w)
          | ImageOpenRaises => (Raise (OSError filepath), w)
          end
        else (Raise (PermissionError filepath), w)
    | _ => (Raise (FileNotFoundError filepath), w)
    end.

(** [TAGS.get(tag_id) == 'DateTimeOriginal']: tag 0x9003 and no other. *)
Definition is_DateTimeOriginal (tag_id : nat) : bool := tag_id =? 36867.

(** The loop over [exif_data.items()]: [Some y] when it returns [y],
    [None] when it ends without returning. *)
Fixpoint exif_loop (items : list (nat * string)) : M (option Z) :=
  match items with
  | [] => mret None
  | (tag_id, value) :: rest =>
      if is_DateTimeOriginal tag_id then
        match strptime_year value with
        | Some y => mret (Some y)
        | None => raise ValueError
        end
      else exif_loop rest
  end.

Definition get_image_year (filepath : path) : M Z :=
  found ← try_except
            (exif_data ← image_getexif filepath;
             match exif_data with
             | Some (item :: items) => exif_loop (item :: items)
             | _ => mret None
             end)
            (fun _ => mret None);
  match found with
  | Some y => mret y
  | None => fallback_year filepath
  end.

(** [createParser(filepath)] of hachoir.  It opens the file as an input
    stream, which raises [InputStreamError] when the file cannot be opened
    and [NullStreamError] when it is empty, and then guesses a parser: the
    parser, or [None] when no parser recognises the content. *)
Definition createParser (filepath : path) : M video_probe :=
  fun w =>
    match fs_lookup (fs w) filepath with
    | Some (File f) =>
        if f_readable f then
          if String.eqb (f_data f) EmptyString then (Raise (NullStreamError filepath), w)
          else (Return (f_video f), w)
        else (Raise (InputStreamError filepath), w)
    | _ => (Raise (InputStreamError filepath), w)
    end.

(** [extractMetadata(parser)] followed by the test on [creation_date]. *)
Definition extract_creation_year (r : extract_result) : M (option Z) :=
  match r with
  | ExtractRaises => raise ValueError
  | MetadataNone => mret None
  | NoCreationDate => mret None
  | CreationDate y => mret (Some y)
  end.

Definition get_video_year (filepath : path) : M Z :=
  parser ← createParser filepath;
  match parser with
  | ParserNone => fallback_year filepath
  | ParserOpened r =>
      found ← try_finally
                (try_except (extract_creation_year r) (fun _ => mret None))
                (log (ParserClosed filepath));
      match found with
      | Some y => mret y
      | None => fallback_year filepath
      end
  end.

(** The loop [while os.path.exists(p): p = mk count; count += 1]. *)
Fixpoint free_name_loop (fuel : nat) (m : gmap string node) (mk : nat -> path)
    (p : path) (count : nat) : option path :=
  match fuel with
  | O => None
  | S fuel' =>
      if exists_ m p then free_name_loop fuel' m mk (mk count) (S count)
      else Some p
  end.

(** The loop cannot run longer than there are entries in the file system
    (see [free_name_loop_total]); that bounds the model's fuel. *)
Definition while_exists (mk : nat -> path) (p : path) (count : nat) : M path :=
  fun w => of_fuel (free_name_loop (S (S (size (fs w)))) (fs w) mk p count) w.

(** [f"{name}_{count}{ext}"] *)
Definition numbered (name ext : string) (count : nat) : string :=
  name +:+ String "_" (str count +:+ ext).

Definition os_makedirs (p : path) : M unit :=
  log (MadeDirs p);; update_fs (fun m => makedirs m p).

Definition move (src dst : path) : M unit :=
  log (MoveTried src dst);; update_fs (fun m => shutil_move m src dst).

Definition move_file_safe (src_path dest_path duplicates_folder : path) (count : nat) : M unit :=
  try_except
    (dest_exists ← read_fs (fun m => exists_ m dest_path);
     if dest_exists : bool then
       duplicate ← is_duplicate src_path dest_path;
       if duplicate : bool then
         os_makedirs duplicates_folder;;
         let duplicate_dest := join duplicates_folder (basename src_path) in
         let count := 1 in
         let (name, ext) := splitext (basename src_path) in
         duplicate_dest ← while_exists
                            (fun count => join duplicates_folder (numbered name ext count))
                            duplicate_dest count;
         move src_path duplicate_dest;;
         print (MsgFullDuplicate src_path duplicate_dest)
       else
         let dest_folder := dirname dest_path in
         let (name, ext) := splitext (basename dest_path) in
         let count := 1 in
         let new_dest_path := dest_path in
         new_dest_path ← while_exists
                           (fun count => join dest_folder (numbered name ext count))
                           new_dest_path count;
         move src_path new_dest_path;;
         print (MsgNameConflict src_path new_dest_path)
     else
       move src_path dest_path;;
       print (MsgMoved count src_path dest_path))
    (fun e => print (MsgMoveError src_path e)).

(** The [dirs] ([d = true]) and the [files] ([d = false]) of a listing. *)
Definition names_where (d : bool) (entries : list (string * bool)) : list string :=
  map fst (filter (fun e : string * bool => Bool.eqb e.2 d) entries).

(** [os.walk(top)] on a file system that does not change: the sum of
    [len(files)] over the directories visited.  [fuel] bounds the depth. *)
Fixpoint walk_count (fuel : nat) (m : gmap string node) (top : path) : option nat :=
  match fuel with
  | O => None
  | S fuel' =>
      match scandir m top with
      | Err _ => Some 0
      | Ok entries =>
          foldr (fun d acc =>
                   match walk_count fuel' m (join top d), acc with
                   | Some n, Some total => Some (n + total)
                   | _, _ => None
                   end)
                (Some (length (names_where false entries)))
                (names_where true entries)
      end
  end.

Definition count_files_in_directory (fuel : nat) (directory : path) : M nat :=
  fun w => of_fuel (walk_count fuel (fs w) directory) w.

(** The body of [for file in files] in [copy_media_sorted_by_year]. *)
Definition sort_file (photo_dest_folder video_dest_folder duplicate_root : path)
    (root : path) (file : string) (count : nat) : M nat :=
  let src_path := join root file in
  let relocate (year : Z) (base_dest duplicate_dest : path) : M nat :=
    let year_folder := join base_dest (str_Z year) in
    os_makedirs year_folder;;
    let dest_path := join year_folder file in
    let count := count + 1 in
    move_file_safe src_path dest_path duplicate_dest count;;
    mret count in
  match classify file with
  | Photo =>
      year ← get_image_year src_path;
      relocate year photo_dest_folder (join3 duplicate_root "Photo" (str_Z year))
  | Video =>
      year ← get_video_year src_path;
      relocate year video_dest_folder (join3 duplicate_root "Video" (str_Z year))
  | Ignored => mret count
  end.

(** [for root, _, files in os.walk(source_folder): for file in files: ...].
    Each directory is listed when the walk reaches it, after the files
    before it have been moved. *)
Fixpoint walk_sort (fuel : nat) (photo_dest_folder video_dest_folder duplicate_root : path)
    (top : path) (count : nat) : M nat :=
  match fuel with
  | O => diverge
  | S fuel' =>
      listing ← read_fs (fun m => scandir m top);
      match listing with
      | Err _ => mret count
      | Ok entries =>
          count ← for_each (names_where false entries)
                    (sort_file photo_dest_folder video_dest_folder duplicate_root top) count;
          for_each (names_where true entries)
            (fun d count =>
               walk_sort fuel' photo_dest_folder video_dest_folder duplicate_root
                 (join top d) count)
            count
      end
  end.

Definition copy_media_sorted_by_year (fuel : nat)
    (source_folder photo_dest_folder video_dest_folder duplicate_root : path) : M unit :=
  source_file_count ← count_files_in_directory fuel source_folder;
  pre_photo_count ← count_files_in_directory fuel photo_dest_folder;
  pre_video_count ← count_files_in_directory fuel video_dest_folder;
  pre_duplicate_count ← count_files_in_directory fuel duplicate_root;
  let pre_sorted_count := pre_duplicate_count + pre_video_count + pre_photo_count in
  print (MsgInitialCounts source_file_count pre_photo_count pre_video_count
           pre_duplicate_count);;
  source_is_dir ← read_fs (fun m => isdir m source_folder);
  if negb source_is_dir then print (MsgSourceMissing source_folder)
  else
    let count := 0 in
    walk_sort fuel photo_dest_folder video_dest_folder duplicate_root source_folder count;;
    post_photo_count ← count_files_in_directory fuel photo_dest_folder;
    post_video_count ← count_files_in_directory fuel video_dest_folder;
    post_duplicate_count ← count_files_in_directory fuel duplicate_root;
    let post_total_sorted_files :=
      (Z.of_nat post_photo_count + Z.of_nat post_video_count
       + Z.of_nat post_duplicate_count)%Z in
    let moved_files :=
      (post_total_sorted_files
       - (Z.of_nat pre_photo_count + Z.of_nat pre_video_count
          + Z.of_nat pre_duplicate_count))%Z in
    let check := (Z.of_nat source_file_count - moved_files)%Z in
    print (MsgPostCounts moved_files (Z.of_nat pre_sorted_count) post_total_sorted_files
             (Z.of_nat post_duplicate_count - Z.of_nat pre_duplicate_count)%Z check).

(** ** What the statements below speak about *)

(** What [calculate_file_hash] returns and what it leaves in the trace. *)
Definition hash_of (m : gmap string node) (p : path) : option string :=
  match open_read m p with
  | Ok content => Some (sha256_hex content)
  | Err _ => None
  end.

Definition hash_events (m : gmap string node) (p : path) : list event :=
  match open_read m p with
  | Ok _ => [Opened p]
  | Err e => [Printed (MsgHashError p e); Opened p]
  end.

(** What [is_duplicate] returns and what it leaves in the trace. *)
Definition duplicate_verdict (m : gmap string node) (file1 file2 : path) : bool :=
  match getsize m file1, getsize m file2 with
  | Ok size1, Ok size2 =>
      (size1 =? size2) && truthy (hash_of m file1) && truthy (hash_of m file2)
      && hash_eqb (hash_of m file1) (hash_of m file2)
  | _, _ => false
  end.

Definition duplicate_events (m : gmap string node) (file1 file2 : path) : list event :=
  match getsize m file1, getsize m file2 with
  | Ok size1, Ok size2 =>
      if size1 =? size2 then hash_events m file2 ++ hash_events m file1 else []
  | Err e, _ => [Printed (MsgDuplicateError file1 file2 e)]
  | _, Err e => [Printed (MsgDuplicateError file1 file2 e)]
  end.

Definition add_events (evs : list event) (w : world) : world :=
  {| fs := fs w; out := evs ++ out w |}.

(** The names a search for a free name tries: [first], then [mk 1],
    [mk 2], ...; [first_free m cand k] says the search stops at [cand k]. *)
Definition candidate (mk : nat -> path) (first : path) (k : nat) : path :=
  match k with
  | O => first
  | S _ => mk k
  end.

Definition first_free (m : gmap string node) (cand : nat -> path) (k : nat) : Prop :=
  exists_ m (cand k) = false /\ forall j, j < k -> exists_ m (cand j) = true.

Definition duplicate_candidate (duplicates_folder src_path : path) : nat -> path :=
  candidate
    (fun count =>
       join duplicates_folder
         (numbered (splitext (basename src_path)).1 (splitext (basename src_path)).2 count))
    (join duplicates_folder (basename src_path)).

Definition conflict_candidate (dest_path : path) : nat -> path :=
  candidate
    (fun count =>
       join (dirname dest_path)
         (numbered (splitext (basename dest_path)).1 (splitext (basename dest_path)).2 count))
    dest_path.

(** The world after [shutil.move(src, target)] inside [move_file_safe]:
    moved and announced with [done], or left as it was and the error printed. *)
Definition after_move (w : world) (src target : path) (done : message) : world :=
  match shutil_move (fs w) src target with
  | Ok m => {| fs := m; out := Printed done :: MoveTried src target :: out w |}
  | Err e =>
      {| fs := fs w; out := Printed (MsgMoveError src e) :: MoveTried src target :: out w |}
  end.

(** The four ways [move_file_safe] ends. *)
Inductive relocated (src dest dup : path) (count : nat) (w : world) : world -> Prop :=
| relocated_clear :
    exists_ (fs w) dest = false ->
    relocated src dest dup count w (after_move w src dest (MsgMoved count src dest))
| relocated_duplicate w1 m1 k :
    exists_ (fs w) dest = true ->
    is_duplicate src dest w = (Return true, w1) ->
    makedirs (fs w1) dup = Ok m1 ->
    first_free m1 (duplicate_candidate dup src) k ->
    relocated src dest dup count w
      (after_move {| fs := m1; out := MadeDirs dup :: out w1 |} src
         (duplicate_candidate dup src k)
         (MsgFullDuplicate src (duplicate_candidate dup src k)))
| relocated_duplicate_no_folder w1 e :
    exists_ (fs w) dest = true ->
    is_duplicate src dest w = (Return true, w1) ->
    makedirs (fs w1) dup = Err e ->
    relocated src dest dup count w
      {| fs := fs w1; out := Printed (MsgMoveError src e) :: MadeDirs dup :: out w1 |}
| relocated_conflict w1 k :
    exists_ (fs w) dest = true ->
    is_duplicate src dest w = (Return false, w1) ->
    first_free (fs w1) (conflict_candidate dest) k ->
    relocated src dest dup count w
      (after_move w1 src (conflict_candidate dest k)
         (MsgNameConflict src (conflict_candidate dest k))).

(** The moves a stretch of the trace records. *)
Definition moves_in (evs : list event) : list (string * string) :=
  omap (fun e => match e with MoveTried s d => Some (s, d) | _ => None end) evs.

(** Two files differ for the comparison: in size or in digest.  Files of
    different content differ in this sense unless SHA-256 collides on them. *)
Definition differ (f g : file) : Prop :=
  String.length (f_data f) <> String.length (f_data g)
  \/ sha256_hex (f_data f) <> sha256_hex (f_data g).

(** The calls the walk makes for the files that share one destination
    path, with the counter it passes along: [count += 1] and then
    [move_file_safe(src, dest, dup, count)] for each of them. *)
Definition relocate_all (srcs : list path) (dest dup : path) (count : nat) : M nat :=
  for_each srcs
    (fun src count =>
       let count := count + 1 in
       move_file_safe src dest dup count;;
       mret count)
    count.

(** [placed dest w srcs targets w']: the sources went, one after the other,
    each to the first free candidate of [dest] at the time of its move. *)
Inductive placed (dest : path) : world -> list path -> list path -> world -> Prop :=
| placed_nil w : placed dest w [] [] w
| placed_cons w w1 w2 src srcs target targets f k :
    fs w !! src = Some (File f) ->
    first_free (fs w) (conflict_candidate dest) k ->
    target = conflict_candidate dest k ->
    fs w1 = <[target := File f]> (delete src (fs w)) ->
    placed dest w1 srcs targets w2 ->
    placed dest w (src :: srcs) (target :: targets) w2.

(** The creation year the metadata of a video gives, if any: that of a
    file that [createParser] can open, with a parser whose metadata has a
    creation date. *)
Definition creation_year (m : gmap string node) (p : path) : option Z :=
  match fs_lookup m p with
  | Some (File f) =>
      if f_readable f && negb (String.eqb (f_data f) EmptyString) then
        match f_video f with
        | ParserOpened (CreationDate y) => Some y
        | _ => None
        end
      else None
  | _ => None
  end.

(** The year the EXIF data of an image gives, if any: the year parsed from
    the value of the first [DateTimeOriginal] entry. *)
Definition exif_year (m : gmap string node) (p : path) : option Z :=
  match fs_lookup m p with
  | Some (File f) =>
      if f_readable f then
        match f_exif f with
        | ExifData (Some items) =>
            match find (fun item : nat * string => is_DateTimeOriginal item.1) items with
            | Some item => strptime_year item.2
            | None => None
            end
        | _ => None
        end
      else None
  | _ => None
  end.

End Main.

(** An entry of the extension tuples has no dot after its first character. *)
Definition dot_only_first (t : string) : bool :=
  match t with
  | EmptyString => true
  | String _ t' => negb (contains extsep t')
  end.

(** What [os.path.join] puts before a name. *)
Definition slashed (top : string) : string :=
  if String.eqb top "" || endswith top (String sep "") then top else top +:+ String sep "".

(** [below m top k]: the entry [k] lies in the tree of the directory [top]:
    it is an entry of [top], or lies in the tree of an entry of [top] that
    is a directory. *)
Inductive below (m : gmap string node) : path -> path -> Prop :=
| below_child top k : child_of top k = true -> below m top k
| below_deeper top d k :
    child_of top d = true -> m !! d = Some Dir -> below m d k -> below m top k.

(** The entries a census of [top] counts: those of its tree that are not
    directories. *)
Definition counted (m : gmap string node) (top k : path) : Prop :=
  exists n, m !! k = Some n /\ n <> Dir /\ below m top k.


(** The regular files of a file system, whatever their paths. *)
Definition file_of (n : node) : option file :=
  match n with File f => Some f | _ => None end.

Definition files_of (m : gmap string node) : list file :=
  (map_to_list (omap file_of m)).*2.

(** [conserved m m']: [m'] holds the same regular files as [m], each as
    often, with content, modification time and metadata as they were,
    though possibly at other paths; and every directory of [m] is still a
    directory. *)
Definition conserved (m m' : gmap string node) : Prop :=
  files_of m ≡ₚ files_of m' /\ forall p, m !! p = Some Dir -> m' !! p = Some Dir.

(** [untouched m m']: the files and directories of [m] whose name is
    neither a photo's nor a video's are in [m'] as they were. *)
Definition untouched (m m' : gmap string node) : Prop :=
  forall p n, m !! p = Some n -> n <> BrokenLink -> classify (basename p) = Ignored ->
              m' !! p = Some n.

(** [relocation src m m']: [m'] is [m] with directories added and, possibly,
    the entry at [src], which is no directory, moved to a path that was free. *)
Definition relocation (src : path) (m m' : gmap string node) : Prop :=
  exists m1,
    dirs_added m m1
    /\ (m' = m1
        \/ exists n t,
             m1 !! src = Some n /\ n <> Dir
             /\ (m1 !! t = None \/ m1 !! t = Some BrokenLink)
             /\ m' = <[t := n]> (delete src m1)).

(** What a run keeps: both of the above. *)
Definition kept (m m' : gmap string node) : Prop := conserved m m' /\ untouched m m'.


(** ** Sample data for the examples at the end

    A stand-in for SHA-256 (never empty, and without collisions), UTC as the
    local time zone, an EXIF date parser that reads the first four
    characters as 2021 or fails, and two small file systems. *)

Definition sample_sha (content : string) : string := "sha256:" +:+ content.

Definition sample_utcoffset (t : Z) : Z := 0%Z.

Definition sample_strptime_year (value : string) : option Z :=
  if startswith value "2021:" then Some 2021%Z else None.

(** A readable file without metadata, last modified on 2021-06-01 at noon. *)
Definition plain_file (content : string) : node :=
  File {| f_data := content; f_mtime := 1622548800000000; f_readable := true;
          f_exif := ImageOpenRaises; f_video := ParserNone |}.

Definition unreadable_file (content : string) : node :=
  File {| f_data := content; f_mtime := 1622548800000000; f_readable := false;
          f_exif := ImageOpenRaises; f_video := ParserNone |}.

Definition video_file (content : string) (probe : video_probe) : node :=
  File {| f_data := content; f_mtime := 1622548800000000; f_readable := true;
          f_exif := ImageOpenRaises; f_video := probe |}.

(** Three files named [a.jpg], two of them with the same content, one
    already sorted; a text file; a video; nothing under [/dup]. *)
Definition sample_fs : gmap string node :=
  list_to_map
    [("/src", Dir);
     ("/src/a.jpg", plain_file "AAA");
     ("/src/notes.txt", plain_file "text");
     ("/src/clip.mp4", video_file "VVV" (ParserOpened NoCreationDate));
     ("/src/one", Dir);
     ("/src/one/a.jpg", plain_file "BBB");
     ("/src/two", Dir);
     ("/src/two/a.jpg", plain_file "CCCC");
     ("/src/two/locked.jpg", unreadable_file "AAA");
     ("/out", Dir);
     ("/out/Photo", Dir);
     ("/out/Photo/2021", Dir);
     ("/out/Photo/2021/a.jpg", plain_file "AAA")].

Definition sample_world : world := {| fs := sample_fs; out := [] |}.



(** A source folder that holds a video of no bytes, last modified on
    2021-06-01, and a photo in a subfolder. *)
Definition empty_video_fs : gmap string node :=
  list_to_map
    [("/src", Dir);
     ("/src/empty.mp4", plain_file "");
     ("/src/later", Dir);
     ("/src/later/b.jpg", plain_file "BBB")].

Definition empty_video_world : world := {| fs := empty_video_fs; out := [] |}.

(** A readable image with EXIF data, last modified on 1970-01-01. *)
Definition exif_file (content : string) (items : list (nat * string)) : node :=
  File {| f_data := content; f_mtime := 0; f_readable := true;
          f_exif := ExifData (Some items); f_video := ParserNone |}.

(** A photo of 1970 by its modification time that its EXIF data dates 2021. *)
Definition dated_fs : gmap string node :=
  list_to_map
    [("/in", Dir);
     ("/in/dated.jpg", exif_file "DDD" [(271, "Canon"); (36867, "2021:03:04 10:00:00")])].

Definition dated_world : world := {| fs := dated_fs; out := [] |}.

(** A photo of 1970 whose EXIF data holds no date; a film dated 2018 by
    its metadata; and a library in which a regular file stands where the
    photo folder of 1970 would be. *)
Definition album_fs : gmap string node :=
  list_to_map
    [("/in", Dir);
     ("/in/undated.jpg", exif_file "UUU" [(271, "Canon")]);
     ("/in/film.mov", video_file "FFF" (ParserOpened (CreationDate 2018)));
     ("/lib", Dir);
     ("/lib/Photo", Dir);
     ("/lib/Photo/1970", plain_file "not a folder");
     ("/lib/Video", Dir)].

Definition album_world : world := {| fs := album_fs; out := [] |}.



(* ================================================================== *)
(** * Properties *)

(** ** Strings *)

Lemma app_nil_l_s (s : string) : "" +:+ s = s.
Proof. reflexivity. Qed.

Lemma app_cons_s (c : ascii) (a b : string) : String c a +:+ b = String c (a +:+ b).
Proof. reflexivity. Qed.

Ltac sapp := rewrite ?app_cons_s, ?app_nil_l_s in *.

Lemma app_empty_r (s : string) : s +:+ "" = s.
Proof. induction s as [|c s IH]; sapp; [reflexivity | now rewrite IH]. Qed.

Lemma app_assoc_s (a b c : string) : (a +:+ b) +:+ c = a +:+ (b +:+ c).
Proof. induction a as [|x a IH]; sapp; [reflexivity | now rewrite IH]. Qed.

Lemma length_app_s (a b : string) :
  String.length (a +:+ b) = String.length a + String.length b.
Proof. induction a as [|x a IH]; sapp; simpl; [reflexivity | now rewrite IH]. Qed.

Lemma app_cancel_r (a b c : string) : a +:+ c = b +:+ c -> a = b.
Proof.
  revert b. induction a as [|x a IH]; intros [|y b] H; sapp.
  - reflexivity.
  - apply (f_equal String.length) in H. simpl in H. rewrite length_app_s in H. lia.
  - apply (f_equal String.length) in H. simpl in H. rewrite length_app_s in H. lia.
  - injection H as -> H. f_equal. now apply IH.
Qed.

Lemma contains_app (c : ascii) (a b : string) :
  contains c (a +:+ b) = contains c a || contains c b.
Proof.
  induction a as [|x a IH]; sapp; simpl; [reflexivity|].
  destruct (Ascii.eqb x c); [reflexivity | exact IH].
Qed.

Lemma all_char_app (c : ascii) (a b : string) :
  all_char c (a +:+ b) = all_char c a && all_char c b.
Proof.
  induction a as [|x a IH]; sapp; simpl; [reflexivity|].
  rewrite IH. now rewrite andb_assoc.
Qed.

Lemma all_char_contains (c d : ascii) (s : string) :
  c <> d -> contains d s = true -> all_char c s = false.
Proof.
  intros Hcd. induction s as [|x s IH]; simpl; [discriminate|].
  destruct (Ascii.eqb_spec x d) as [->|Hx].
  - intros _. destruct (Ascii.eqb_spec d c) as [->|_]; [congruence | reflexivity].
  - intros H. rewrite (IH H). apply andb_false_r.
Qed.

Lemma rsplit_spec (c : ascii) (s a b : string) :
  rsplit c s = Some (a, b) -> s = a +:+ String c b /\ contains c b = false.
Proof.
  revert a b. induction s as [|x s IH]; intros a b; simpl; [discriminate|].
  destruct (rsplit c s) as [[a' b']|] eqn:E.
  - intros [= <- <-]. destruct (IH _ _ eq_refl) as [-> Hb]. now split.
  - destruct (Ascii.eqb_spec x c) as [->|Hx]; [|discriminate].
    intros [= <- <-]. split; [reflexivity|].
    clear IH. induction s as [|y s IH]; simpl in *; [reflexivity|].
    destruct (rsplit c s) as [[? ?]|]; [discriminate|].
    destruct (Ascii.eqb y c); [discriminate | now apply IH].
Qed.

Lemma rsplit_None (c : ascii) (s : string) :
  rsplit c s = None <-> contains c s = false.
Proof.
  induction s as [|x s IH]; simpl; [tauto|].
  destruct (rsplit c s) as [[a b]|].
  - split; [discriminate|]. destruct (Ascii.eqb x c); [discriminate|].
    intros H. apply IH in H. discriminate.
  - destruct (Ascii.eqb x c); [split; discriminate|]. tauto.
Qed.

(** With no [c] in [b], the last [c] of [a ++ b] is the last [c] of [a]. *)
Lemma rsplit_app_r (c : ascii) (a b : string) :
  contains c b = false ->
  rsplit c (a +:+ b) =
  match rsplit c a with
  | Some (x, y) => Some (x, y +:+ b)
  | None => None
  end.
Proof.
  intros Hb. induction a as [|x a IH]; sapp; simpl.
  - now apply rsplit_None.
  - rewrite IH. destruct (rsplit c a) as [[u v]|]; [reflexivity|].
    destruct (Ascii.eqb x c); reflexivity.
Qed.

Lemma rsplit_at (c : ascii) (a b : string) :
  contains c b = false -> rsplit c (a +:+ String c b) = Some (a, b).
Proof.
  intros Hb. induction a as [|x a IH]; sapp; simpl.
  - apply rsplit_None in Hb. rewrite Hb. now rewrite Ascii.eqb_refl.
  - now rewrite IH.
Qed.

Lemma basename_no_sep (p : path) : contains sep (basename p) = false.
Proof.
  unfold basename. destruct (rsplit sep p) as [[a b]|] eqn:E.
  - now apply rsplit_spec in E.
  - now apply rsplit_None.
Qed.

Lemma basename_app (a b : string) :
  contains sep b = false -> basename (a +:+ String sep b) = b.
Proof. intros Hb. unfold basename. now rewrite rsplit_at. Qed.

(** *** Decimal numerals *)

Lemma string_of_uint_digits (d : Decimal.uint) :
  all_digits (NilEmpty.string_of_uint d) = true.
Proof. induction d; simpl; auto. Qed.

Lemma to_little_uint_nonnil (n : nat) (d : Decimal.uint) :
  d <> Decimal.Nil -> Nat.to_little_uint n d <> Decimal.Nil.
Proof.
  revert d. induction n as [|n IH]; intros d Hd; simpl; [exact Hd|].
  apply IH. destruct d; simpl; discriminate.
Qed.

Lemma to_uint_nonnil (n : nat) : Nat.to_uint n <> Decimal.Nil.
Proof.
  unfold Nat.to_uint. intros H. apply DecimalFacts.rev_nil_inv in H.
  revert H. apply to_little_uint_nonnil. discriminate.
Qed.

Lemma str_digits (n : nat) : all_digits (str n) = true.
Proof.
  unfold str, NilZero.string_of_uint.
  destruct (Nat.to_uint n) as [|u|u|u|u|u|u|u|u|u|u]; simpl; try reflexivity;
    apply string_of_uint_digits.
Qed.

Lemma str_inj (n m : nat) : str n = str m -> n = m.
Proof.
  unfold str. intros H. apply Unsigned.to_uint_inj.
  pose proof (NilZero.usu _ (to_uint_nonnil n)) as Hn.
  pose proof (NilZero.usu _ (to_uint_nonnil m)) as Hm.
  rewrite H in Hn. congruence.
Qed.

Lemma digits_contains (c : ascii) (s : string) :
  is_digit c = false -> all_digits s = true -> contains c s = false.
Proof.
  intros Hc. induction s as [|x s IH]; simpl; [reflexivity|].
  intros [Hx Hs]%andb_prop. destruct (Ascii.eqb_spec x c) as [->|_]; [congruence | auto].
Qed.

Lemma numbered_inj (name ext : string) (i j : nat) :
  numbered name ext i = numbered name ext j -> i = j.
Proof.
  unfold numbered. intros H. apply String.app_inj in H. injection H as H.
  apply app_cancel_r in H. now apply str_inj.
Qed.

(** ** Reading a file in chunks *)

Lemma substring_0_all (s : string) : String.substring 0 (String.length s) s = s.
Proof. induction s as [|c s IH]; simpl; [reflexivity | now rewrite IH]. Qed.

Lemma substring_split (n : nat) (s : string) :
  String.substring 0 n s +:+ String.substring n (String.length s - n) s = s.
Proof.
  revert s. induction n as [|n IH]; intros s.
  - rewrite Nat.sub_0_r, substring_0_all. now destruct s.
  - destruct s as [|c s]; simpl; [reflexivity|]. sapp. now rewrite IH.
Qed.

Lemma length_substring_tail (n : nat) (s : string) :
  String.length (String.substring n (String.length s - n) s) = String.length s - n.
Proof.
  revert s. induction n as [|n IH]; intros s.
  - now rewrite Nat.sub_0_r, substring_0_all.
  - destruct s as [|c s]; simpl; [reflexivity | apply IH].
Qed.

Lemma read_loop_all (fuel chunk_size : nat) (rest fed : string) :
  0 < chunk_size -> String.length rest < fuel ->
  read_loop fuel chunk_size rest fed = Some (fed +:+ rest).
Proof.
  intros Hc. revert rest fed. induction fuel as [|fuel IH]; intros rest fed Hf; [lia|].
  cbn [read_loop]. 
  destruct rest as [|c r].
  - destruct chunk_size; [lia|]. simpl. now rewrite app_empty_r.
  - destruct chunk_size as [|k]; [lia|].
    assert (String.substring 0 (S k) (String c r) = String c (String.substring 0 k r)) as E
      by reflexivity.
    rewrite E. cbn [String.eqb].
    rewrite IH.
    + rewrite app_assoc_s. rewrite <- E. now rewrite substring_split.
    + rewrite length_substring_tail. simpl in *. lia.
Qed.

(** ** Trailing separators, [dirname] and [join] *)

Lemma rstrip_empty_iff (c : ascii) (s : string) : rstrip c s = "" <-> all_char c s = true.
Proof.
  induction s as [|x s IH]; simpl; [tauto|].
  destruct (rstrip c s) eqn:E.
  - destruct (Ascii.eqb x c); simpl.
    + split; [intros _; now apply IH | reflexivity].
    + split; discriminate.
  - split; [discriminate|]. intros [_ H]%andb_prop. apply IH in H. discriminate.
Qed.

Lemma endswith_char_cons (c x : ascii) (s : string) :
  endswith (String x s) (String c "")
  = (Ascii.eqb x c && String.eqb s "") || endswith s (String c "").
Proof.
  cbn [endswith String.eqb]. destruct (Ascii.eqb x c); [|reflexivity].
  simpl. destruct s; reflexivity.
Qed.

Lemma rstrip_no_trail (c : ascii) (s : string) : endswith (rstrip c s) (String c "") = false.
Proof.
  induction s as [|x s IH]; [reflexivity|]. cbn [rstrip].
  destruct (rstrip c s) as [|y r] eqn:E.
  - destruct (Ascii.eqb x c) eqn:Ex; [reflexivity|].
    rewrite endswith_char_cons, Ex. reflexivity.
  - rewrite endswith_char_cons, IH. cbn [String.eqb]. now rewrite andb_false_r.
Qed.

Lemma rstrip_id (c : ascii) (s : string) : endswith s (String c "") = false -> rstrip c s = s.
Proof.
  induction s as [|x s IH]; [reflexivity|].
  rewrite endswith_char_cons. intros [H1 H2]%orb_false_elim.
  cbn [rstrip]. rewrite (IH H2). destruct s as [|y r]; [|reflexivity].
  simpl in H1. rewrite andb_true_r in H1. now rewrite H1.
Qed.

Lemma rstrip_snoc (c : ascii) (s : string) : rstrip c (s +:+ String c "") = rstrip c s.
Proof.
  induction s as [|x s IH]; sapp.
  - simpl. now rewrite Ascii.eqb_refl.
  - cbn [rstrip]. now rewrite IH.
Qed.

Lemma endswith_snoc (c : ascii) (s : string) : endswith (s +:+ String c "") (String c "") = true.
Proof.
  induction s as [|x s IH]; sapp.
  - simpl. now rewrite Ascii.eqb_refl.
  - rewrite endswith_char_cons, IH. apply orb_true_r.
Qed.

Lemma endswith_char_snoc (c : ascii) (s : string) :
  endswith s (String c "") = true -> exists a, s = a +:+ String c "".
Proof.
  induction s as [|x s IH]; [discriminate|].
  rewrite endswith_char_cons. intros [[H1 H2]%andb_prop|H]%orb_prop.
  - apply Ascii.eqb_eq in H1 as ->. apply String.eqb_eq in H2 as ->. now exists "".
  - destruct (IH H) as [a ->]. now exists (String x a).
Qed.

Lemma all_char_endswith (c : ascii) (s : string) :
  all_char c s = true -> s <> "" -> endswith s (String c "") = true.
Proof.
  induction s as [|x s IH]; [congruence|]. intros [Hx Hs]%andb_prop _.
  rewrite endswith_char_cons, Hx. destruct s as [|y r]; [reflexivity|].
  rewrite IH; [apply orb_true_r | exact Hs | discriminate].
Qed.

Lemma length_rstrip_le (c : ascii) (s : string) : String.length (rstrip c s) <= String.length s.
Proof.
  induction s as [|x s IH]; [reflexivity|]. cbn [rstrip].
  destruct (rstrip c s); [destruct (Ascii.eqb x c)|]; simpl in *; lia.
Qed.

Lemma dirname_normal (p : path) : dir_normal (dirname p).
Proof.
  unfold dirname. destruct (rsplit sep p) as [[a b]|]; [|now left].
  cbv zeta. destruct (all_char sep (a +:+ String sep "")) eqn:E.
  - right. now left.
  - right. right. apply rstrip_no_trail.
Qed.

Lemma startswith_no_sep (x : string) :
  contains sep x = false -> startswith x (String sep "") = false.
Proof.
  destruct x as [|c x]; [reflexivity|]. cbn [contains startswith].
  rewrite (Ascii.eqb_sym sep c). destruct (Ascii.eqb c sep); [discriminate | reflexivity].
Qed.

Lemma join_normal (d x : string) :
  dir_normal d -> contains sep x = false -> x <> "" ->
  dirname (join d x) = d /\ basename (join d x) = x.
Proof.
  intros Hd Hx Hne. unfold join. rewrite (startswith_no_sep x Hx).
  destruct (String.eqb_spec d "") as [->|Hd0].
  - cbn [orb]. sapp. unfold dirname, basename.
    apply rsplit_None in Hx. now rewrite Hx.
  - cbn [orb]. destruct (endswith d (String sep "")) eqn:Ee.
    + destruct (endswith_char_snoc _ _ Ee) as [a ->].
      rewrite app_assoc_s. sapp. unfold dirname, basename. rewrite rsplit_at by exact Hx.
      cbv zeta. split; [|reflexivity].
      destruct Hd as [?|[Hall|Hno]]; [contradiction | now rewrite Hall | congruence].
    + unfold dirname, basename. rewrite rsplit_at by exact Hx.
      cbv zeta. split; [|reflexivity].
      assert (all_char sep d = false) as Hnall.
      { destruct (all_char sep d) eqn:E; [|reflexivity].
        rewrite (all_char_endswith sep d E Hd0) in Ee. discriminate. }
      rewrite all_char_app, Hnall. cbn [andb].
      rewrite rstrip_snoc. now apply rstrip_id.
Qed.

Lemma dirname_length_le (p : path) : String.length (dirname p) <= String.length p.
Proof.
  unfold dirname. destruct (rsplit sep p) as [[a b]|] eqn:E; [|simpl; lia].
  apply rsplit_spec in E as [-> _]. cbv zeta.
  assert (String.length (a +:+ String sep "") <= String.length (a +:+ String sep b)).
  { rewrite !length_app_s. simpl. lia. }
  destruct (all_char sep (a +:+ String sep "")); [assumption|].
  etransitivity; [apply length_rstrip_le | assumption].
Qed.

Lemma dirname_shorter (p : path) :
  basename p <> "" -> String.length (dirname p) < String.length p.
Proof.
  unfold dirname, basename. destruct (rsplit sep p) as [[a b]|] eqn:E.
  - intros Hb. apply rsplit_spec in E as [-> _]. cbv zeta.
    assert (String.length (a +:+ String sep "") < String.length (a +:+ String sep b)).
    { rewrite !length_app_s. simpl. destruct b; [congruence | simpl; lia]. }
    destruct (all_char sep (a +:+ String sep "")); [assumption|].
    eapply Nat.le_lt_trans; [apply length_rstrip_le | assumption].
  - intros Hp. destruct p; [congruence | simpl; lia].
Qed.

(** ** Candidate names *)

Lemma startswith_numbered (name ext : string) (i j : nat) :
  startswith (numbered name ext i) (String sep "")
  = startswith (numbered name ext j) (String sep "").
Proof. unfold numbered. destruct name as [|c name]; sapp; reflexivity. Qed.

Lemma join_numbered_inj (d name ext : string) (i j : nat) :
  join d (numbered name ext i) = join d (numbered name ext j) -> i = j.
Proof.
  unfold join. rewrite (startswith_numbered name ext i j).
  destruct (startswith (numbered name ext j) (String sep "")).
  - apply numbered_inj.
  - destruct (String.eqb d "" || endswith d (String sep "")); intros H;
      apply String.app_inj in H.
    + now apply numbered_inj in H.
    + injection H as H. now apply numbered_inj in H.
Qed.

Lemma join_contains (c : ascii) (a b : string) :
  contains c b = true -> contains c (join a b) = true.
Proof.
  intros H. unfold join. destruct (startswith b (String sep "")); [exact H|].
  destruct (String.eqb a "" || endswith a (String sep "")); rewrite contains_app.
  - rewrite H. apply orb_true_r.
  - cbn [contains]. rewrite H. destruct (Ascii.eqb sep c); apply orb_true_r.
Qed.

Lemma numbered_underscore (name ext : string) (i : nat) :
  contains "_" (numbered name ext i) = true.
Proof. unfold numbered. rewrite contains_app. simpl. apply orb_true_r. Qed.

Lemma contains_nonempty (c : ascii) (s : string) : contains c s = true -> String.eqb s "" = false.
Proof. destruct s; [discriminate | reflexivity]. Qed.

Lemma fs_lookup_key (m : gmap string node) (p : path) :
  String.eqb p "" = false -> all_char sep p = false -> fs_lookup m p = m !! p.
Proof. intros H1 H2. unfold fs_lookup. now rewrite H1, H2. Qed.

Lemma exists_key (m : gmap string node) (p : path) :
  contains "_" p = true -> exists_ m p = true -> is_Some (m !! p).
Proof.
  intros Hc. unfold exists_. rewrite fs_lookup_key.
  - destruct (m !! p) as [n|]; [eauto | discriminate].
  - now apply (contains_nonempty "_").
  - now apply (all_char_contains sep "_").
Qed.

(** ** [splitext] of a numbered name *)

Lemma basename_app_r (a t : string) :
  contains sep t = false -> basename (a +:+ t) = basename a +:+ t.
Proof.
  intros Ht. unfold basename. rewrite (rsplit_app_r sep a t Ht).
  destruct (rsplit sep a) as [[x y]|]; reflexivity.
Qed.

Lemma suffix_no_char (c : ascii) (k : nat) :
  is_digit c = false -> c <> "_"%char -> contains c (String "_" (str k)) = false.
Proof.
  intros Hd Hu. cbn [contains]. destruct (Ascii.eqb_spec "_" c) as [E|_]; [congruence|].
  apply digits_contains; [exact Hd | apply str_digits].
Qed.

Lemma splitext_app (p : path) : (splitext p).1 +:+ (splitext p).2 = p.
Proof.
  unfold splitext. destruct (rsplit extsep p) as [[a e]|] eqn:E; [|apply app_empty_r].
  destruct (contains sep e); [apply app_empty_r|].
  destruct (all_char extsep (basename a)); [apply app_empty_r|].
  apply rsplit_spec in E as [-> _]. reflexivity.
Qed.

Lemma splitext_numbered (b : string) (k : nat) :
  splitext (numbered (splitext b).1 (splitext b).2 k)
  = ((splitext b).1 +:+ String "_" (str k), (splitext b).2).
Proof.
  assert (Hdot : contains extsep (String "_" (str k)) = false) by now apply suffix_no_char.
  assert (Hsep : contains sep (String "_" (str k)) = false) by now apply suffix_no_char.
  assert (Hplain : forall a e,
             rsplit extsep b = Some (a, e) ->
             (contains sep e = true \/ all_char extsep (basename a) = true) ->
             splitext (b +:+ String "_" (str k)) = (b +:+ String "_" (str k), "")).
  { intros a e E H. unfold splitext. rewrite (rsplit_app_r extsep b _ Hdot), E.
    rewrite contains_app. destruct H as [-> | H]; [reflexivity|].
    rewrite H. now destruct (contains sep e || _). }
  destruct (splitext b) as [name ext] eqn:Esp. cbn [fst snd].
  unfold splitext in Esp. unfold numbered.
  destruct (rsplit extsep b) as [[a e]|] eqn:E.
  - destruct (contains sep e) eqn:Es.
    { injection Esp as <- <-. rewrite app_empty_r. eapply Hplain; eauto. }
    destruct (all_char extsep (basename a)) eqn:Ea.
    { injection Esp as <- <-. rewrite app_empty_r. eapply Hplain; eauto. }
    injection Esp as <- <-. apply rsplit_spec in E as [_ He].
    replace (a +:+ String "_" (str k +:+ String extsep e))
      with ((a +:+ String "_" (str k)) +:+ String extsep e)
      by (rewrite app_assoc_s; reflexivity).
    unfold splitext. rewrite (rsplit_at extsep _ e He), Es.
    rewrite (basename_app_r a _ Hsep), all_char_app. cbn [all_char].
    replace (Ascii.eqb "_" extsep) with false by reflexivity.
    cbn [andb]. now rewrite andb_false_r.
  - injection Esp as <- <-. rewrite app_empty_r. unfold splitext.
    rewrite (rsplit_app_r extsep b _ Hdot), E. reflexivity.
Qed.

Lemma splitext_no_sep (b : string) :
  contains sep b = false ->
  contains sep (splitext b).1 = false /\ contains sep (splitext b).2 = false.
Proof.
  intros H. rewrite <- (splitext_app b), contains_app in H.
  now apply orb_false_elim in H.
Qed.

Lemma numbered_no_sep (b : string) (k : nat) :
  contains sep b = false ->
  contains sep (numbered (splitext b).1 (splitext b).2 k) = false.
Proof.
  intros [H1 H2]%splitext_no_sep. unfold numbered.
  rewrite contains_app, H1. cbn [orb contains].
  replace (Ascii.eqb "_" sep) with false by reflexivity.
  rewrite contains_app, H2, orb_false_r.
  apply digits_contains; [reflexivity | apply str_digits].
Qed.

Lemma numbered_nonempty (name ext : string) (k : nat) : numbered name ext k <> "".
Proof.
  intros H. pose proof (numbered_underscore name ext k) as Hu. rewrite H in Hu. discriminate.
Qed.

(** ** Paths that are keys of the map *)

Lemma all_sep_basename (p : path) : all_char sep p = true -> basename p = "".
Proof.
  intros H. destruct (String.eqb_spec p "") as [->|Hp]; [reflexivity|].
  destruct (endswith_char_snoc sep p (all_char_endswith sep p H Hp)) as [a ->].
  now apply basename_app.
Qed.

Lemma basename_proper (p : path) :
  basename p <> "" -> String.eqb p "" = false /\ all_char sep p = false.
Proof.
  intros H. split.
  - apply String.eqb_neq. intros ->. now apply H.
  - destruct (all_char sep p) eqn:E; [|reflexivity]. now apply all_sep_basename in E.
Qed.

Lemma fs_lookup_File (m : gmap string node) (p : path) (f : file) :
  fs_lookup m p = Some (File f) -> m !! p = Some (File f).
Proof.
  unfold fs_lookup. destruct (String.eqb p ""); [discriminate|].
  destruct (all_char sep p); [discriminate | trivial].
Qed.

Lemma fs_lookup_moved (m : gmap string node) (src target p : path) (n : node) :
  p <> src -> p <> target ->
  fs_lookup (<[target := n]> (delete src m)) p = fs_lookup m p.
Proof.
  intros H1 H2. unfold fs_lookup. now rewrite lookup_insert_ne, lookup_delete_ne.
Qed.

(** Moving a regular file to a free name in an existing directory. *)
Lemma shutil_move_file (m : gmap string node) (src target : path) (f : file) :
  m !! src = Some (File f) ->
  exists_ m target = false ->
  basename target <> "" ->
  parent_ok m target = true ->
  shutil_move m src target = Ok (<[target := File f]> (delete src m)).
Proof.
  intros Hsrc Hfree Hb Hp. destruct (basename_proper _ Hb) as [Hne Hns].
  unfold exists_ in Hfree. rewrite (fs_lookup_key m target Hne Hns) in Hfree.
  unfold shutil_move, isdir. rewrite (fs_lookup_key m target Hne Hns).
  assert (match m !! target with Some Dir => true | _ => false end = false) as ->.
  { destruct (m !! target) as [[]|]; congruence. }
  unfold rename. rewrite Hsrc.
  apply String.eqb_neq in Hb. rewrite Hb, Hp. cbn [negb].
  destruct (String.eqb_spec src target) as [->|_].
  { rewrite Hsrc in Hfree. discriminate. }
  destruct (m !! target) as [[]|]; congruence.
Qed.

(** ** [os.makedirs] *)

Lemma dirs_added_refl m : dirs_added m m.
Proof. intros k. now left. Qed.

Lemma dirs_added_trans m1 m2 m3 : dirs_added m1 m2 -> dirs_added m2 m3 -> dirs_added m1 m3.
Proof.
  intros H12 H23 k. destruct (H12 k) as [E|[E1 E2]], (H23 k) as [F|[F1 F2]].
  - left. congruence.
  - right. split; congruence.
  - right. split; congruence.
  - congruence.
Qed.

Lemma fs_lookup_None (m : gmap string node) (p : path) :
  fs_lookup m p = None -> p = "" \/ m !! p = None.
Proof.
  unfold fs_lookup. destruct (String.eqb_spec p ""); [now left|].
  destruct (all_char sep p); [discriminate | now right].
Qed.

Lemma mkdir_Ok (m m2 : gmap string node) (p : path) :
  mkdir m p = Ok m2 -> m2 = <[p := Dir]> m /\ m !! p = None /\ p <> "".
Proof.
  unfold mkdir. destruct (fs_lookup m p) eqn:E; [discriminate|].
  destruct (String.eqb_spec p ""); [discriminate|].
  destruct (parent_ok m p); [|destruct (exists_ m (dirname p)); discriminate].
  intros [= <-]. apply fs_lookup_None in E. intuition.
Qed.

Lemma mkdir_dirs_added m m2 p : mkdir m p = Ok m2 -> dirs_added m m2.
Proof.
  intros (-> & Hn & _)%mkdir_Ok k. destruct (decide (k = p)) as [->|Hk].
  - right. now rewrite lookup_insert_eq.
  - left. now rewrite lookup_insert_ne.
Qed.

Lemma mkdir_isdir m m2 p : mkdir m p = Ok m2 -> isdir m2 p = true.
Proof.
  intros (-> & Hn & Hp)%mkdir_Ok. unfold isdir, fs_lookup.
  destruct (String.eqb_spec p ""); [contradiction|].
  destruct (all_char sep p); [reflexivity|]. now rewrite lookup_insert_eq.
Qed.

Lemma finish_dirs_added m1 m2 name :
  finish_makedirs m1 name = Some (Ok m2) -> dirs_added m1 m2 /\ isdir m2 name = true.
Proof.
  unfold finish_makedirs. destruct (mkdir m1 name) as [m'|e] eqn:E.
  - intros [= <-]. split; [eapply mkdir_dirs_added | eapply mkdir_isdir]; eauto.
  - destruct (isdir m1 name) eqn:Ed; [|discriminate]. intros [= <-].
    split; [apply dirs_added_refl | exact Ed].
Qed.

Lemma makedirs_aux_unfold fuel m name :
  makedirs_aux (S fuel) m name =
  let head0 := dirname name in
  let tail0 := basename name in
  let '(head, tail) :=
    if String.eqb tail0 "" then (dirname head0, basename head0) else (head0, tail0) in
  if negb (String.eqb head "") && negb (String.eqb tail "") && negb (exists_ m head)
  then
    match makedirs_aux fuel m head with
    | None => None
    | Some (Ok m1) =>
        if String.eqb tail (String extsep "") then Some (Ok m1) else finish_makedirs m1 name
    | Some (Err (FileExistsError _)) =>
        if String.eqb tail (String extsep "") then Some (Ok m) else finish_makedirs m name
    | Some (Err e) => Some (Err e)
    end
  else finish_makedirs m name.
Proof. reflexivity. Qed.

Lemma makedirs_aux_dirs_added fuel : forall m name m1,
  makedirs_aux fuel m name = Some (Ok m1) -> dirs_added m m1.
Proof.
  induction fuel as [|fuel IH]; intros m name m1; [discriminate|].
  rewrite makedirs_aux_unfold. cbv zeta.
  destruct (if String.eqb (basename name) "" then _ else _) as [head tail].
  destruct (negb (String.eqb head "") && negb (String.eqb tail "") && negb (exists_ m head)).
  - destruct (makedirs_aux fuel m head) as [[m'|e]|] eqn:E; [| |discriminate].
    + apply IH in E. destruct (String.eqb tail (String extsep "")).
      * now intros [= <-].
      * intros [H _]%finish_dirs_added. eapply dirs_added_trans; eauto.
    + destruct e; try discriminate.
      destruct (String.eqb tail (String extsep "")).
      * intros [= <-]. apply dirs_added_refl.
      * now intros [H _]%finish_dirs_added.
  - now intros [H _]%finish_dirs_added.
Qed.

Lemma makedirs_dirs_added m name m1 : makedirs m name = Ok m1 -> dirs_added m m1.
Proof.
  unfold makedirs. destruct (makedirs_aux _ m name) as [[m'|e]|] eqn:E; try discriminate.
  intros [= <-]. eapply makedirs_aux_dirs_added; eauto.
Qed.

Lemma makedirs_isdir m name m1 :
  basename name <> "" -> basename name <> String extsep "" ->
  makedirs m name = Ok m1 -> isdir m1 name = true.
Proof.
  intros Hb%String.eqb_neq Hdot%String.eqb_neq. unfold makedirs.
  rewrite makedirs_aux_unfold. cbv zeta. rewrite Hb. cbv iota beta. rewrite ?Hb, ?Hdot.
  destruct (negb (String.eqb (dirname name) "") && negb false && negb (exists_ m (dirname name))).
  - destruct (makedirs_aux _ m (dirname name)) as [[m'|e]|]; [| |discriminate].
    + destruct (finish_makedirs m' name) as [[m2|e]|] eqn:E; try discriminate.
      intros [= <-]. now apply finish_dirs_added in E.
    + destruct e; try discriminate.
      destruct (finish_makedirs m name) as [[m2|e]|] eqn:E; try discriminate.
      intros [= <-]. now apply finish_dirs_added in E.
  - destruct (finish_makedirs m name) as [[m2|e]|] eqn:E; try discriminate.
    intros [= <-]. now apply finish_dirs_added in E.
Qed.

(** [exist_ok=True]: on a directory that is already there, with its parent,
    nothing changes. *)
Lemma makedirs_idempotent m name :
  basename name <> "" -> isdir m name = true ->
  (dirname name = "" \/ exists_ m (dirname name) = true) ->
  makedirs m name = Ok m.
Proof.
  intros Hb%String.eqb_neq Hd Hp. unfold makedirs. rewrite makedirs_aux_unfold. cbv zeta.
  rewrite Hb. cbv iota beta. rewrite ?Hb.
  assert (negb (String.eqb (dirname name) "") && negb false && negb (exists_ m (dirname name))
          = false) as ->.
  { destruct Hp as [->| ->]; [reflexivity|]. apply andb_false_r. }
  unfold finish_makedirs, mkdir. rewrite Hd. unfold isdir in Hd.
  destruct (fs_lookup m name) as [[]|]; try discriminate. reflexivity.
Qed.

Lemma finish_makedirs_Some (m : gmap string node) (name : string) :
  finish_makedirs m name <> None.
Proof.
  unfold finish_makedirs. destruct (mkdir m name); [|destruct (isdir m name)]; discriminate.
Qed.

(** The model's bound on the recursion of [os.makedirs] is never reached. *)
Lemma makedirs_aux_fuel (m : gmap string node) : forall fuel name,
  String.length name < fuel -> makedirs_aux fuel m name <> None.
Proof.
  induction fuel as [|fuel IH]; intros name Hf; [lia|].
  rewrite makedirs_aux_unfold. cbv zeta.
  assert (exists head tail,
             (if String.eqb (basename name) ""
              then (dirname (dirname name), basename (dirname name))
              else (dirname name, basename name)) = (head, tail)
             /\ (tail <> "" -> String.length head < String.length name))
    as (head & tail & -> & Hshort).
  { pose proof (dirname_length_le name) as Hle.
    destruct (String.eqb_spec (basename name) "") as [E0|E0]; eexists _, _;
      (split; [reflexivity|]); intros Ht.
    - pose proof (dirname_shorter _ Ht). lia.
    - now apply dirname_shorter. }
  destruct (String.eqb_spec tail "") as [->|Ht]; cbn [negb andb].
  { rewrite andb_false_r. apply finish_makedirs_Some. }
  destruct (negb (String.eqb head "") && true && negb (exists_ m head));
    [|apply finish_makedirs_Some].
  specialize (IH head ltac:(specialize (Hshort Ht); lia)).
  destruct (makedirs_aux fuel m head) as [[m1|e]|]; [| |congruence].
  - destruct (String.eqb tail _); [discriminate | apply finish_makedirs_Some].
  - destruct e; try discriminate.
    destruct (String.eqb tail _); [discriminate | apply finish_makedirs_Some].
Qed.

(** ** The search for a free name *)

Lemma free_name_loop_Some (m : gmap string node) (mk : nat -> path) (first : path) :
  forall fuel i q,
    (forall j, j < i -> exists_ m (candidate mk first j) = true) ->
    free_name_loop fuel m mk (candidate mk first i) (S i) = Some q ->
    exists k, q = candidate mk first k /\ first_free m (candidate mk first) k.
Proof.
  induction fuel as [|fuel IH]; intros i q Hlt; simpl; [discriminate|].
  destruct (exists_ m (candidate mk first i)) eqn:E.
  - intros H. apply (IH (S i) q); [|exact H].
    intros j Hj. destruct (decide (j = i)) as [->|]; [exact E | apply Hlt; lia].
  - intros [= <-]. exists i. split; [reflexivity | split; assumption].
Qed.

Lemma free_name_loop_None (m : gmap string node) (mk : nat -> path) (first : path) :
  forall fuel i,
    free_name_loop fuel m mk (candidate mk first i) (S i) = None ->
    forall j, i <= j < i + fuel -> exists_ m (candidate mk first j) = true.
Proof.
  induction fuel as [|fuel IH]; intros i H j Hj; [lia|].
  simpl in H. destruct (exists_ m (candidate mk first i)) eqn:E; [|discriminate].
  destruct (decide (j = i)) as [->|]; [exact E|].
  apply (IH (S i) H). lia.
Qed.

(** Pigeonhole: distinct keys that all exist cannot outnumber the map. *)
Lemma distinct_keys_bounded (m : gmap string node) (f : nat -> path) (n : nat) :
  (forall i j, f i = f j -> i = j) ->
  (forall i, i < n -> is_Some (m !! f i)) ->
  n <= size m.
Proof.
  intros Hinj Hin.
  assert (length (map f (seq 0 n)) <= length (map fst (map_to_list m))) as H.
  2:{ rewrite !length_map, length_seq, length_map_to_list in H. exact H. }
  apply submseteq_length, NoDup_submseteq.
  - apply NoDup_fmap_2_strong; [|apply NoDup_seq].
    intros x y _ _. apply Hinj.
  - intros x [i [-> Hi]]%list_elem_of_fmap.
    apply elem_of_seq in Hi. destruct (Hin i) as [v Hv]; [lia|].
    apply list_elem_of_fmap. exists (f i, v). split; [reflexivity|].
    now apply elem_of_map_to_list.
Qed.

Lemma free_name_loop_total (m : gmap string node) (mk : nat -> path) (first : path) :
  (forall i j, mk i = mk j -> i = j) ->
  (forall i, exists_ m (mk i) = true -> is_Some (m !! mk i)) ->
  exists k, free_name_loop (S (S (size m))) m mk first 1 = Some (candidate mk first k)
            /\ first_free m (candidate mk first) k.
Proof.
  intros Hinj Hkey.
  destruct (free_name_loop (S (S (size m))) m mk first 1) as [q|] eqn:E.
  - destruct (free_name_loop_Some m mk first (S (S (size m))) 0 q) as [k [-> Hk]];
      [intros; lia | exact E |].
    now exists k.
  - exfalso.
    pose proof (free_name_loop_None m mk first (S (S (size m))) 0 E) as Hall.
    assert (S (size m) <= size m) as Habs; [|lia].
    apply (distinct_keys_bounded m (fun i => mk (S i))).
    + intros i j H. apply Hinj in H. lia.
    + intros i Hi. apply Hkey. apply (Hall (S i)). lia.
Qed.

Lemma while_exists_numbered (d name ext : string) (first : path) (w : world) :
  let mk := fun count => join d (numbered name ext count) in
  exists k, while_exists mk first 1 w = (Return (candidate mk first k), w)
            /\ first_free (fs w) (candidate mk first) k.
Proof.
  intros mk. destruct (free_name_loop_total (fs w) mk first) as [k [E Hk]].
  - intros i j. apply join_numbered_inj.
  - intros i. apply exists_key, join_contains, numbered_underscore.
  - exists k. split; [|exact Hk]. unfold while_exists. now rewrite E.
Qed.

Lemma move_eq (src dst : path) (w : world) :
  move src dst w =
  match shutil_move (fs w) src dst with
  | Ok m => (Return tt, {| fs := m; out := MoveTried src dst :: out w |})
  | Err e => (Raise e, {| fs := fs w; out := MoveTried src dst :: out w |})
  end.
Proof.
  unfold move, mbind, M_bind, bind, log, update_fs. cbn [fs out].
  destruct (shutil_move (fs w) src dst); reflexivity.
Qed.

(** ** The walk that counts files *)

Lemma key_len_le (m : gmap string node) (k : string) (n : node) :
  m !! k = Some n -> String.length k <= max_key_len m.
Proof.
  intros H. apply elem_of_map_to_list in H. unfold max_key_len.
  induction (map_to_list m) as [|x l IH]; [inversion H|].
  apply elem_of_cons in H as [<-|H]; simpl; [lia|]. specialize (IH H). lia.
Qed.

Lemma child_longer (top k : string) :
  child_of top k = true -> String.length top < String.length k.
Proof.
  unfold child_of. intros [Hb Hj]%andb_prop.
  apply negb_true_iff, String.eqb_neq in Hb. apply String.eqb_eq in Hj.
  rewrite <- Hj. unfold join.
  rewrite (startswith_no_sep _ (basename_no_sep k)).
  assert (0 < String.length (basename k)) by (destruct (basename k); [congruence | simpl; lia]).
  destruct (_ || _); rewrite length_app_s; simpl; lia.
Qed.

Lemma scandir_entries (m : gmap string node) (top : string) entries d b :
  scandir m top = Ok entries -> (d, b) ∈ entries ->
  exists n, m !! join top d = Some n /\ String.length top < String.length (join top d).
Proof.
  unfold scandir. destruct (isdir m top); [|discriminate]. intros [= <-].
  intros ([k n] & Hin & Hkn)%list_elem_of_omap. cbn [fst snd] in Hkn.
  destruct (child_of top k) eqn:Ec; [|discriminate]. injection Hkn as <- <-.
  apply elem_of_map_to_list in Hin.
  pose proof (child_longer _ _ Ec) as Hl.
  unfold child_of in Ec. apply andb_prop in Ec as [_ Ej]. apply String.eqb_eq in Ej.
  rewrite Ej. eauto.
Qed.

Lemma walk_count_total (m : gmap string node) : forall fuel top,
  1 <= fuel -> max_key_len m < fuel + String.length top ->
  exists n, walk_count fuel m top = Some n.
Proof.
  induction fuel as [|fuel IH]; intros top H1 Hm; [lia|]. cbn [walk_count].
  destruct (scandir m top) as [entries|e] eqn:Es; [|eauto].
  assert (forall d, d ∈ names_where true entries ->
                    exists n, walk_count fuel m (join top d) = Some n) as Hsub.
  { intros d ([d' b] & -> & Hin)%list_elem_of_fmap. apply list_elem_of_filter in Hin as [_ Hin].
    destruct (scandir_entries _ _ _ _ _ Es Hin) as (n & Hk & Hl). cbn [fst] in *.
    apply key_len_le in Hk. apply IH; lia. }
  induction (names_where true entries) as [|d l IHl]; cbn [foldr]; [eauto|].
  destruct (Hsub d) as [n ->]; [left|].
  destruct IHl as [total ->]; [intros; apply Hsub; now right|]. eauto.
Qed.

Lemma count_files_total (fuel : nat) (directory : string) (w : world) :
  max_key_len (fs w) < fuel ->
  exists n, count_files_in_directory fuel directory w = (Return n, w).
Proof.
  intros H. destruct (walk_count_total (fs w) fuel directory) as [n E]; [lia | lia|].
  exists n. unfold count_files_in_directory. now rewrite E.
Qed.

Lemma count_files_missing (fuel : nat) (directory : string) (w : world) :
  1 <= fuel -> isdir (fs w) directory = false ->
  count_files_in_directory fuel directory w = (Return 0, w).
Proof.
  intros H Hd. unfold count_files_in_directory. destruct fuel; [lia|].
  cbn [walk_count]. unfold scandir. now rewrite Hd.
Qed.

(** ** Classification *)

Lemma lower_app (a b : string) : lower (a +:+ b) = lower a +:+ lower b.
Proof. induction a as [|c a IH]; sapp; simpl; [reflexivity | now rewrite IH]. Qed.

Lemma endswith_app (a suffix : string) : endswith (a +:+ suffix) suffix = true.
Proof.
  induction a as [|c a IH]; sapp.
  - destruct suffix; simpl; [reflexivity | now rewrite Ascii.eqb_refl, String.eqb_refl].
  - cbn [endswith]. rewrite IH. now destruct (String.eqb _ _).
Qed.

Lemma endswith_spec (s suffix : string) :
  endswith s suffix = true <-> exists p, s = p +:+ suffix.
Proof.
  split.
  - induction s as [|c s IH]; cbn [endswith].
    + destruct (String.eqb_spec "" suffix) as [<-|]; [now exists "" | discriminate].
    + destruct (String.eqb_spec (String c s) suffix) as [<-|_]; [now exists ""|].
      intros [p ->]%IH. now exists (String c p).
  - intros [p ->]. apply endswith_app.
Qed.

(** For an entry that starts with its only dot, ending with the entry is
    having it as the extension: the text from the last dot on. *)
Lemma endswith_dot_is_extension (s e : string) :
  contains extsep e = false ->
  endswith s (String extsep e) = true <-> exists stem, rsplit extsep s = Some (stem, e).
Proof.
  intros He. rewrite endswith_spec. split; intros [p H]; exists p.
  - subst s. now apply rsplit_at.
  - now apply rsplit_spec in H.
Qed.

(** C2, at the input where the code departs from it.  The last entry of
    [VIDEO_EXTENSIONS] is ["mts"], without the dot the other entries have.
    A name that merely ends in the letters [mts] is therefore never Ignored:
    [footage_mts], which has no extension, classifies as Video. *)
Theorem classify_mts_without_dot :
  classify "footage_mts" = Video
  /\ (splitext "footage_mts").2 = ""
  /\ forall stem, classify (stem +:+ "mts") <> Ignored.
Proof.
  split; [reflexivity|]. split; [reflexivity|].
  intros stem. unfold classify. cbv zeta.
  destruct (endswith_any (lower (stem +:+ "mts")) IMAGE_EXTENSIONS); [discriminate|].
  assert (endswith_any (lower (stem +:+ "mts")) VIDEO_EXTENSIONS = true) as ->; [|discriminate].
  unfold endswith_any, VIDEO_EXTENSIONS. cbn [existsb].
  rewrite lower_app. change (lower "mts") with "mts". rewrite endswith_app.
  now rewrite !orb_true_r.
Qed.

(** The three spellings of the specification's example are photos, and a
    file that is Ignored is passed over: the loop body returns the counter
    and the world as they were. *)
Lemma classify_examples :
  classify "IMG.JPG" = Photo /\ classify "img.jpg" = Photo /\ classify "img.Jpg" = Photo
  /\ classify "notes.txt" = Ignored /\ classify "README" = Ignored.
Proof. repeat split. Qed.

(** ** The functions of [main.py] *)

Section Properties.

Variable sha256_hex : string -> string.
Variable utcoffset : Z -> Z.
Variable strptime_year : string -> option Z.

(** *** What hashing and comparing return *)

Lemma add_events_nil w : add_events [] w = w.
Proof. now destruct w. Qed.

Lemma add_events_app e1 e2 w : add_events e1 (add_events e2 w) = add_events (e1 ++ e2) w.
Proof. unfold add_events; simpl. now rewrite app_assoc. Qed.

Lemma chunk_size_pos : 0 < 8192.
Proof. apply Nat.ltb_lt. vm_compute. reflexivity. Qed.

Lemma calculate_file_hash_eq (p : path) (w : world) :
  calculate_file_hash sha256_hex p w
  = (Return (hash_of sha256_hex (fs w) p), add_events (hash_events (fs w) p) w).
Proof.
  unfold calculate_file_hash, calculate_file_hash_with, hash_of, hash_events,
    try_except, mbind, M_bind, bind, log, stat_fs, print, add_events, mret, M_ret, ret.
  cbn [fs out].
  destruct (open_read (fs w) p) as [content|e]; cbn [of_result ret raise fs out].
  - rewrite read_loop_all; [reflexivity | exact chunk_size_pos | lia].
  - reflexivity.
Qed.

Lemma is_duplicate_eq (a b : path) (w : world) :
  is_duplicate sha256_hex a b w
  = (Return (duplicate_verdict sha256_hex (fs w) a b),
     add_events (duplicate_events (fs w) a b) w).
Proof.
  unfold is_duplicate, duplicate_verdict, duplicate_events, try_except, mbind, M_bind, bind,
    stat_fs.
  destruct (getsize (fs w) a) as [sa|e]; cbn [of_result ret raise].
  2:{ reflexivity. }
  destruct (getsize (fs w) b) as [sb|e]; cbn [of_result ret raise].
  2:{ reflexivity. }
  destruct (sa =? sb); cbn [negb andb].
  2:{ unfold mret, M_ret, ret. now rewrite add_events_nil. }
  rewrite !calculate_file_hash_eq. cbn [fs add_events].
  fold (add_events (hash_events (fs w) a) w).
  rewrite (add_events_app (hash_events (fs w) b)).
  destruct (truthy (hash_of sha256_hex (fs w) a)), (truthy (hash_of sha256_hex (fs w) b));
    reflexivity.
Qed.

(** *** The four ways a relocation ends *)

Lemma finish_move (src target : path) (done : message) (w : world) :
  try_except (move src target;; print done) (fun e => print (MsgMoveError src e)) w
  = (Return tt, after_move w src target done).
Proof.
  unfold try_except, mbind, M_bind, bind, after_move. rewrite move_eq.
  destruct (shutil_move (fs w) src target); reflexivity.
Qed.

Lemma move_file_safe_relocated (src dest dup : path) (count : nat) (w : world) :
  exists w', move_file_safe sha256_hex src dest dup count w = (Return tt, w')
             /\ relocated sha256_hex src dest dup count w w'.
Proof.
  unfold move_file_safe.
  unfold try_except at 1. unfold mbind at 1. unfold M_bind at 1. unfold bind at 1.
  unfold read_fs at 1.
  destruct (exists_ (fs w) dest) eqn:Eex.
  - unfold mbind at 1. unfold M_bind at 1. unfold bind at 1.
    rewrite is_duplicate_eq.
    set (w1 := add_events (duplicate_events (fs w) src dest) w).
    destruct (duplicate_verdict sha256_hex (fs w) src dest) eqn:Ev.
    + (* content duplicate *)
      unfold mbind at 1. unfold M_bind at 1. unfold bind at 1.
      unfold os_makedirs. unfold mbind at 1. unfold M_bind at 1. unfold bind at 1.
      unfold log, update_fs. cbn [fs out].
      destruct (makedirs (fs w1) dup) as [m1|e] eqn:Emk.
      * destruct (splitext (basename src)) as [name ext] eqn:Esp.
        set (w2 := {| fs := m1; out := MadeDirs dup :: out w1 |}).
        destruct (while_exists_numbered dup name ext (join dup (basename src)) w2)
          as [k [Ewh Hk]].
        unfold mbind at 1. unfold M_bind at 1. unfold bind at 1.
        rewrite Ewh.
        pose proof (finish_move src) as Hfin.
        unfold try_except, mbind, M_bind, bind in Hfin.
        unfold mbind, M_bind, bind. rewrite Hfin.
        eexists. split; [reflexivity|].
        assert (duplicate_candidate dup src
                = candidate (fun count => join dup (numbered name ext count))
                    (join dup (basename src))) as Ec.
        { unfold duplicate_candidate. now rewrite Esp. }
        rewrite <- Ec in *.
        apply (relocated_duplicate sha256_hex src dest dup count w w1 m1 k); auto.
        rewrite is_duplicate_eq. now rewrite Ev.
      * eexists. split; [reflexivity|].
        apply (relocated_duplicate_no_folder sha256_hex src dest dup count w w1 e); auto.
        rewrite is_duplicate_eq. now rewrite Ev.
    + (* same name, different content *)
      destruct (splitext (basename dest)) as [name ext] eqn:Esp.
      destruct (while_exists_numbered (dirname dest) name ext dest w1) as [k [Ewh Hk]].
      unfold mbind at 1. unfold M_bind at 1. unfold bind at 1.
      rewrite Ewh.
      pose proof (finish_move src) as Hfin.
      unfold try_except, mbind, M_bind, bind in Hfin.
      unfold mbind, M_bind, bind. rewrite Hfin.
      eexists. split; [reflexivity|].
      assert (conflict_candidate dest
              = candidate (fun count => join (dirname dest) (numbered name ext count)) dest)
        as Ec.
      { unfold conflict_candidate. now rewrite Esp. }
      rewrite <- Ec in *.
      apply (relocated_conflict sha256_hex src dest dup count w w1 k); auto.
      rewrite is_duplicate_eq. now rewrite Ev.
  - pose proof (finish_move src dest (MsgMoved count src dest) w) as Hfin.
    unfold try_except, mbind, M_bind, bind in Hfin.
    unfold mbind, M_bind, bind. rewrite Hfin.
    eexists. split; [reflexivity|]. now apply relocated_clear.
Qed.

(** *** Several files for one destination *)

Lemma differ_irrefl f : ~ differ sha256_hex f f.
Proof. intros [H|H]; congruence. Qed.

Lemma verdict_differ (m : gmap string node) (src dest : path) (f : file) :
  fs_lookup m src = Some (File f) ->
  (forall g, fs_lookup m dest = Some (File g) -> differ sha256_hex f g) ->
  duplicate_verdict sha256_hex m src dest = false.
Proof.
  intros Hsrc Hd. unfold duplicate_verdict, getsize, hash_of, open_read. rewrite Hsrc.
  destruct (fs_lookup m dest) as [[g| |]|] eqn:E; try reflexivity.
  - destruct (Hd g eq_refl) as [Hl|Hh].
    + apply Nat.eqb_neq in Hl. now rewrite Hl.
    + destruct (_ =? _); [|reflexivity]. cbn [andb].
      destruct (f_readable f); [|reflexivity]. destruct (f_readable g); [|apply andb_false_r].
      cbn [hash_eqb]. apply String.eqb_neq in Hh. rewrite Hh. apply andb_false_r.
  - destruct (_ =? _); [|reflexivity]. cbn [andb truthy]. rewrite andb_false_r. reflexivity.
Qed.

Lemma conflict_candidate_facts (dest : path) (k : nat) :
  basename dest <> "" ->
  basename (conflict_candidate dest k) <> ""
  /\ dirname (conflict_candidate dest k) = dirname dest
  /\ (splitext (basename (conflict_candidate dest k))).2 = (splitext (basename dest)).2.
Proof.
  intros Hb. destruct k as [|k]; [easy|]. unfold conflict_candidate, candidate.
  destruct (join_normal (dirname dest)
              (numbered (splitext (basename dest)).1 (splitext (basename dest)).2 (S k)))
    as [Hd Hbn].
  - apply dirname_normal.
  - apply numbered_no_sep, basename_no_sep.
  - apply numbered_nonempty.
  - rewrite Hd, Hbn. split; [apply numbered_nonempty|]. split; [reflexivity|].
    now rewrite splitext_numbered.
Qed.

Lemma exists_File (m : gmap string node) (p : path) (f : file) :
  fs_lookup m p = Some (File f) -> exists_ m p = true.
Proof. unfold exists_. now intros ->. Qed.

(** One relocation of a regular file that is no duplicate of what is at
    the destination. *)
Lemma relocate_step (src dest dup : path) (count : nat) (w : world) (f : file) :
  fs_lookup (fs w) src = Some (File f) ->
  (forall g, fs_lookup (fs w) dest = Some (File g) -> differ sha256_hex f g) ->
  basename dest <> "" ->
  parent_ok (fs w) dest = true ->
  exists k w',
    move_file_safe sha256_hex src dest dup count w = (Return tt, w')
    /\ first_free (fs w) (conflict_candidate dest) k
    /\ fs w' = <[conflict_candidate dest k := File f]> (delete src (fs w)).
Proof.
  intros Hsrc Hdiff Hb Hp.
  pose proof (verdict_differ _ _ _ _ Hsrc Hdiff) as Hv.
  pose proof (fs_lookup_File _ _ _ Hsrc) as Hkey.
  destruct (move_file_safe_relocated src dest dup count w) as [w' [Erun Hrel]].
  assert (Hmove : forall k w0 done,
             fs w0 = fs w -> first_free (fs w) (conflict_candidate dest) k ->
             fs (after_move w0 src (conflict_candidate dest k) done)
             = <[conflict_candidate dest k := File f]> (delete src (fs w))).
  { intros k w0 done Ew [Hfree _]. unfold after_move. rewrite Ew.
    destruct (conflict_candidate_facts dest k Hb) as (Hbk & Hdk & _).
    rewrite (shutil_move_file (fs w) src _ f Hkey Hfree Hbk); [reflexivity|].
    unfold parent_ok in *. now rewrite Hdk. }
  inversion Hrel as [Hex | w1 m1 k Hex Hdup | w1 e Hex Hdup | w1 k Hex Hdup Hfree]; subst.
  - exists 0, (after_move w src dest (MsgMoved count src dest)).
    assert (first_free (fs w) (conflict_candidate dest) 0) as H0.
    { split; [exact Hex | intros j Hj; lia]. }
    split; [exact Erun|]. split; [exact H0|]. now apply (Hmove 0).
  - rewrite is_duplicate_eq, Hv in Hdup. discriminate.
  - rewrite is_duplicate_eq, Hv in Hdup. discriminate.
  - rewrite is_duplicate_eq in Hdup. injection Hdup as _ <-.
    exists k. eexists. split; [exact Erun|]. split; [exact Hfree|].
    now apply Hmove.
Qed.

Lemma relocate_all_distinct (srcs : list path) (dest dup : path) (count : nat) (w : world) :
  NoDup srcs ->
  (forall src, src ∈ srcs -> exists f, fs_lookup (fs w) src = Some (File f)) ->
  (forall s1 s2 f1 f2, s1 ∈ srcs -> s2 ∈ srcs -> s1 <> s2 ->
     fs_lookup (fs w) s1 = Some (File f1) -> fs_lookup (fs w) s2 = Some (File f2) ->
     differ sha256_hex f1 f2) ->
  (forall src f g, src ∈ srcs -> fs_lookup (fs w) src = Some (File f) ->
     fs_lookup (fs w) dest = Some (File g) -> differ sha256_hex f g) ->
  basename dest <> "" ->
  parent_ok (fs w) dest = true ->
  exists targets w',
    relocate_all sha256_hex srcs dest dup count w = (Return (count + length srcs), w')
    /\ placed dest w srcs targets w'
    /\ NoDup targets
    /\ length targets = length srcs
    /\ (forall i src target, srcs !! i = Some src -> targets !! i = Some target ->
          exists f, fs w !! src = Some (File f) /\ fs w' !! target = Some (File f))
    /\ Forall (fun target =>
                 dirname target = dirname dest
                 /\ (splitext (basename target)).2 = (splitext (basename dest)).2) targets
    /\ (forall p, exists_ (fs w) p = true -> p ∉ srcs -> p ∉ targets)
    /\ (forall p n, fs w !! p = Some n -> n <> BrokenLink -> p ∉ srcs -> fs w' !! p = Some n).
Proof.
  revert w count.
  induction srcs as [|src rest IH]; intros w count Hnd Hfile Hpair Hdest Hb Hp.
  - exists [], w. cbn [length]. rewrite Nat.add_0_r.
    repeat split; try constructor; auto; try discriminate;
      try (intros p _ _ H; inversion H).
  - apply NoDup_cons in Hnd as [Hnotin Hnd].
    destruct (Hfile src) as [f Hf]; [left|].
    destruct (relocate_step src dest dup (count + 1) w f Hf)
      as (k & w1 & Erun & Hfree & Efs); auto.
    { intros g Hg. eapply Hdest; eauto. left. }
    set (t := conflict_candidate dest k) in *.
    assert (Hfree0 : exists_ (fs w) t = false) by apply Hfree.
    destruct (conflict_candidate_facts dest k Hb) as (Hbt & Hdt & Hext). fold t in Hbt, Hdt, Hext.
    destruct (basename_proper t Hbt) as [Ht1 Ht2].
    assert (Hsame : forall p, exists_ (fs w) p = true -> p <> src ->
                             fs_lookup (fs w1) p = fs_lookup (fs w) p).
    { intros p Hex Hps. rewrite Efs. apply fs_lookup_moved; [exact Hps|].
      intros ->. congruence. }
    assert (Hrest : forall s, s ∈ rest -> s <> src) by (intros s Hs ->; contradiction).
    assert (Hrestf : forall s, s ∈ rest -> fs_lookup (fs w1) s = fs_lookup (fs w) s).
    { intros s Hs. destruct (Hfile s) as [fs' Hfs]; [now right|].
      apply Hsame; [eapply exists_File; eauto | auto]. }
    assert (Ht : fs w1 !! t = Some (File f)) by (rewrite Efs; apply lookup_insert_eq).
    assert (Htl : fs_lookup (fs w1) t = Some (File f)).
    { now rewrite (fs_lookup_key _ _ Ht1 Ht2). }
    assert (Htrest : t ∉ rest).
    { intros Hin. destruct (Hfile t) as [ft Hft]; [now right|].
      apply exists_File in Hft. congruence. }
    destruct (IH w1 (count + 1))
      as (targets & w' & Eall & Hplaced & Hnd' & Hlen & Hpos & Hexts & Havoid & Hkeep).
    + exact Hnd.
    + intros s Hs. rewrite (Hrestf s Hs). apply Hfile. now right.
    + intros s1 s2 f1 f2 H1 H2 Hne. rewrite (Hrestf s1 H1), (Hrestf s2 H2).
      apply Hpair; auto; now right.
    + intros s fs' g Hs. rewrite (Hrestf s Hs). intros Hfs Hg.
      destruct (decide (dest = t)) as [Edt|Edt].
      * rewrite Edt, Htl in Hg. injection Hg as <-.
        apply (Hpair s src fs' f); auto; [now right | left].
      * assert (dest <> src) as Hds.
        { intros ->. rewrite Efs in Hg. apply fs_lookup_File in Hg.
          rewrite lookup_insert_ne, lookup_delete_eq in Hg by congruence. discriminate. }
        rewrite Efs, fs_lookup_moved in Hg by congruence.
        eapply Hdest; eauto. now right.
    + exact Hb.
    + unfold parent_ok in *. apply orb_prop in Hp as [Hp|Hp]; [now rewrite Hp|].
      assert (fs_lookup (fs w1) (dirname dest) = fs_lookup (fs w) (dirname dest)) as E.
      { unfold isdir in Hp. apply Hsame.
        - unfold exists_. destruct (fs_lookup (fs w) (dirname dest)) as [[]|]; congruence.
        - intros E. rewrite E, Hf in Hp. discriminate. }
      unfold isdir. rewrite E. fold (isdir (fs w) (dirname dest)). rewrite Hp. apply orb_true_r.
    + exists (t :: targets), w'. repeat split.
      * assert ((move_file_safe sha256_hex src dest dup (count + 1);; mret (count + 1)) w
                = (Return (count + 1), w1)) as Ebody.
        { unfold mbind, M_bind, bind. now rewrite Erun. }
        unfold relocate_all in *. cbn [for_each]. cbv zeta in *.
        unfold mbind at 1. unfold M_bind at 1. unfold bind at 1.
        rewrite Ebody, Eall. cbn [length]. do 2 f_equal. lia.
      * eapply placed_cons; eauto. now apply fs_lookup_File.
      * apply NoDup_cons. split; [|exact Hnd'].
        apply Havoid; [eapply exists_File; eauto | exact Htrest].
      * cbn [length]. now rewrite Hlen.
      * intros [|i] s tg; cbn [lookup list_lookup]; intros Hs Htg.
        -- injection Hs as <-. injection Htg as <-. exists f.
           split; [now apply fs_lookup_File|].
           apply Hkeep; [exact Ht | discriminate | exact Htrest].
        -- destruct (Hpos i s tg Hs Htg) as (fs' & Hs1 & Hs2). exists fs'. split; [|exact Hs2].
           assert (s ∈ rest) as Hin by (eapply list_elem_of_lookup_2; eauto).
           assert (src <> s) by (intros ->; contradiction).
           assert (t <> s) by (intros <-; contradiction).
           now rewrite Efs, lookup_insert_ne, lookup_delete_ne in Hs1.
      * constructor; [|exact Hexts]. split; assumption.
      * intros p Hex Hps. apply not_elem_of_cons in Hps as [Hps Hpr].
        apply not_elem_of_cons. split.
        -- intros ->. congruence.
        -- apply Havoid; [|exact Hpr]. unfold exists_. rewrite (Hsame p Hex Hps). exact Hex.
      * intros p n Hn Hnb Hps. apply not_elem_of_cons in Hps as [Hps Hpr].
        apply Hkeep; [|exact Hnb|exact Hpr].
        assert (t <> p) as Htp.
        { intros E. rewrite <- E in Hn. unfold exists_ in Hfree0.
          rewrite (fs_lookup_key _ _ Ht1 Ht2), Hn in Hfree0.
          destruct n; congruence. }
        rewrite Efs, lookup_insert_ne, lookup_delete_ne; auto.
Qed.

(** *** A source folder that is not there *)

(** C9.  When [source_folder] is not an existing directory, the run returns
    after printing the initial counts and the message that the source does
    not exist: the file system is as it was, and the trace gains these two
    lines only, so nothing was moved and no directory was made.  The count
    of the source is 0.  [fuel] has to exceed the longest path of the file
    system for the counting walks to finish. *)
Theorem missing_source_aborts (fuel : nat)
    (source_folder photo_dest_folder video_dest_folder duplicate_root : string) (w : world) :
  isdir (fs w) source_folder = false ->
  max_key_len (fs w) < fuel ->
  exists photos videos duplicates,
    copy_media_sorted_by_year sha256_hex utcoffset strptime_year fuel
      source_folder photo_dest_folder video_dest_folder duplicate_root w
    = (Return tt,
       {| fs := fs w;
          out := Printed (MsgSourceMissing source_folder)
                 :: Printed (MsgInitialCounts 0 photos videos duplicates) :: out w |}).
Proof.
  intros Hd Hf.
  destruct (count_files_total fuel photo_dest_folder w Hf) as [c2 E2].
  destruct (count_files_total fuel video_dest_folder w Hf) as [c3 E3].
  destruct (count_files_total fuel duplicate_root w Hf) as [c4 E4].
  exists c2, c3, c4. unfold copy_media_sorted_by_year, mbind, M_bind, bind.
  rewrite (count_files_missing fuel source_folder w) by (auto; lia).
  rewrite E2, E3, E4. unfold print, log, read_fs. cbn [fs out]. now rewrite Hd.
Qed.

(** *** The duplicate comparison *)

Lemma hash_eqb_sym (h1 h2 : option string) : hash_eqb h1 h2 = hash_eqb h2 h1.
Proof. destruct h1, h2; simpl; auto using String.eqb_sym. Qed.

Lemma duplicate_verdict_sym (m : gmap string node) (a b : string) :
  duplicate_verdict sha256_hex m a b = duplicate_verdict sha256_hex m b a.
Proof.
  unfold duplicate_verdict. destruct (getsize m a) as [sa|], (getsize m b) as [sb|];
    try reflexivity.
  rewrite (Nat.eqb_sym sa sb), (hash_eqb_sym (hash_of sha256_hex m a)).
  destruct (sb =? sa), (truthy (hash_of sha256_hex m a)), (truthy (hash_of sha256_hex m b));
    reflexivity.
Qed.

Lemma is_duplicate_value (a b : string) (w : world) :
  fst (is_duplicate sha256_hex a b w) = Return (duplicate_verdict sha256_hex (fs w) a b).
Proof. now rewrite is_duplicate_eq. Qed.

Lemma hash_of_Err (m : gmap string node) (p : string) (e : exn) :
  open_read m p = Err e -> truthy (hash_of sha256_hex m p) = false.
Proof. unfold hash_of. now intros ->. Qed.

Lemma verdict_hash_failure (m : gmap string node) (a b : string) :
  (exists e, open_read m a = Err e) \/ (exists e, open_read m b = Err e) ->
  duplicate_verdict sha256_hex m a b = false.
Proof.
  intros H. unfold duplicate_verdict.
  destruct (getsize m a) as [sa|], (getsize m b) as [sb|]; try reflexivity.
  destruct H as [[e H]|[e H]]; rewrite (hash_of_Err _ _ _ H).
  - now rewrite andb_false_r.
  - now rewrite !andb_false_r.
Qed.

Lemma verdict_stat_failure (m : gmap string node) (a b : string) :
  (exists e, getsize m a = Err e) \/ (exists e, getsize m b = Err e) ->
  duplicate_verdict sha256_hex m a b = false.
Proof.
  unfold duplicate_verdict. intros [[e ->]|[e ->]]; [reflexivity|].
  now destruct (getsize m a).
Qed.

(** C3.  Two existing, readable files of equal size and equal SHA-256 digest
    are duplicates: [is_duplicate] returns true.  Two paths whose sizes differ
    are not: [is_duplicate] returns false and leaves the world as it was, so
    that no file was opened (an [Opened] event would show in the trace);
    this holds whether or not the files can be read. *)
Theorem is_duplicate_size_then_digest (w : world) (file1 file2 : string) :
  (forall d, sha256_hex d <> "") ->
  (forall f1 f2,
      fs_lookup (fs w) file1 = Some (File f1) ->
      fs_lookup (fs w) file2 = Some (File f2) ->
      f_readable f1 = true -> f_readable f2 = true ->
      String.length (f_data f1) = String.length (f_data f2) ->
      sha256_hex (f_data f1) = sha256_hex (f_data f2) ->
      fst (is_duplicate sha256_hex file1 file2 w) = Return true)
  /\ (forall size1 size2,
         getsize (fs w) file1 = Ok size1 ->
         getsize (fs w) file2 = Ok size2 ->
         size1 <> size2 ->
         is_duplicate sha256_hex file1 file2 w = (Return false, w)).
Proof.
  intros Hne. split.
  - intros f1 f2 H1 H2 R1 R2 Hlen Hsha. rewrite is_duplicate_value. f_equal.
    unfold duplicate_verdict, getsize, hash_of, open_read. rewrite H1, H2, R1, R2.
    rewrite Hlen, Nat.eqb_refl, Hsha. cbn [truthy hash_eqb andb].
    rewrite String.eqb_refl, andb_true_r.
    specialize (Hne (f_data f2)). apply String.eqb_neq in Hne. now rewrite Hne.
  - intros s1 s2 H1 H2 Hs. rewrite is_duplicate_eq.
    unfold duplicate_verdict, duplicate_events. rewrite H1, H2.
    apply Nat.eqb_neq in Hs. rewrite Hs. cbn [andb]. now rewrite add_events_nil.
Qed.

(** C7.  If reading either file fails while it is hashed, [is_duplicate]
    returns false: a hash that could not be computed never counts as a match. *)
Theorem hash_failure_is_not_duplicate (w : world) (file1 file2 : string) :
  (exists e, open_read (fs w) file1 = Err e) \/ (exists e, open_read (fs w) file2 = Err e) ->
  fst (is_duplicate sha256_hex file1 file2 w) = Return false.
Proof. intros H. rewrite is_duplicate_value. f_equal. now apply verdict_hash_failure. Qed.

(** C10.  [is_duplicate] gives the same answer for both orders of its
    arguments; when the size or the content of either file cannot be read,
    that answer is false for both orders. *)
Theorem is_duplicate_symmetric (w : world) (a b : string) :
  fst (is_duplicate sha256_hex a b w) = fst (is_duplicate sha256_hex b a w)
  /\ ((exists e, getsize (fs w) a = Err e) \/ (exists e, getsize (fs w) b = Err e)
      \/ (exists e, open_read (fs w) a = Err e) \/ (exists e, open_read (fs w) b = Err e) ->
      fst (is_duplicate sha256_hex a b w) = Return false
      /\ fst (is_duplicate sha256_hex b a w) = Return false).
Proof.
  rewrite !is_duplicate_value. split; [f_equal; apply duplicate_verdict_sym|].
  intros H. rewrite <- (duplicate_verdict_sym (fs w) a b).
  assert (duplicate_verdict sha256_hex (fs w) a b = false) as ->; [|now split].
  destruct H as [H|[H|[H|H]]];
    [apply verdict_stat_failure | apply verdict_stat_failure
     | apply verdict_hash_failure | apply verdict_hash_failure]; auto.
Qed.

(** *** Year resolution *)

Lemma fallback_year_eq (p : string) (w : world) :
  fallback_year utcoffset p w
  = (match getmtime (fs w) p with
     | Ok t => match fromtimestamp_year utcoffset t with
               | Ok y => Return y
               | Err e => Raise e
               end
     | Err e => Raise e
     end, w).
Proof.
  unfold fallback_year, mbind, M_bind, bind, stat_fs.
  destruct (getmtime (fs w) p) as [t|e]; cbn [of_result ret raise]; [|reflexivity].
  destruct (fromtimestamp_year utcoffset t); reflexivity.
Qed.

Lemma fallback_year_returns (p : string) (w : world) (t y : Z) :
  getmtime (fs w) p = Ok t -> fromtimestamp_year utcoffset t = Ok y ->
  fallback_year utcoffset p w = (Return y, w).
Proof. intros Ht Hy. now rewrite fallback_year_eq, Ht, Hy. Qed.

(** [createParser] returns or raises in the world it was called in; it
    raises on an empty file, on an unreadable one and on what is no file. *)
Lemma createParser_cases (p : string) (w : world) :
  (exists probe f,
      createParser p w = (Return probe, w)
      /\ fs_lookup (fs w) p = Some (File f) /\ f_readable f = true
      /\ f_data f <> "" /\ f_video f = probe)
  \/ (exists e, createParser p w = (Raise e, w)).
Proof.
  unfold createParser. destruct (fs_lookup (fs w) p) as [[f| |]|]; try (right; now eexists).
  destruct (f_readable f) eqn:Er; [|right; now eexists].
  destruct (String.eqb_spec (f_data f) "") as [E|E]; [right; now eexists|].
  left. exists (f_video f), f. auto.
Qed.

Lemma createParser_raises (p : string) (w : world) (e : exn) :
  createParser p w = (Raise e, w) -> get_video_year utcoffset p w = (Raise e, w).
Proof. intros H. unfold get_video_year, mbind, M_bind, bind. now rewrite H. Qed.

Lemma createParser_empty (p : string) (w : world) (f : file) :
  fs_lookup (fs w) p = Some (File f) -> f_readable f = true -> f_data f = "" ->
  createParser p w = (Raise (NullStreamError p), w).
Proof. intros Hf Hr Hd. unfold createParser. now rewrite Hf, Hr, Hd. Qed.

Lemma createParser_unreadable (p : string) (w : world) (f : file) :
  fs_lookup (fs w) p = Some (File f) -> f_readable f = false ->
  createParser p w = (Raise (InputStreamError p), w).
Proof. intros Hf Hr. unfold createParser. now rewrite Hf, Hr. Qed.

Lemma createParser_no_file (p : string) (w : world) :
  (forall f, fs_lookup (fs w) p <> Some (File f)) ->
  createParser p w = (Raise (InputStreamError p), w).
Proof.
  intros H. unfold createParser.
  destruct (fs_lookup (fs w) p) as [[f| |]|]; try reflexivity. now destruct (H f).
Qed.

(** With a parser or with none, and no creation date to be had,
    [get_video_year] is [fallback_year], after the parser was closed. *)
Lemma get_video_year_no_date (p : string) (w : world) (probe : video_probe) :
  createParser p w = (Return probe, w) ->
  creation_year (fs w) p = None ->
  (get_video_year utcoffset p w).1 = (fallback_year utcoffset p w).1
  /\ fs (get_video_year utcoffset p w).2 = fs w.
Proof.
  intros Hc Hy. unfold get_video_year, mbind, M_bind, bind. rewrite Hc.
  destruct (createParser_cases p w) as [(probe' & f & Hc' & Hf & Hr & Hd & Hv)|[e He]];
    [|congruence].
  rewrite Hc in Hc'. injection Hc' as <-.
  unfold creation_year in Hy. rewrite Hf, Hr in Hy.
  apply String.eqb_neq in Hd. rewrite Hd, Hv in Hy. cbn [negb] in Hy.
  destruct probe as [|[| | |y]]; try discriminate;
    cbn [extract_creation_year try_finally try_except raise mret M_ret ret log fst snd fs out];
    rewrite !fallback_year_eq; cbn [fst snd fs]; split; reflexivity.
Qed.

(** C6, where the code departs from it.  [createParser] is called before
    the [try] of [get_video_year], and it raises when it cannot open the
    file: [NullStreamError] on a file of no bytes, [InputStreamError] on a
    file that cannot be read.  [get_video_year] then raises too.  The
    fallback is not reached, although the modification time can be read:
    the empty video of the sample, last modified on 2021-06-01, does not
    resolve to 2021.  In the other cases that the claim names the code does
    fall back: when [createParser] returns no parser, when extraction
    raises, when there is no metadata and when the metadata has no creation
    date, [get_video_year] returns what [fallback_year] returns. *)
Theorem video_year_parser_failure_is_not_caught :
  get_video_year sample_utcoffset "/src/empty.mp4" empty_video_world
  = (Raise (NullStreamError "/src/empty.mp4"), empty_video_world)
  /\ fallback_year sample_utcoffset "/src/empty.mp4" empty_video_world
     = (Return 2021%Z, empty_video_world)
  /\ (forall p w e,
        createParser p w = (Raise e, w) -> get_video_year utcoffset p w = (Raise e, w))
  /\ (forall p w f,
        fs_lookup (fs w) p = Some (File f) -> f_readable f = true -> f_data f = "" ->
        createParser p w = (Raise (NullStreamError p), w))
  /\ (forall p w f,
        fs_lookup (fs w) p = Some (File f) -> f_readable f = false ->
        createParser p w = (Raise (InputStreamError p), w))
  /\ (forall p w probe,
        createParser p w = (Return probe, w) -> creation_year (fs w) p = None ->
        (get_video_year utcoffset p w).1 = (fallback_year utcoffset p w).1
        /\ fs (get_video_year utcoffset p w).2 = fs w).
Proof.
  split; [vm_compute; reflexivity|]. split; [vm_compute; reflexivity|].
  split; [exact createParser_raises|]. split; [exact createParser_empty|].
  split; [exact createParser_unreadable | exact get_video_year_no_date].
Qed.

Lemma exif_loop_cases (items : list (nat * string)) (w : world) :
  (exists o, exif_loop strptime_year items w = (Return o, w))
  \/ exif_loop strptime_year items w = (Raise ValueError, w).
Proof.
  induction items as [|[tag_id value] items IH]; cbn [exif_loop]; [left; now eexists|].
  destruct (is_DateTimeOriginal tag_id); [|exact IH].
  destruct (strptime_year value); [left; now eexists | now right].
Qed.

Lemma get_image_year_cases (p : string) (w : world) :
  (exists y, get_image_year utcoffset strptime_year p w = (Return y, w))
  \/ get_image_year utcoffset strptime_year p w = fallback_year utcoffset p w.
Proof.
  unfold get_image_year, mbind, M_bind, bind, try_except, image_getexif.
  destruct (fs_lookup (fs w) p) as [[f| |]|]; try (right; reflexivity).
  destruct (f_readable f); [|right; reflexivity].
  destruct (f_exif f) as [|[[|item items]|]]; try (right; reflexivity).
  destruct (exif_loop_cases (item :: items) w) as [[[y|] ->]| ->].
  - left. now eexists.
  - now right.
  - now right.
Qed.






(** *** One relocation *)

Lemma is_duplicate_fs (a b : string) (w w1 : world) (v : bool) :
  is_duplicate sha256_hex a b w = (Return v, w1) ->
  fs w1 = fs w /\ exists evs, out w1 = evs ++ out w /\ moves_in evs = [].
Proof.
  rewrite is_duplicate_eq. intros [= _ <-]. split; [reflexivity|].
  exists (duplicate_events (fs w) a b). split; [reflexivity|].
  unfold duplicate_events, hash_events.
  destruct (getsize (fs w) a), (getsize (fs w) b); try reflexivity.
  destruct (_ =? _); [|reflexivity].
  destruct (open_read (fs w) a), (open_read (fs w) b); reflexivity.
Qed.

Lemma moves_in_app (a b : list event) : moves_in (a ++ b) = moves_in a ++ moves_in b.
Proof. apply omap_app. Qed.

Lemma moves_in_MadeDirs (p : string) (l : list event) : moves_in (MadeDirs p :: l) = moves_in l.
Proof. reflexivity. Qed.

Lemma after_move_cases (w0 : world) (src target : string) (done : message) :
  (forall e, done <> MsgMoveError src e) ->
  exists evs,
    out (after_move w0 src target done) = evs ++ out w0
    /\ moves_in evs = [(src, target)]
    /\ match shutil_move (fs w0) src target with
       | Ok m =>
           fs (after_move w0 src target done) = m
           /\ forall e, head evs <> Some (Printed (MsgMoveError src e))
       | Err e =>
           fs (after_move w0 src target done) = fs w0
           /\ head evs = Some (Printed (MsgMoveError src e))
       end.
Proof.
  intros Hdone. unfold after_move.
  destruct (shutil_move (fs w0) src target) as [m|e]; cbn [fs out].
  - exists [Printed done; MoveTried src target]. repeat split. intros e [= E].
    now apply (Hdone e).
  - exists [Printed (MsgMoveError src e); MoveTried src target]. repeat split.
Qed.

Lemma move_file_safe_outcomes (src dest dup : string) (count : nat) (w : world) :
  exists w' evs m0,
    move_file_safe sha256_hex src dest dup count w = (Return tt, w')
    /\ out w' = evs ++ out w
    /\ dirs_added (fs w) m0
    /\ ((moves_in evs = [] /\ fs w' = m0
         /\ exists e, head evs = Some (Printed (MsgMoveError src e)))
        \/ exists target,
             moves_in evs = [(src, target)]
             /\ match shutil_move m0 src target with
                | Ok m => fs w' = m /\ forall e, head evs <> Some (Printed (MsgMoveError src e))
                | Err e => fs w' = m0 /\ head evs = Some (Printed (MsgMoveError src e))
                end).
Proof.
  destruct (move_file_safe_relocated src dest dup count w) as [w' [Erun Hrel]].
  exists w'.
  inversion Hrel as [Hex | w1 m1 k Hex Hdup Hmk Hfree | w1 e Hex Hdup Hmk | w1 k Hex Hdup Hfree];
    subst; clear Hrel.
  - destruct (after_move_cases w src dest (MsgMoved count src dest)) as (evs & Ho & Hm & Hc);
      [discriminate|].
    exists evs, (fs w). repeat split; auto using dirs_added_refl. right. now exists dest.
  - destruct (is_duplicate_fs _ _ _ _ _ Hdup) as (Efs & evs1 & Eo & Em).
    set (w2 := {| fs := m1; out := MadeDirs dup :: out w1 |}).
    destruct (after_move_cases w2 src (duplicate_candidate dup src k)
                (MsgFullDuplicate src (duplicate_candidate dup src k)))
      as (evs & Ho & Hm & Hc); [discriminate|].
    exists (evs ++ MadeDirs dup :: evs1), m1. split; [exact Erun|]. split.
    { rewrite Ho. cbn [out w2]. rewrite Eo. now rewrite <- app_assoc. }
    split. { rewrite <- Efs. eapply makedirs_dirs_added; eauto. }
    right. exists (duplicate_candidate dup src k). split.
    { now rewrite moves_in_app, Hm, moves_in_MadeDirs, Em. }
    cbn [fs w2] in Hc. destruct (shutil_move m1 src _); destruct Hc as [H1 H2]; split; auto.
    + intros e. specialize (H2 e). destruct evs; [discriminate Hm | exact H2].
    + destruct evs; [discriminate Hm | exact H2].
  - destruct (is_duplicate_fs _ _ _ _ _ Hdup) as (Efs & evs1 & Eo & Em).
    exists (Printed (MsgMoveError src e) :: MadeDirs dup :: evs1), (fs w).
    split; [exact Erun|]. split; [cbn [out]; now rewrite Eo|].
    split; [apply dirs_added_refl|]. left. cbn [fs]. repeat split; eauto.
  - destruct (is_duplicate_fs _ _ _ _ _ Hdup) as (Efs & evs1 & Eo & Em).
    destruct (after_move_cases w1 src (conflict_candidate dest k)
                (MsgNameConflict src (conflict_candidate dest k)))
      as (evs & Ho & Hm & Hc); [discriminate|].
    exists (evs ++ evs1), (fs w). split; [exact Erun|]. split.
    { rewrite Ho, Eo. now rewrite <- app_assoc. }
    split; [apply dirs_added_refl|].
    right. exists (conflict_candidate dest k). split.
    { now rewrite moves_in_app, Hm, Em. }
    rewrite Efs in Hc. destruct (shutil_move (fs w) src _); destruct Hc as [H1 H2]; split; auto.
    + intros e. specialize (H2 e). destruct evs; [discriminate Hm | exact H2].
    + destruct evs; [discriminate Hm | exact H2].
Qed.

Lemma dirs_added_keeps (m m1 : gmap string node) (k : string) (n : node) :
  dirs_added m m1 -> m !! k = Some n -> m1 !! k = Some n.
Proof. intros H Hk. destruct (H k) as [E|[E _]]; congruence. Qed.

(** C8.  [move_file_safe] always returns to its caller.  It calls
    [shutil.move] at most once.  When that call fails, the error is printed
    and the file system is as it was before the call: the original one with,
    in the duplicate case, the directories [os.makedirs] added; so the
    source is still in its place.  [m0] below is the file system just
    before the move. *)
Theorem move_failure_is_contained (src dest dup : string) (count : nat) (w : world) :
  exists w' evs m0,
    move_file_safe sha256_hex src dest dup count w = (Return tt, w')
    /\ out w' = evs ++ out w
    /\ dirs_added (fs w) m0
    /\ ((moves_in evs = [] /\ fs w' = m0
         /\ exists e, head evs = Some (Printed (MsgMoveError src e)))
        \/ exists target,
             moves_in evs = [(src, target)]
             /\ match shutil_move m0 src target with
                | Ok m =>
                    fs w' = m
                    /\ forall e, head evs <> Some (Printed (MsgMoveError src e))
                | Err e =>
                    fs w' = m0
                    /\ head evs = Some (Printed (MsgMoveError src e))
                    /\ forall n, fs w !! src = Some n -> fs w' !! src = Some n
                end).
Proof.
  destruct (move_file_safe_outcomes src dest dup count w)
    as (w' & evs & m0 & Erun & Ho & Hd & Hcase).
  exists w', evs, m0. split; [exact Erun|]. split; [exact Ho|]. split; [exact Hd|].
  destruct Hcase as [Hnone | [target [Hm Hc]]]; [now left|].
  right. exists target. split; [exact Hm|].
  destruct (shutil_move m0 src target) as [m|e]; [exact Hc|].
  destruct Hc as [Efs Hhead]. split; [exact Efs|]. split; [exact Hhead|].
  intros n Hn. rewrite Efs. eapply dirs_added_keeps; eauto.
Qed.

(** C1.  The three ways of [move_file_safe src dest dup].
    - [dest] does not exist: [src] is moved to [dest].
    - [dest] exists and [is_duplicate src dest]: [os.makedirs(dup,
      exist_ok=True)] runs, which only adds directories and leaves [dup] a
      directory; [src] is then moved to the first free name among
      [dup/basename(src)], [dup/name_1ext], [dup/name_2ext], ..., where
      [name, ext] is [splitext(basename(src))].
    - [dest] exists and is no duplicate: [src] is moved to the first free
      name among [dirname(dest)/name_1ext], [dirname(dest)/name_2ext], ...,
      where [name, ext] is [splitext(basename(dest))], the name [src] has too
      when the two files have the same name.
    In each case the move is the one call of [shutil.move] that [after_move]
    describes. *)
Theorem relocate_three_ways (src dest dup : string) (count : nat) (w : world) :
  exists w',
    move_file_safe sha256_hex src dest dup count w = (Return tt, w')
    /\ (exists_ (fs w) dest = false ->
        w' = after_move w src dest (MsgMoved count src dest))
    /\ (exists_ (fs w) dest = true ->
        fst (is_duplicate sha256_hex src dest w) = Return true ->
        forall m1,
          makedirs (fs w) dup = Ok m1 ->
          dirs_added (fs w) m1
          /\ (basename dup <> "" -> basename dup <> "." -> isdir m1 dup = true)
          /\ exists k,
               first_free m1 (duplicate_candidate dup src) k
               /\ w' = after_move
                         {| fs := m1;
                            out := MadeDirs dup
                                   :: out (snd (is_duplicate sha256_hex src dest w)) |}
                         src (duplicate_candidate dup src k)
                         (MsgFullDuplicate src (duplicate_candidate dup src k)))
    /\ (exists_ (fs w) dest = true ->
        fst (is_duplicate sha256_hex src dest w) = Return false ->
        exists k,
          0 < k
          /\ first_free (fs w) (conflict_candidate dest) k
          /\ w' = after_move (snd (is_duplicate sha256_hex src dest w)) src
                    (conflict_candidate dest k)
                    (MsgNameConflict src (conflict_candidate dest k))).
Proof.
  destruct (move_file_safe_relocated src dest dup count w) as [w' [Erun Hrel]].
  exists w'. split; [exact Erun|].
  inversion Hrel as [Hex | w1 m1 k Hex Hdup Hmk Hfree | w1 e Hex Hdup Hmk | w1 k Hex Hdup Hfree];
    subst; clear Hrel.
  - repeat split; congruence.
  - destruct (is_duplicate_fs _ _ _ _ _ Hdup) as (Efs & _).
    split; [congruence|]. split.
    + intros _ _ m1' Hm1'. rewrite Efs in Hmk. rewrite Hmk in Hm1'. injection Hm1' as <-.
      split; [eapply makedirs_dirs_added; eauto|]. split.
      { intros Hb Hd. now apply (makedirs_isdir (fs w)). }
      exists k. split; [exact Hfree|]. now rewrite Hdup.
    + rewrite Hdup. discriminate.
  - destruct (is_duplicate_fs _ _ _ _ _ Hdup) as (Efs & _).
    split; [congruence|]. split.
    + intros _ _ m1' Hm1'. rewrite Efs in Hmk. congruence.
    + rewrite Hdup. discriminate.
  - destruct (is_duplicate_fs _ _ _ _ _ Hdup) as (Efs & _).
    split; [congruence|]. split.
    + rewrite Hdup. discriminate.
    + intros _ _. exists k. rewrite Hdup. cbn [snd]. rewrite <- Efs.
      split; [|split; [exact Hfree | reflexivity]].
      destruct k; [|lia]. destruct Hfree as [Hfree _]. cbn in Hfree. congruence.
Qed.

(** C5.  [N] regular files with the same basename, no two of them duplicates
    of each other and none a duplicate of what is at [dest], are relocated
    one after the other to the same destination path [dest], whose folder
    exists.  Every call returns; the file of each source ends up in the
    folder of [dest] under its own name, and these [N] names are distinct and
    keep the extension of the source.  Each name is [dest] itself or
    [name_kext] for the least [k >= 1] that was free at the time of the move
    ([placed]), so a name once given is not given again.  Every file and
    directory that was there before, other than the sources, is still there
    unchanged. *)
Theorem same_name_files_get_distinct_names (srcs : list string) (dest dup : string)
    (count : nat) (w : world) :
  NoDup srcs ->
  (forall src, src ∈ srcs ->
     basename src = basename dest /\ exists f, fs_lookup (fs w) src = Some (File f)) ->
  (forall s1 s2 f1 f2, s1 ∈ srcs -> s2 ∈ srcs -> s1 <> s2 ->
     fs_lookup (fs w) s1 = Some (File f1) -> fs_lookup (fs w) s2 = Some (File f2) ->
     differ sha256_hex f1 f2) ->
  (forall src f g, src ∈ srcs -> fs_lookup (fs w) src = Some (File f) ->
     fs_lookup (fs w) dest = Some (File g) -> differ sha256_hex f g) ->
  basename dest <> "" ->
  parent_ok (fs w) dest = true ->
  exists targets w',
    relocate_all sha256_hex srcs dest dup count w = (Return (count + length srcs), w')
    /\ placed dest w srcs targets w'
    /\ NoDup targets
    /\ length targets = length srcs
    /\ (forall i src target, srcs !! i = Some src -> targets !! i = Some target ->
          dirname target = dirname dest
          /\ (splitext (basename target)).2 = (splitext (basename src)).2
          /\ exists f, fs w !! src = Some (File f) /\ fs w' !! target = Some (File f))
    /\ (forall p n, fs w !! p = Some n -> n <> BrokenLink -> p ∉ srcs -> fs w' !! p = Some n).
Proof.
  intros Hnd Hsrc Hpair Hdest Hb Hp.
  destruct (relocate_all_distinct srcs dest dup count w)
    as (targets & w' & Erun & Hplaced & Hnd' & Hlen & Hpos & Hexts & _ & Hkeep); auto.
  { intros src Hin. now apply Hsrc. }
  exists targets, w'. repeat split; auto.
  - eapply Forall_lookup_1 in Hexts; [|eassumption]. apply Hexts.
  - eapply Forall_lookup_1 in Hexts; [|eassumption]. destruct Hexts as [_ ->].
    destruct (Hsrc src) as [-> _]; [|reflexivity]. eapply list_elem_of_lookup_2; eauto.
  - eapply Hpos; eauto.
Qed.

(** *** Files that are passed over *)

Lemma sort_file_ignored (photo_dest_folder video_dest_folder duplicate_root root file : string)
    (count : nat) (w : world) :
  classify file = Ignored ->
  sort_file sha256_hex utcoffset strptime_year photo_dest_folder video_dest_folder
    duplicate_root root file count w = (Return count, w).
Proof. intros H. unfold sort_file. now rewrite H. Qed.

End Properties.

(* ================================================================== *)
(** * Further properties

    What the functions of [main.py] do beyond the statements above: the
    remaining cases of hashing, comparing and year resolution, what a
    relocation leaves alone, the loop body and a run as a whole, the
    census, and more on classification. *)

(** ** More on strings and paths *)





Lemma endswith_contains (c : ascii) (s : string) :
  endswith s (String c "") = true -> contains c s = true.
Proof.
  intros [a ->]%endswith_char_snoc. rewrite contains_app. cbn [contains].
  rewrite Ascii.eqb_refl. apply orb_true_r.
Qed.

Lemma endswith_app_nosep (a b : string) :
  b <> "" -> contains sep b = false -> endswith (a +:+ b) (String sep "") = false.
Proof.
  intros Hne Hb. induction a as [|x a IH]; sapp.
  - destruct (endswith b (String sep "")) eqn:E; [|reflexivity].
    apply endswith_contains in E. congruence.
  - rewrite endswith_char_cons, IH, orb_false_r.
    destruct (a +:+ b) eqn:E; [|now rewrite andb_false_r].
    destruct a; sapp; [congruence | discriminate].
Qed.

Lemma join_slashed (top b : string) :
  contains sep b = false -> join top b = slashed top +:+ b.
Proof.
  intros Hb. unfold join, slashed. rewrite (startswith_no_sep b Hb).
  destruct (_ || _); [reflexivity|]. now rewrite app_assoc_s.
Qed.

Lemma basename_join (a x : string) :
  contains sep x = false -> basename (join a x) = x.
Proof.
  intros Hx. unfold join. rewrite (startswith_no_sep x Hx).
  destruct (String.eqb_spec a "") as [->|Ha]; cbn [orb].
  - sapp. unfold basename. apply rsplit_None in Hx. now rewrite Hx.
  - destruct (endswith a (String sep "")) eqn:Ee.
    + destruct (endswith_char_snoc _ _ Ee) as [a' ->].
      rewrite app_assoc_s. sapp. now apply basename_app.
    + now apply basename_app.
Qed.

Lemma string_of_uint_nonempty (d : Decimal.uint) : NilZero.string_of_uint d <> "".
Proof. destruct d; simpl; discriminate. Qed.

Lemma nilzero_digits (d : Decimal.uint) : all_digits (NilZero.string_of_uint d) = true.
Proof. destruct d; simpl; try reflexivity; apply string_of_uint_digits. Qed.

Lemma str_Z_plain (z : Z) :
  contains sep (str_Z z) = false /\ str_Z z <> "" /\ str_Z z <> String extsep "".
Proof.
  unfold str_Z, NilZero.string_of_int.
  destruct (Z.to_int z) as [d|d].
  - split; [apply digits_contains; [reflexivity | apply nilzero_digits]|].
    split; [apply string_of_uint_nonempty|].
    intros H. pose proof (nilzero_digits d) as Hd. rewrite H in Hd. discriminate.
  - split; [|split; discriminate].
    cbn [contains]. replace (Ascii.eqb "-" sep) with false by reflexivity.
    apply digits_contains; [reflexivity | apply nilzero_digits].
Qed.

Lemma year_folder_basename (base : string) (year : Z) :
  basename (join base (str_Z year)) = str_Z year.
Proof. apply basename_join, str_Z_plain. Qed.


(** ** More on classification *)



Lemma lower_char_dot (c : ascii) : Ascii.eqb (lower_char c) extsep = Ascii.eqb c extsep.
Proof. destruct c as [[] [] [] [] [] [] [] []]; reflexivity. Qed.

Lemma contains_dot_lower (s : string) : contains extsep (lower s) = contains extsep s.
Proof.
  induction s as [|c s IH]; [reflexivity|]. cbn [lower contains].
  now rewrite lower_char_dot, IH.
Qed.


Lemma endswith_length (s t : string) :
  endswith s t = true -> String.length t <= String.length s.
Proof.
  intros [p ->]%endswith_spec. rewrite length_app_s. lia.
Qed.

(** Of two suffixes of one string, the shorter is a suffix of the longer. *)
Lemma endswith_both (s a b : string) :
  endswith s a = true -> endswith s b = true ->
  String.length b <= String.length a -> endswith a b = true.
Proof.
  induction s as [|c s IH]; cbn [endswith].
  - destruct (String.eqb_spec "" a) as [<-|]; [|discriminate].
    destruct (String.eqb_spec "" b) as [<-|]; [reflexivity | discriminate].
  - destruct (String.eqb_spec (String c s) a) as [<-|_].
    { intros _ H _. cbn [endswith]. exact H. }
    intros Ha. destruct (String.eqb_spec (String c s) b) as [<-|_].
    { intros _ Hl. apply endswith_length in Ha. simpl in Hl. lia. }
    now apply IH.
Qed.

(** X2.  No name passes both tests of the loop: the two tuples have no entry
    that is the end of an entry of the other, so the order of the [if] and
    the [elif] does not matter, and a name is a video exactly when it ends
    with an entry of [VIDEO_EXTENSIONS]. *)
Theorem photo_and_video_are_exclusive (file : string) :
  (endswith_any (lower file) IMAGE_EXTENSIONS = true ->
   endswith_any (lower file) VIDEO_EXTENSIONS = false)
  /\ (classify file = Photo <-> endswith_any (lower file) IMAGE_EXTENSIONS = true)
  /\ (classify file = Video <-> endswith_any (lower file) VIDEO_EXTENSIONS = true).
Proof.
  assert (Hex : forall s, endswith_any s IMAGE_EXTENSIONS = true ->
                          endswith_any s VIDEO_EXTENSIONS = false).
  { intros s Hi. destruct (endswith_any s VIDEO_EXTENSIONS) eqn:Hv; [|reflexivity].
    exfalso. unfold endswith_any in *.
    apply existsb_exists in Hi as (a & Ha & Hsa). apply existsb_exists in Hv as (b & Hb & Hsb).
    assert (forallb (fun a => forallb (fun b => negb (endswith a b) && negb (endswith b a))
                                VIDEO_EXTENSIONS) IMAGE_EXTENSIONS = true) as Hall
      by (vm_compute; reflexivity).
    rewrite forallb_forall in Hall. specialize (Hall a Ha).
    rewrite forallb_forall in Hall. specialize (Hall b Hb).
    apply andb_prop in Hall as [H1%negb_true_iff H2%negb_true_iff].
    destruct (Nat.le_ge_cases (String.length b) (String.length a)) as [Hl|Hl].
    - rewrite (endswith_both s a b Hsa Hsb Hl) in H1. discriminate.
    - rewrite (endswith_both s b a Hsb Hsa Hl) in H2. discriminate. }
  split; [apply Hex|]. unfold classify. cbv zeta.
  destruct (endswith_any (lower file) IMAGE_EXTENSIONS) eqn:Hi.
  - rewrite (Hex _ Hi). split; split; congruence.
  - destruct (endswith_any (lower file) VIDEO_EXTENSIONS); split; split; congruence.
Qed.

Lemma contains_dot_app (a e : string) : contains extsep (a +:+ String extsep e) = true.
Proof. rewrite contains_app. cbn [contains]. rewrite Ascii.eqb_refl. apply orb_true_r. Qed.

Lemma endswith_after_dot (t stem e : string) :
  dot_only_first t = true ->
  endswith (stem +:+ String extsep e) t = endswith (String extsep e) t.
Proof.
  intros Ht. induction stem as [|c stem IH]; [reflexivity|]. sapp.
  set (rest := stem +:+ String extsep e) in *.
  cbn [endswith]. fold (endswith rest t). rewrite IH.
  destruct (String.eqb_spec (String c rest) t) as [<-|_]; [|reflexivity].
  cbn [dot_only_first] in Ht. unfold rest in Ht. rewrite contains_dot_app in Ht. discriminate.
Qed.

Lemma endswith_any_after_dot (l : list string) (stem e : string) :
  forallb dot_only_first l = true ->
  endswith_any (stem +:+ String extsep e) l = endswith_any (String extsep e) l.
Proof.
  unfold endswith_any. induction l as [|t l IH]; [reflexivity|]. cbn [forallb existsb].
  intros [Ht Hl]%andb_prop. now rewrite (endswith_after_dot t stem e Ht), IH.
Qed.

Lemma lower_dot (stem e : string) :
  lower (stem +:+ String extsep e) = lower stem +:+ String extsep (lower e).
Proof. now rewrite lower_app. Qed.

Lemma classify_after_dot (stem e : string) :
  classify (stem +:+ String extsep e) = classify (String extsep e).
Proof.
  unfold classify. cbv zeta. rewrite lower_dot.
  change (lower (String extsep e)) with (String extsep (lower e)).
  now rewrite !endswith_any_after_dot by reflexivity.
Qed.

(** X3.  For a name that has a dot, only the text from the dot on counts,
    and so only the text from the last dot on: the class of [stem.e] is the
    class of [.e], whatever the stem. *)
Theorem class_depends_on_text_after_dot (stem1 stem2 e : string) :
  classify (stem1 +:+ String extsep e) = classify (stem2 +:+ String extsep e).
Proof.
  rewrite (classify_after_dot stem1).
  symmetry. apply classify_after_dot.
Qed.

Lemma splitext_ext (p : string) :
  (splitext p).2 <> "" ->
  exists e, (splitext p).2 = String extsep e /\ p = (splitext p).1 +:+ String extsep e.
Proof.
  unfold splitext. destruct (rsplit extsep p) as [[a e]|] eqn:E; [|now intros []].
  destruct (contains sep e); [now intros []|].
  destruct (all_char extsep (basename a)); [now intros []|].
  intros _. exists e. cbn [fst snd]. split; [reflexivity|]. now apply rsplit_spec in E.
Qed.

(** X4.  The numbered name that a file is given in a conflict, [name_k.ext],
    is classified as the file itself is, provided the file has an
    extension: a file renamed by one run is still a photo, or still a video,
    for the next. *)
Theorem numbered_name_keeps_class (file : string) (k : nat) :
  (splitext file).2 <> "" ->
  classify (numbered (splitext file).1 (splitext file).2 k) = classify file.
Proof.
  intros (e & He & Hf)%splitext_ext. rewrite Hf at 3. rewrite He. unfold numbered.
  replace ((splitext file).1 +:+ String "_" (str k +:+ String extsep e))
    with (((splitext file).1 +:+ String "_" (str k)) +:+ String extsep e)
    by (rewrite app_assoc_s; reflexivity).
  now rewrite !classify_after_dot.
Qed.


(** ** The year folder *)

Lemma makedirs_year_folder (m m1 : gmap string node) (base : string) (year : Z) :
  makedirs m (join base (str_Z year)) = Ok m1 ->
  isdir m1 (join base (str_Z year)) = true /\ dirs_added m m1.
Proof.
  intros H. split; [|eapply makedirs_dirs_added; eauto].
  destruct (str_Z_plain year) as (_ & H1 & H2).
  eapply makedirs_isdir; eauto; now rewrite year_folder_basename.
Qed.

(** [os.makedirs] cannot succeed on a path that a regular file occupies. *)
Lemma makedirs_occupied (m : gmap string node) (base : string) (year : Z) (g : file) :
  fs_lookup m (join base (str_Z year)) = Some (File g) ->
  exists e, makedirs m (join base (str_Z year)) = Err e.
Proof.
  intros Hg. destruct (makedirs m _) as [m1|e] eqn:E; [|eauto]. exfalso.
  destruct (makedirs_year_folder _ _ _ _ E) as [Hd Hadd].
  apply fs_lookup_File in Hg. pose proof (dirs_added_keeps _ _ _ _ Hadd Hg) as Hg1.
  unfold isdir, fs_lookup in Hd.
  destruct (String.eqb _ ""); [discriminate|].
  destruct (all_char sep _) eqn:Ea.
  - apply all_sep_basename in Ea. rewrite year_folder_basename in Ea.
    destruct (str_Z_plain year) as (_ & Hne & _). contradiction.
  - rewrite Hg1 in Hd. discriminate.
Qed.

(** ** Moves to a name that is free *)

(** A path that does not exist, with a proper last component, is a key of
    the map that is absent or a broken link. *)
Lemma free_key (m : gmap string node) (p : string) :
  exists_ m p = false -> basename p <> "" -> m !! p = None \/ m !! p = Some BrokenLink.
Proof.
  intros Hfree Hb. destruct (basename_proper _ Hb) as [Hne Hns].
  unfold exists_ in Hfree. rewrite (fs_lookup_key m p Hne Hns) in Hfree.
  destruct (m !! p) as [[]|]; try discriminate; auto.
Qed.

(** What a successful [shutil.move] of a non-directory to a path that does
    not exist does to the map. *)
Lemma shutil_move_free (m m' : gmap string node) (src target : string) (n : node) :
  m !! src = Some n -> n <> Dir ->
  exists_ m target = false ->
  shutil_move m src target = Ok m' ->
  m' = <[target := n]> (delete src m)
  /\ (m !! target = None \/ m !! target = Some BrokenLink)
  /\ (src = target -> n = BrokenLink).
Proof.
  intros Hsrc Hn Hfree. unfold shutil_move.
  assert (isdir m target = false) as ->.
  { unfold isdir. unfold exists_ in Hfree. destruct (fs_lookup m target) as [[]|]; congruence. }
  unfold rename. rewrite Hsrc.
  destruct (String.eqb_spec (basename target) "") as [|Hb]; [discriminate|].
  destruct (negb (parent_ok m target)); [discriminate|].
  destruct (free_key m target Hfree Hb) as [Ht|Ht].
  - destruct (String.eqb_spec src target) as [->|_]; [congruence|].
    rewrite Ht. destruct n; try congruence; intros [= <-]; repeat split; auto; congruence.
  - destruct (String.eqb_spec src target) as [->|Hne].
    + intros [= <-]. rewrite Hsrc in Ht. injection Ht as ->.
      split; [|split; auto].
      rewrite insert_delete_eq. symmetry. now apply insert_id.
    + rewrite Ht. destruct n; try congruence; intros [= <-]; repeat split; auto; congruence.
Qed.

Lemma shutil_move_keeps (m m' : gmap string node) (src target : string) :
  m !! src <> Some Dir ->
  exists_ m target = false ->
  shutil_move m src target = Ok m' ->
  forall p n, m !! p = Some n -> n <> BrokenLink -> p <> src -> m' !! p = Some n.
Proof.
  intros Hnd Hfree Hmv p n Hp Hn Hps.
  destruct (m !! src) as [n0|] eqn:Hsrc.
  - destruct (shutil_move_free m m' src target n0 Hsrc) as (-> & Ht & _); auto.
    { intros ->. now apply Hnd. }
    assert (p <> target) by (intros ->; destruct Ht; congruence).
    now rewrite lookup_insert_ne, lookup_delete_ne.
  - exfalso. revert Hmv. unfold shutil_move, rename. rewrite Hsrc.
    repeat case_match; discriminate.
Qed.

Lemma shutil_move_missing (m : gmap string node) (src target : string) :
  m !! src = None -> exists_ m target = false ->
  shutil_move m src target = Err (FileNotFoundError src).
Proof.
  intros Hsrc Hfree. unfold shutil_move.
  assert (isdir m target = false) as ->.
  { unfold isdir. unfold exists_ in Hfree. destruct (fs_lookup m target) as [[]|]; congruence. }
  unfold rename. now rewrite Hsrc.
Qed.

(** ** The tree of a directory *)

Lemma child_of_spec (top k : string) :
  child_of top k = true ->
  exists b, b <> "" /\ contains sep b = false /\ k = slashed top +:+ b /\ basename k = b.
Proof.
  unfold child_of. intros [Hb Hj]%andb_prop.
  apply negb_true_iff, String.eqb_neq in Hb. apply String.eqb_eq in Hj.
  exists (basename k). repeat split; auto using basename_no_sep.
  rewrite <- Hj at 1. apply join_slashed, basename_no_sep.
Qed.

(** A child is a proper key: not empty, with no trailing separator. *)
Lemma child_proper (top d : string) :
  child_of top d = true -> slashed d = d +:+ String sep "" /\ basename d <> "".
Proof.
  intros (b & Hne & Hb & -> & Hbn)%child_of_spec. split; [|congruence].
  generalize (slashed top). intros P.
  unfold slashed. rewrite (endswith_app_nosep _ _ Hne Hb), orb_false_r.
  destruct (String.eqb_spec (P +:+ b) "") as [E|_]; [|reflexivity].
  destruct P; sapp; [congruence | discriminate].
Qed.

Lemma below_prefix (m : gmap string node) (d k : string) :
  below m d k -> slashed d = d +:+ String sep "" ->
  exists t, k = d +:+ String sep t.
Proof.
  induction 1 as [top k Hc | top d k Hc Hd Hb IH]; intros Hs.
  - destruct (child_of_spec _ _ Hc) as (b & _ & _ & -> & _). rewrite Hs, app_assoc_s. sapp.
    now exists b.
  - destruct (IH (proj1 (child_proper _ _ Hc))) as [t ->].
    destruct (child_of_spec _ _ Hc) as (b & _ & _ & -> & _). rewrite Hs, !app_assoc_s. sapp.
    now eexists.
Qed.

Lemma split_first_sep (b1 b2 x y : string) :
  contains sep b1 = false -> contains sep b2 = false ->
  b1 +:+ String sep x = b2 +:+ String sep y -> b1 = b2.
Proof.
  revert b2. induction b1 as [|c b1 IH]; intros [|c2 b2]; sapp; cbn [contains]; intros H1 H2 E.
  - reflexivity.
  - injection E as <- _. rewrite Ascii.eqb_refl in H2. discriminate.
  - injection E as -> _. rewrite Ascii.eqb_refl in H1. discriminate.
  - injection E as -> E. f_equal. destruct (Ascii.eqb c2 sep); [discriminate|]. eauto.
Qed.

(** An entry lies in the tree of at most one child of [top]. *)
Lemma below_one_child (m : gmap string node) (top d1 d2 k : string) :
  child_of top d1 = true -> child_of top d2 = true ->
  k = d1 \/ below m d1 k -> k = d2 \/ below m d2 k -> d1 = d2.
Proof.
  intros H1 H2 K1 K2.
  assert (P1 : k = d1 \/ exists t, k = d1 +:+ String sep t).
  { destruct K1 as [?|K1]; [now left|]. right.
    apply (below_prefix m); [exact K1 | apply (child_proper top), H1]. }
  assert (P2 : k = d2 \/ exists t, k = d2 +:+ String sep t).
  { destruct K2 as [?|K2]; [now left|]. right.
    apply (below_prefix m); [exact K2 | apply (child_proper top), H2]. }
  destruct (child_of_spec _ _ H1) as (b1 & Hn1 & Hb1 & -> & _).
  destruct (child_of_spec _ _ H2) as (b2 & Hn2 & Hb2 & -> & _).
  f_equal.
  destruct P1 as [->|[t1 ->]], P2 as [E|[t2 E]].
  - now apply String.app_inj in E.
  - rewrite app_assoc_s in E. apply String.app_inj in E. subst b1.
    rewrite contains_app in Hb1. cbn [contains] in Hb1. rewrite Ascii.eqb_refl in Hb1.
    rewrite orb_true_r in Hb1. discriminate.
  - rewrite app_assoc_s in E. apply String.app_inj in E. subst b2.
    rewrite contains_app in Hb2. cbn [contains] in Hb2. rewrite Ascii.eqb_refl in Hb2.
    rewrite orb_true_r in Hb2. discriminate.
  - rewrite !app_assoc_s in E. apply String.app_inj in E.
    now apply split_first_sep in E.
Qed.

Lemma is_dir_node_true (n : node) : is_dir_node n = true <-> n = Dir.
Proof. destruct n; simpl; split; congruence. Qed.

(** The names of a listing, by kind, are the base names of the children of
    that kind. *)
Lemma names_where_scandir (top : string) (d : bool) (l : list (string * node)) :
  names_where d
    (omap (fun kn : string * node =>
             if child_of top kn.1 then Some (basename kn.1, is_dir_node kn.2) else None) l)
  = map (fun kn : string * node => basename kn.1)
      (filter (fun kn : string * node =>
                 child_of top kn.1 = true /\ is_dir_node kn.2 = d) l).
Proof.
  unfold names_where. induction l as [|[k n] l IH]; [reflexivity|].
  cbn [omap list_omap fst snd]. rewrite filter_cons. cbn [fst snd].
  destruct (child_of top k) eqn:Ec.
  - rewrite filter_cons. cbn [snd].
    destruct (decide (is_dir_node n = d)) as [E|E].
    + rewrite decide_True by (now apply Is_true_true, eqb_true_iff).
      rewrite decide_True by auto. cbn [map fst]. now rewrite IH.
    + rewrite decide_False.
      2:{ cbn [snd]. destruct (is_dir_node n), d; cbn; tauto. }
      rewrite decide_False by (intros [_ ?]; contradiction). exact IH.
  - rewrite decide_False by (intros [? _]; discriminate). exact IH.
Qed.

Lemma children_keys (m : gmap string node) (top : string) (d : bool) :
  let l := filter (fun kn : string * node =>
                     child_of top kn.1 = true /\ is_dir_node kn.2 = d) (map_to_list m) in
  NoDup (map fst l)
  /\ forall k n, (k, n) ∈ l <-> m !! k = Some n /\ child_of top k = true /\ is_dir_node n = d.
Proof.
  intros l. split.
  - eapply sublist_NoDup; [apply (NoDup_fst_map_to_list m)|].
    apply fmap_sublist, sublist_filter.
  - intros k n. unfold l. rewrite list_elem_of_filter, elem_of_map_to_list. cbn [fst snd].
    tauto.
Qed.

Lemma walk_count_exact (m : gmap string node) : forall fuel top n,
  isdir m top = true ->
  walk_count fuel m top = Some n ->
  exists l, NoDup l /\ length l = n /\ forall k, k ∈ l <-> counted m top k.
Proof.
  induction fuel as [|fuel IH]; intros top n Hd; [discriminate|].
  cbn [walk_count]. unfold scandir. rewrite Hd. rewrite !names_where_scandir.
  destruct (children_keys m top false) as [Hnf Hf].
  destruct (children_keys m top true) as [Hnd Hdirs].
  set (files := filter _ (map_to_list m)) in *.
  set (dirs := filter _ (map_to_list m)) in Hnd, Hdirs |- *.
  rewrite length_map.
  assert (Hsub : forall ds total,
    (forall k nd, (k, nd) ∈ ds -> (k, nd) ∈ dirs) -> NoDup (map fst ds) ->
    foldr (fun d acc =>
             match walk_count fuel m (join top d), acc with
             | Some n, Some total => Some (n + total)
             | _, _ => None
             end)
          (Some (length files)) (map (fun kn : string * node => basename kn.1) ds) = Some total ->
    exists ls, total = length ls + length files /\ NoDup ls
               /\ forall k, k ∈ ls <-> exists d nd, (d, nd) ∈ ds /\ counted m d k).
  { induction ds as [|[d nd] ds IHds]; intros total Hin Hnodup.
    - intros [= <-]. exists []. split; [reflexivity|]. split; [constructor|].
      intros k. split; [intros H; inversion H|]. intros (d & nd & H & _). inversion H.
    - cbn [map foldr fst].
      destruct (proj1 (Hdirs d nd) (Hin d nd ltac:(left))) as (Hm & Hc & Hnd').
      apply is_dir_node_true in Hnd'. subst nd.
      assert (join top (basename d) = d) as ->.
      { unfold child_of in Hc. apply andb_prop in Hc as [_ Hc]. now apply String.eqb_eq in Hc. }
      destruct (walk_count fuel m d) as [n0|] eqn:E0; [|discriminate].
      destruct (foldr _ _ _) as [t'|] eqn:Et; [|discriminate]. intros [= <-].
      apply NoDup_cons in Hnodup as [Hd0 Hnodup].
      destruct (IHds t') as (ls' & -> & Hnls & Hls); auto.
      { intros k' nd' H'. apply Hin. now right. }
      destruct (IH d n0) as (l0 & Hn0 & <- & Hl0); auto.
      { destruct (child_proper _ _ Hc) as [_ Hb]. destruct (basename_proper _ Hb) as [H1 H2].
        unfold isdir. now rewrite (fs_lookup_key m d H1 H2), Hm. }
      exists (l0 ++ ls'). split; [rewrite length_app; lia|]. split.
      + apply NoDup_app. split; [exact Hn0|]. split; [|exact Hnls].
        intros k Hk0 Hk'. apply Hl0 in Hk0 as (_ & _ & _ & Hb0).
        apply Hls in Hk' as (d' & nd' & Hin' & (_ & _ & _ & Hb')).
        destruct (proj1 (Hdirs d' nd') (Hin d' nd' ltac:(now right))) as (_ & Hc' & _).
        assert (d = d') as <- by (eapply below_one_child; eauto).
        apply Hd0. apply list_elem_of_fmap. now exists (d, nd').
      + intros k. rewrite elem_of_app, Hl0, Hls. split.
        * intros [H|(d' & nd' & H' & Hk)]; [exists d, Dir; split; [left | exact H]|].
          exists d', nd'. split; [now right | exact Hk].
        * intros (d' & nd' & [[= -> ->]|H']%elem_of_cons & Hk); [now left|].
          right. eauto. }
  intros Hfold.
  destruct (Hsub dirs n) as (ls & -> & Hnls & Hls); auto.
  exists (map fst files ++ ls). split; [|split].
  - apply NoDup_app. split; [exact Hnf|]. split; [|exact Hnls].
    intros k ([k' nk] & -> & Hk)%list_elem_of_fmap Hk'. cbn [fst] in *.
    apply Hf in Hk as (Hm & Hc & Hnk).
    apply Hls in Hk' as (d & nd & Hin & (_ & _ & _ & Hb)).
    apply Hdirs in Hin as (Hmd & Hcd & Hndd). apply is_dir_node_true in Hndd. subst nd.
    assert (k' = d) as -> by (eapply below_one_child; eauto).
    rewrite Hmd in Hm. injection Hm as <-. discriminate.
  - rewrite length_app, length_map. lia.
  - intros k. rewrite elem_of_app, Hls. split.
    + intros [([k' nk] & -> & Hk)%list_elem_of_fmap | (d & nd & Hin & (nk & Hm & Hnk & Hb))].
      * apply Hf in Hk as (Hm & Hc & Hnk). exists nk. split; [exact Hm|].
        split; [intros ->; discriminate | now apply below_child].
      * apply Hdirs in Hin as (Hmd & Hcd & Hndd). apply is_dir_node_true in Hndd. subst nd.
        exists nk. split; [exact Hm|]. split; [exact Hnk|]. eapply below_deeper; eauto.
    + intros (nk & Hm & Hnk & Hb). inversion Hb as [? ? Hc | ? d ? Hc Hmd Hb']; subst.
      * left. apply list_elem_of_fmap. exists (k, nk). split; [reflexivity|].
        apply Hf. repeat split; auto. destruct nk; try reflexivity. contradiction.
      * right. exists d, Dir. split; [now apply Hdirs|]. exists nk. auto.
Qed.



(** ** The functions of [main.py], continued *)

Section Further.

Variable sha256_hex : string -> string.
Variable utcoffset : Z -> Z.
Variable strptime_year : string -> option Z.

(** *** Hashing and comparing *)

(** X5.  Hashing in chunks.  For every positive chunk size the digest is that of
    the whole content; a file that cannot be read gives [None] and one
    printed line; the file system is never changed and nothing is raised. *)
Theorem hash_independent_of_chunk_size (chunk_size : nat) (p : string) (w : world) :
  0 < chunk_size ->
  calculate_file_hash_with sha256_hex chunk_size p w
  = match open_read (fs w) p with
    | Ok content =>
        (Return (Some (sha256_hex content)), {| fs := fs w; out := Opened p :: out w |})
    | Err e =>
        (Return None,
         {| fs := fs w; out := Printed (MsgHashError p e) :: Opened p :: out w |})
    end.
Proof.
  intros Hc.
  unfold calculate_file_hash_with, try_except, mbind, M_bind, bind, log, stat_fs, print,
    mret, M_ret, ret.
  cbn [fs out].
  destruct (open_read (fs w) p) as [content|e]; cbn [of_result ret raise fs out].
  - rewrite read_loop_all; [reflexivity | exact Hc | lia].
  - reflexivity.
Qed.

(** X6.  With chunk size 0 the first [read] returns nothing, the loop ends at
    once, and the digest of a readable file is that of the empty input,
    whatever the file holds. *)
Theorem hash_with_chunk_size_zero (p : string) (w : world) (content : string) :
  open_read (fs w) p = Ok content ->
  calculate_file_hash_with sha256_hex 0 p w
  = (Return (Some (sha256_hex "")), {| fs := fs w; out := Opened p :: out w |}).
Proof.
  intros H.
  unfold calculate_file_hash_with, try_except, mbind, M_bind, bind, log, stat_fs, print,
    mret, M_ret, ret.
  cbn [fs out]. rewrite H. cbn [of_result ret raise fs out].
  cbn [read_loop]. replace (String.substring 0 0 content) with "" by now destruct content.
  reflexivity.
Qed.

Lemma verdict_true_files (m : gmap string node) (a b : string) :
  duplicate_verdict sha256_hex m a b = true ->
  exists f g,
    fs_lookup m a = Some (File f) /\ fs_lookup m b = Some (File g)
    /\ f_readable f = true /\ f_readable g = true
    /\ String.length (f_data f) = String.length (f_data g)
    /\ sha256_hex (f_data f) = sha256_hex (f_data g)
    /\ sha256_hex (f_data f) <> "".
Proof.
  intros Hv.
  unfold duplicate_verdict, getsize, hash_of, open_read in Hv.
  destruct (fs_lookup m a) as [[f| |]|]; try discriminate;
    destruct (fs_lookup m b) as [[g| |]|]; try discriminate;
    cbn [truthy] in Hv; rewrite ?andb_false_r in Hv; try discriminate.
  destruct (f_readable f) eqn:Rf;
    [|cbn [truthy] in Hv; rewrite ?andb_false_r in Hv; discriminate].
  destruct (f_readable g) eqn:Rg;
    [|cbn [truthy] in Hv; rewrite ?andb_false_r in Hv; discriminate].
  cbn [truthy hash_eqb] in Hv.
  apply andb_prop in Hv as [[[Hs Hf]%andb_prop Hg]%andb_prop He].
  apply Nat.eqb_eq in Hs. apply String.eqb_eq in He.
  apply negb_true_iff, String.eqb_neq in Hf.
  exists f, g. repeat split; auto.
Qed.

(** X7.  What [is_duplicate] answering [True] means: both paths are regular
    files that could be read, of the same length and the same, non-empty,
    digest.  The file system is as it was. *)
Theorem is_duplicate_true_only_for_equal_files (a b : string) (w w' : world) :
  is_duplicate sha256_hex a b w = (Return true, w') ->
  exists f g,
    fs_lookup (fs w) a = Some (File f) /\ fs_lookup (fs w) b = Some (File g)
    /\ f_readable f = true /\ f_readable g = true
    /\ String.length (f_data f) = String.length (f_data g)
    /\ sha256_hex (f_data f) = sha256_hex (f_data g)
    /\ sha256_hex (f_data f) <> ""
    /\ fs w' = fs w.
Proof.
  rewrite is_duplicate_eq. intros [= Hv <-].
  destruct (verdict_true_files _ _ _ Hv) as (f & g & H1 & H2 & H3 & H4 & H5 & H6 & H7).
  exists f, g. repeat split; assumption.
Qed.

Lemma is_duplicate_true_files (a b : string) (w w1 : world) :
  is_duplicate sha256_hex a b w = (Return true, w1) ->
  fs w1 = fs w /\ exists f, fs w !! a = Some (File f).
Proof.
  rewrite is_duplicate_eq. intros [= Hv <-]. split; [reflexivity|].
  destruct (verdict_true_files _ _ _ Hv) as (f & g & Hf & _). exists f.
  now apply fs_lookup_File.
Qed.

(** *** Year resolution *)

Lemma exif_loop_find (items : list (nat * string)) (w : world) :
  exif_loop strptime_year items w
  = match find (fun item : nat * string => is_DateTimeOriginal item.1) items with
    | Some item =>
        match strptime_year item.2 with
        | Some y => (Return (Some y), w)
        | None => (Raise ValueError, w)
        end
    | None => (Return None, w)
    end.
Proof.
  induction items as [|[tag_id value] items IH]; cbn [exif_loop find fst snd]; [reflexivity|].
  destruct (is_DateTimeOriginal tag_id); [|exact IH].
  cbn [snd]. destruct (strptime_year value); reflexivity.
Qed.

Lemma get_image_year_exif (p : string) (w : world) :
  get_image_year utcoffset strptime_year p w
  = match exif_year strptime_year (fs w) p with
    | Some y => (Return y, w)
    | None => fallback_year utcoffset p w
    end.
Proof.
  unfold get_image_year, exif_year, mbind, M_bind, bind, try_except, image_getexif.
  destruct (fs_lookup (fs w) p) as [[f| |]|]; try reflexivity.
  destruct (f_readable f); [|reflexivity].
  destruct (f_exif f) as [|[[|item items]|]]; try reflexivity.
  rewrite exif_loop_find.
  destruct (find _ (item :: items)) as [it|]; [|reflexivity].
  destruct (strptime_year it.2); reflexivity.
Qed.

(** X8.  An image that opens and whose EXIF data holds a [DateTimeOriginal]
    entry (tag 36867) with a date that parses resolves to the year of that
    date.  The modification time is not consulted and nothing changes. *)
Theorem image_year_prefers_exif (p : string) (w : world) (f : file)
    (before after : list (nat * string)) (value : string) (y : Z) :
  fs_lookup (fs w) p = Some (File f) ->
  f_readable f = true ->
  f_exif f = ExifData (Some (before ++ (36867, value) :: after)) ->
  (forall item, item ∈ before -> item.1 <> 36867) ->
  strptime_year value = Some y ->
  get_image_year utcoffset strptime_year p w = (Return y, w).
Proof.
  intros Hf Hr He Hb Hy. rewrite get_image_year_exif. unfold exif_year.
  rewrite Hf, Hr, He. clear He.
  assert (find (fun item : nat * string => is_DateTimeOriginal item.1)
            (before ++ (36867, value) :: after) = Some (36867, value)) as ->.
  { induction before as [|item before IH]; [reflexivity|]. cbn [app find].
    assert (is_DateTimeOriginal item.1 = false) as ->.
    { apply Nat.eqb_neq, Hb. left. }
    apply IH. intros it Hit. apply Hb. now right. }
  cbn [snd]. now rewrite Hy.
Qed.

(** X9.  An image without a usable capture date resolves as the fallback does:
    whether the file is missing or unreadable, [Image.open] raises, there is
    no EXIF data or no [DateTimeOriginal] entry in it, or the date of that
    entry does not parse, [get_image_year] is [fallback_year]: the year of
    the local date of the modification time, when [datetime.fromtimestamp]
    accepts that time. *)
Theorem image_year_falls_back_to_mtime (p : string) (w : world) :
  exif_year strptime_year (fs w) p = None ->
  get_image_year utcoffset strptime_year p w = fallback_year utcoffset p w
  /\ forall t y, getmtime (fs w) p = Ok t -> fromtimestamp_year utcoffset t = Ok y ->
       get_image_year utcoffset strptime_year p w = (Return y, w).
Proof.
  intros H. rewrite get_image_year_exif, H. split; [reflexivity|].
  intros t y Ht Hy. now apply (fallback_year_returns utcoffset p w t y).
Qed.

(** X10.  A video whose metadata holds a creation date resolves to the year of
    that date; the parser is closed, and the modification time plays no part. *)
Theorem video_year_prefers_creation_date (p : string) (w : world) (y : Z) :
  creation_year (fs w) p = Some y ->
  get_video_year utcoffset p w
  = (Return y, {| fs := fs w; out := ParserClosed p :: out w |}).
Proof.
  unfold creation_year, get_video_year, createParser, mbind, M_bind, bind.
  destruct (fs_lookup (fs w) p) as [[f| |]|]; try discriminate.
  destruct (f_readable f); [|discriminate].
  destruct (String.eqb (f_data f) ""); [discriminate|]. cbn [andb negb].
  destruct (f_video f) as [|[| | |y']]; try discriminate. intros [= ->]. reflexivity.
Qed.

(** X11.  The parser that [createParser] opens is closed exactly once on every
    way out of [get_video_year]: when the year comes from the metadata, when
    extraction raises, and when the fallback returns or raises.  When
    [createParser] gave no parser, or raised, nothing is closed.  The file
    system is never changed. *)
Theorem video_parser_always_closed (p : string) (w : world) :
  fs (get_video_year utcoffset p w).2 = fs w
  /\ match (createParser p w).1 with
     | Return (ParserOpened _) =>
         out (get_video_year utcoffset p w).2 = ParserClosed p :: out w
     | _ => out (get_video_year utcoffset p w).2 = out w
     end.
Proof.
  unfold get_video_year, mbind, M_bind, bind.
  destruct (createParser_cases p w) as [(probe & f & -> & _)|[e ->]]; cbn [fst snd];
    [|split; reflexivity].
  destruct probe as [|[| | |y]];
    cbn [extract_creation_year try_finally try_except raise mret M_ret ret log fst snd fs out];
    rewrite ?fallback_year_eq; cbn [snd fs out]; split; reflexivity.
Qed.

(** Year resolution reads and never writes: it returns or raises in a
    world whose file system is the one it started from and whose trace
    gained no move. *)
Lemma get_image_year_quiet (p : string) (w : world) :
  exists r, get_image_year utcoffset strptime_year p w = (r, w) /\ r <> Diverge.
Proof.
  destruct (get_image_year_cases utcoffset strptime_year p w) as [[y ->]| ->].
  - eexists. split; [reflexivity | discriminate].
  - rewrite fallback_year_eq. eexists. split; [reflexivity|].
    destruct (getmtime (fs w) p); [destruct (fromtimestamp_year utcoffset a)|]; discriminate.
Qed.

Lemma get_video_year_quiet (p : string) (w : world) :
  exists r evs, get_video_year utcoffset p w = (r, add_events evs w)
                /\ r <> Diverge /\ moves_in evs = [].
Proof.
  unfold get_video_year, mbind, M_bind, bind.
  assert (Hfb : forall w1, exists r, fallback_year utcoffset p w1 = (r, w1) /\ r <> Diverge).
  { intros w1. rewrite fallback_year_eq. eexists. split; [reflexivity|].
    destruct (getmtime (fs w1) p); [destruct (fromtimestamp_year utcoffset a)|]; discriminate. }
  destruct (createParser_cases p w) as [(probe & f & -> & _)|[e ->]].
  2:{ exists (Raise e), []. rewrite add_events_nil. repeat split. discriminate. }
  destruct probe as [|[| | |y]];
    cbn [extract_creation_year try_finally try_except raise mret M_ret ret log].
  - destruct (Hfb w) as (r & -> & Hr). exists r, []. now rewrite add_events_nil.
  - destruct (Hfb {| fs := fs w; out := ParserClosed p :: out w |}) as (r & -> & Hr).
    exists r, [ParserClosed p]. auto.
  - destruct (Hfb {| fs := fs w; out := ParserClosed p :: out w |}) as (r & -> & Hr).
    exists r, [ParserClosed p]. auto.
  - destruct (Hfb {| fs := fs w; out := ParserClosed p :: out w |}) as (r & -> & Hr).
    exists r, [ParserClosed p]. auto.
  - exists (Return y), [ParserClosed p]. split; [reflexivity|]. split; [discriminate | reflexivity].
Qed.

(** *** One relocation *)

Lemma after_move_keeps (w0 : world) (src target : string) (done : message) :
  fs w0 !! src <> Some Dir ->
  exists_ (fs w0) target = false ->
  forall p n, fs w0 !! p = Some n -> n <> BrokenLink -> p <> src ->
    fs (after_move w0 src target done) !! p = Some n.
Proof.
  intros Hnd Hfree p n Hp Hn Hps. unfold after_move.
  destruct (shutil_move (fs w0) src target) as [m|e] eqn:E; cbn [fs]; [|exact Hp].
  eapply shutil_move_keeps; eauto.
Qed.

(** X12.  [move_file_safe] never overwrites and never removes: whatever the
    branch and whether or not the move succeeds, every file and directory
    that was there before the call, other than the source, is there
    unchanged after it.  (The source is a file of the walk, not a directory.
    A dangling symbolic link does not count as existing for
    [os.path.exists]; such a link can be replaced.) *)
Theorem move_never_overwrites (src dest dup : string) (count : nat) (w : world) :
  fs w !! src <> Some Dir ->
  exists w',
    move_file_safe sha256_hex src dest dup count w = (Return tt, w')
    /\ forall p n, fs w !! p = Some n -> n <> BrokenLink -> p <> src -> fs w' !! p = Some n.
Proof.
  intros Hnd.
  destruct (move_file_safe_relocated sha256_hex src dest dup count w) as [w' [Erun Hrel]].
  exists w'. split; [exact Erun|].
  inversion Hrel as [Hex | w1 m1 k Hex Hdup Hmk Hfree | w1 e Hex Hdup Hmk | w1 k Hex Hdup Hfree];
    subst; clear Hrel; intros p n Hp Hn Hps.
  - now apply after_move_keeps.
  - destruct (is_duplicate_true_files _ _ _ _ Hdup) as (Efs & f & Hf).
    rewrite Efs in Hmk. pose proof (makedirs_dirs_added _ _ _ Hmk) as Hadd.
    apply after_move_keeps; cbn [fs]; auto.
    + rewrite (dirs_added_keeps _ _ _ _ Hadd Hf). discriminate.
    + apply Hfree.
    + eapply dirs_added_keeps; eauto.
  - destruct (is_duplicate_true_files _ _ _ _ Hdup) as (Efs & _). cbn [fs]. now rewrite Efs.
  - destruct (is_duplicate_fs sha256_hex _ _ _ _ _ Hdup) as (Efs & _).
    apply after_move_keeps; rewrite ?Efs; auto. rewrite <- Efs. apply Hfree.
Qed.

Lemma after_move_file (w0 : world) (src target : string) (done : message) (f : file) :
  fs w0 !! src = Some (File f) ->
  exists_ (fs w0) target = false ->
  (forall e, done <> MsgMoveError src e) ->
  (exists e, head (out (after_move w0 src target done)) = Some (Printed (MsgMoveError src e))
             /\ fs (after_move w0 src target done) = fs w0)
  \/ (head (out (after_move w0 src target done)) = Some (Printed done)
      /\ fs (after_move w0 src target done) !! target = Some (File f)
      /\ fs (after_move w0 src target done) !! src = None).
Proof.
  intros Hsrc Hfree Hdone. unfold after_move.
  destruct (shutil_move (fs w0) src target) as [m|e] eqn:E; cbn [fs out head].
  - right. destruct (shutil_move_free _ _ _ _ _ Hsrc ltac:(discriminate) Hfree E)
      as (-> & _ & Hst).
    assert (src <> target) by (intros H; apply Hst in H; discriminate).
    split; [reflexivity|]. split; [apply lookup_insert_eq|].
    rewrite lookup_insert_ne by congruence. apply lookup_delete_eq.
  - left. exists e. now split.
Qed.

(** X13.  The report of [move_file_safe] is true of the file system, and the
    file is never lost.  For a regular file at [src]: either the last line
    printed is the error, and the file is still at [src]; or the last line
    printed announces a move to some [target], and the file is then at
    [target], whole, and no longer at [src]. *)
Theorem moved_file_is_where_the_report_says (src dest dup : string) (count : nat)
    (w : world) (f : file) :
  fs w !! src = Some (File f) ->
  exists w',
    move_file_safe sha256_hex src dest dup count w = (Return tt, w')
    /\ ((exists e, head (out w') = Some (Printed (MsgMoveError src e))
                   /\ fs w' !! src = Some (File f))
        \/ (exists target,
              (head (out w') = Some (Printed (MsgMoved count src target))
               \/ head (out w') = Some (Printed (MsgFullDuplicate src target))
               \/ head (out w') = Some (Printed (MsgNameConflict src target)))
              /\ fs w' !! target = Some (File f)
              /\ fs w' !! src = None)).
Proof.
  intros Hsrc.
  destruct (move_file_safe_relocated sha256_hex src dest dup count w) as [w' [Erun Hrel]].
  exists w'. split; [exact Erun|].
  inversion Hrel as [Hex | w1 m1 k Hex Hdup Hmk Hfree | w1 e Hex Hdup Hmk | w1 k Hex Hdup Hfree];
    subst; clear Hrel.
  - destruct (after_move_file w src dest (MsgMoved count src dest) f Hsrc Hex)
      as [(e & Hh & Hfs)|(Hh & Ht & Hs)]; [discriminate| |].
    + left. exists e. split; [exact Hh | now rewrite Hfs].
    + right. exists dest. auto.
  - destruct (is_duplicate_true_files _ _ _ _ Hdup) as (Efs & _).
    rewrite Efs in Hmk. pose proof (makedirs_dirs_added _ _ _ Hmk) as Hadd.
    pose proof (dirs_added_keeps _ _ _ _ Hadd Hsrc) as Hsrc1.
    set (w2 := {| fs := m1; out := MadeDirs dup :: out w1 |}).
    destruct (after_move_file w2 src (duplicate_candidate dup src k)
                (MsgFullDuplicate src (duplicate_candidate dup src k)) f Hsrc1)
      as [(e & Hh & Hfs)|(Hh & Ht & Hs)]; [apply Hfree | discriminate | |].
    + left. exists e. split; [exact Hh | now rewrite Hfs].
    + right. exists (duplicate_candidate dup src k). auto.
  - destruct (is_duplicate_true_files _ _ _ _ Hdup) as (Efs & _).
    left. exists e. cbn [out head fs]. split; [reflexivity | now rewrite Efs].
  - destruct (is_duplicate_fs sha256_hex _ _ _ _ _ Hdup) as (Efs & _).
    destruct (after_move_file w1 src (conflict_candidate dest k)
                (MsgNameConflict src (conflict_candidate dest k)) f)
      as [(e & Hh & Hfs)|(Hh & Ht & Hs)];
      [now rewrite Efs | apply Hfree | discriminate | |].
    + left. exists e. split; [exact Hh | now rewrite Hfs, Efs].
    + right. exists (conflict_candidate dest k). auto.
Qed.

(** X14.  A source that is not there.  [move_file_safe] returns, the last line
    it prints is the error of the move, [FileNotFoundError] for the source,
    and the file system is as it was: no directory is made either. *)
Theorem move_of_missing_source_changes_nothing (src dest dup : string) (count : nat)
    (w : world) :
  fs w !! src = None ->
  exists w',
    move_file_safe sha256_hex src dest dup count w = (Return tt, w')
    /\ fs w' = fs w
    /\ head (out w') = Some (Printed (MsgMoveError src (FileNotFoundError src))).
Proof.
  intros Hsrc.
  destruct (move_file_safe_relocated sha256_hex src dest dup count w) as [w' [Erun Hrel]].
  exists w'. split; [exact Erun|].
  inversion Hrel as [Hex | w1 m1 k Hex Hdup Hmk Hfree | w1 e Hex Hdup Hmk | w1 k Hex Hdup Hfree];
    subst; clear Hrel.
  - unfold after_move. now rewrite (shutil_move_missing _ _ _ Hsrc Hex).
  - destruct (is_duplicate_true_files _ _ _ _ Hdup) as (_ & f & Hf). congruence.
  - destruct (is_duplicate_true_files _ _ _ _ Hdup) as (_ & f & Hf). congruence.
  - destruct (is_duplicate_fs sha256_hex _ _ _ _ _ Hdup) as (Efs & _).
    unfold after_move. rewrite shutil_move_missing; [now split| now rewrite Efs | apply Hfree].
Qed.

(** X15.  A file whose destination is its own path, as when the source tree
    holds the destination year folder.  A readable regular file is a
    duplicate of itself, so it does not stay where it is: the duplicates
    folder is made and the file is moved to the first free name there. *)
Theorem file_at_its_destination_goes_to_duplicates (p dup : string) (count : nat)
    (w : world) (f : file) (m1 : gmap string node) :
  fs_lookup (fs w) p = Some (File f) ->
  f_readable f = true ->
  sha256_hex (f_data f) <> "" ->
  makedirs (fs w) dup = Ok m1 ->
  is_duplicate sha256_hex p p w
  = (Return true, {| fs := fs w; out := Opened p :: Opened p :: out w |})
  /\ exists k,
       first_free m1 (duplicate_candidate dup p) k
       /\ move_file_safe sha256_hex p p dup count w
          = (Return tt,
             after_move {| fs := m1; out := MadeDirs dup :: Opened p :: Opened p :: out w |}
               p (duplicate_candidate dup p k)
               (MsgFullDuplicate p (duplicate_candidate dup p k))).
Proof.
  intros Hf Hr Hne Hmk.
  assert (is_duplicate sha256_hex p p w
          = (Return true, {| fs := fs w; out := Opened p :: Opened p :: out w |})) as Hdup.
  { rewrite is_duplicate_eq.
    unfold duplicate_verdict, duplicate_events, hash_events, getsize, hash_of, open_read,
      add_events.
    rewrite Hf, Hr, Nat.eqb_refl. cbn [truthy hash_eqb andb app].
    apply String.eqb_neq in Hne. rewrite Hne, String.eqb_refl. reflexivity. }
  split; [exact Hdup|].
  destruct (move_file_safe_relocated sha256_hex p p dup count w) as [w' [Erun Hrel]].
  inversion Hrel as [Hex | w1 m1' k Hex Hdup' Hmk' Hfree | w1 e Hex Hdup' Hmk' | w1 k Hex Hdup' Hfree];
    subst; clear Hrel.
  - apply exists_File in Hf. congruence.
  - rewrite Hdup in Hdup'. injection Hdup' as <-. cbn [fs out] in *.
    rewrite Hmk in Hmk'. injection Hmk' as <-. exists k. split; [exact Hfree | exact Erun].
  - rewrite Hdup in Hdup'. injection Hdup' as <-. cbn [fs] in Hmk'. congruence.
  - rewrite Hdup in Hdup'. discriminate.
Qed.

(** *** The loop body *)

(** The part of the loop body after the year is known. *)
Lemma relocate_in_year_folder (src file base duplicate_dest : string) (year : Z)
    (count : nat) (w1 : world) :
  match makedirs (fs w1) (join base (str_Z year)) with
  | Ok m1 =>
      isdir m1 (join base (str_Z year)) = true
      /\ dirs_added (fs w1) m1
      /\ exists w',
           move_file_safe sha256_hex src (join (join base (str_Z year)) file) duplicate_dest
             (count + 1) {| fs := m1; out := MadeDirs (join base (str_Z year)) :: out w1 |}
           = (Return tt, w')
           /\ (os_makedirs (join base (str_Z year));;
               move_file_safe sha256_hex src (join (join base (str_Z year)) file)
                 duplicate_dest (count + 1);;
               mret (count + 1)) w1 = (Return (count + 1), w')
  | Err e =>
      (os_makedirs (join base (str_Z year));;
       move_file_safe sha256_hex src (join (join base (str_Z year)) file)
         duplicate_dest (count + 1);;
       mret (count + 1)) w1
      = (Raise e, {| fs := fs w1; out := MadeDirs (join base (str_Z year)) :: out w1 |})
  end.
Proof.
  unfold os_makedirs, mbind, M_bind, bind, log, update_fs. cbn [fs out].
  destruct (makedirs (fs w1) (join base (str_Z year))) as [m1|e] eqn:E; [|reflexivity].
  destruct (makedirs_year_folder _ _ _ _ E) as [Hd Hadd]. split; [exact Hd|].
  split; [exact Hadd|].
  destruct (move_file_safe_relocated sha256_hex src (join (join base (str_Z year)) file)
              duplicate_dest (count + 1)
              {| fs := m1; out := MadeDirs (join base (str_Z year)) :: out w1 |})
    as [w' [Erun _]].
  exists w'. split; [exact Erun|]. now rewrite Erun.
Qed.

(** X16.  The year folder is there before the move.  For a file that is a
    photo or a video, the loop body either raises, from year resolution or
    from [os.makedirs], without having called [shutil.move] and with the
    file system as it was; or it hands the file to [move_file_safe] in a
    file system in which [os.makedirs] has made the year folder a directory,
    with destination [year_folder/file], with the duplicates folder
    [duplicate_root/Photo/year] or [duplicate_root/Video/year], and with the
    counter advanced by one, which is what it returns. *)
Theorem year_folder_is_made_before_the_move
    (photo_dest_folder video_dest_folder duplicate_root root file : string)
    (count : nat) (w : world) :
  classify file <> Ignored ->
  (exists e w1 evs,
      sort_file sha256_hex utcoffset strptime_year photo_dest_folder video_dest_folder
        duplicate_root root file count w = (Raise e, w1)
      /\ fs w1 = fs w /\ out w1 = evs ++ out w /\ moves_in evs = [])
  \/ (exists year base tag evs m1 w',
        (classify file = Photo /\ base = photo_dest_folder /\ tag = "Photo"
         \/ classify file = Video /\ base = video_dest_folder /\ tag = "Video")
        /\ moves_in evs = []
        /\ makedirs (fs w) (join base (str_Z year)) = Ok m1
        /\ isdir m1 (join base (str_Z year)) = true
        /\ move_file_safe sha256_hex (join root file) (join (join base (str_Z year)) file)
             (join3 duplicate_root tag (str_Z year)) (count + 1)
             {| fs := m1; out := MadeDirs (join base (str_Z year)) :: evs ++ out w |}
           = (Return tt, w')
        /\ sort_file sha256_hex utcoffset strptime_year photo_dest_folder video_dest_folder
             duplicate_root root file count w = (Return (count + 1), w')).
Proof.
  intros Hk.
  remember (sort_file sha256_hex utcoffset strptime_year photo_dest_folder video_dest_folder
              duplicate_root root file count w) as r eqn:Er.
  assert (Hstep : forall base tag year evs w1,
    fs w1 = fs w -> out w1 = evs ++ out w -> moves_in evs = [] ->
    (classify file = Photo /\ base = photo_dest_folder /\ tag = "Photo"
     \/ classify file = Video /\ base = video_dest_folder /\ tag = "Video") ->
    r = (os_makedirs (join base (str_Z year));;
         move_file_safe sha256_hex (join root file) (join (join base (str_Z year)) file)
           (join3 duplicate_root tag (str_Z year)) (count + 1);;
         mret (count + 1)) w1 ->
    (exists e w1 evs, r = (Raise e, w1)
        /\ fs w1 = fs w /\ out w1 = evs ++ out w /\ moves_in evs = [])
    \/ (exists year base tag evs m1 w',
        (classify file = Photo /\ base = photo_dest_folder /\ tag = "Photo"
         \/ classify file = Video /\ base = video_dest_folder /\ tag = "Video")
        /\ moves_in evs = []
        /\ makedirs (fs w) (join base (str_Z year)) = Ok m1
        /\ isdir m1 (join base (str_Z year)) = true
        /\ move_file_safe sha256_hex (join root file) (join (join base (str_Z year)) file)
             (join3 duplicate_root tag (str_Z year)) (count + 1)
             {| fs := m1; out := MadeDirs (join base (str_Z year)) :: evs ++ out w |}
           = (Return tt, w')
        /\ r = (Return (count + 1), w'))).
  { intros base tag year evs w1 Hfs Hout Hevs Hbase ->.
    pose proof (relocate_in_year_folder (join root file) file base
                  (join3 duplicate_root tag (str_Z year)) year count w1) as H.
    rewrite Hfs, Hout in H.
    destruct (makedirs (fs w) (join base (str_Z year))) as [m1|e] eqn:E.
    - destruct H as (Hd & _ & w' & Erun & Eall). right.
      exists year, base, tag, evs, m1, w'. repeat split; auto.
    - left. eexists e, _, (MadeDirs (join base (str_Z year)) :: evs).
      split; [exact H|]. cbn [fs out]. repeat split. now rewrite moves_in_MadeDirs. }
  unfold sort_file in Er. cbv zeta in Er. destruct (classify file) eqn:Ek; [| |contradiction].
  - unfold mbind at 1 in Er. unfold M_bind at 1 in Er. unfold bind at 1 in Er.
    destruct (get_image_year_quiet (join root file) w) as (y & Ey & Hy). rewrite Ey in Er.
    destruct y as [year|e|]; [| |contradiction].
    + apply (Hstep photo_dest_folder "Photo" year [] w); auto.
    + left. exists e, w, []. auto.
  - unfold mbind at 1 in Er. unfold M_bind at 1 in Er. unfold bind at 1 in Er.
    destruct (get_video_year_quiet (join root file) w) as (y & evs & Ey & Hy & Hevs).
    rewrite Ey in Er. destruct y as [year|e|]; [| |contradiction].
    + apply (Hstep video_dest_folder "Video" year evs (add_events evs w)); auto.
    + left. exists e, (add_events evs w), evs. auto.
Qed.

(** X17.  A regular file in the place of the year folder.  [os.makedirs] raises
    there, outside every [try]: the exception leaves the loop over the
    files at that file, which is not moved, and the files after it are not
    looked at. *)
Theorem occupied_year_folder_stops_the_loop (g : file)
    (photo_dest_folder video_dest_folder duplicate_root root file base : string)
    (rest : list string) (count : nat) (w w1 : world) (year : Z) :
  (classify file = Photo /\ base = photo_dest_folder
   /\ get_image_year utcoffset strptime_year (join root file) w = (Return year, w1))
  \/ (classify file = Video /\ base = video_dest_folder
      /\ get_video_year utcoffset (join root file) w = (Return year, w1)) ->
  fs_lookup (fs w) (join base (str_Z year)) = Some (File g) ->
  exists e,
    for_each (file :: rest)
      (sort_file sha256_hex utcoffset strptime_year photo_dest_folder video_dest_folder
         duplicate_root root) count w
    = (Raise e, {| fs := fs w; out := MadeDirs (join base (str_Z year)) :: out w1 |}).
Proof.
  intros Hcase Hg.
  assert (Hfs : fs w1 = fs w).
  { destruct Hcase as [(_ & _ & E)|(_ & _ & E)].
    - destruct (get_image_year_quiet (join root file) w) as (r & E' & _). congruence.
    - destruct (get_video_year_quiet (join root file) w) as (r & evs & E' & _).
      rewrite E' in E. injection E as _ <-. reflexivity. }
  rewrite <- Hfs in Hg. destruct (makedirs_occupied _ _ _ _ Hg) as [e He].
  exists e. cbn [for_each]. unfold mbind at 1. unfold M_bind at 1. unfold bind at 1.
  assert (forall tag,
    (os_makedirs (join base (str_Z year));;
     move_file_safe sha256_hex (join root file) (join (join base (str_Z year)) file)
       (join3 duplicate_root tag (str_Z year)) (count + 1);;
     mret (count + 1)) w1
    = (Raise e, {| fs := fs w; out := MadeDirs (join base (str_Z year)) :: out w1 |})) as Hstep.
  { intros tag.
    pose proof (relocate_in_year_folder (join root file) file base
                  (join3 duplicate_root tag (str_Z year)) year count w1) as H.
    rewrite He in H. now rewrite <- Hfs. }
  unfold sort_file. cbv zeta.
  destruct Hcase as [(-> & -> & E)|(-> & -> & E)];
    unfold mbind at 1; unfold M_bind at 1; unfold bind at 1; rewrite E, Hstep; reflexivity.
Qed.


(** *** A run, and the census *)



(** X20.  The census.  [count_files_in_directory] changes nothing and prints
    nothing.  On a path that is not a directory it returns 0.  On a
    directory it returns the number of entries of its tree that are not
    directories: regular files and dangling links, at any depth, each
    counted once; the directories themselves are not counted.  [fuel] has
    to exceed the longest path of the file system for the walk to finish. *)
Theorem census_counts_the_files_of_the_tree (fuel : nat) (directory : string) (w : world) :
  max_key_len (fs w) < fuel ->
  (isdir (fs w) directory = false ->
   count_files_in_directory fuel directory w = (Return 0, w))
  /\ (isdir (fs w) directory = true ->
      exists l,
        count_files_in_directory fuel directory w = (Return (length l), w)
        /\ NoDup l
        /\ forall k, k ∈ l <-> counted (fs w) directory k).
Proof.
  intros Hf. split.
  - intros Hd. apply count_files_missing; [lia | exact Hd].
  - intros Hd. destruct (walk_count_total (fs w) fuel directory) as [n E]; [lia | lia|].
    destruct (walk_count_exact (fs w) fuel directory n Hd E) as (l & Hnd & <- & Hl).
    exists l. split; [|split; assumption].
    unfold count_files_in_directory. now rewrite E.
Qed.

End Further.

(** ** What a run conserves *)

Lemma conserved_refl m : conserved m m.
Proof. split; [reflexivity | auto]. Qed.

Lemma conserved_trans m1 m2 m3 : conserved m1 m2 -> conserved m2 m3 -> conserved m1 m3.
Proof. intros [H1 D1] [H2 D2]. split; [now rewrite H1 | auto]. Qed.

Lemma dirs_added_conserved m m1 : dirs_added m m1 -> conserved m m1.
Proof.
  intros H. split.
  - unfold files_of. f_equiv. f_equiv. apply map_eq. intros k. rewrite !lookup_omap.
    destruct (H k) as [->|[-> ->]]; reflexivity.
  - intros p Hp. eapply dirs_added_keeps; eauto.
Qed.

Lemma move_conserved (m : gmap string node) (src t : string) (n : node) :
  m !! src = Some n -> n <> Dir ->
  m !! t = None \/ m !! t = Some BrokenLink ->
  conserved m (<[t := n]> (delete src m)).
Proof.
  intros Hsrc Hn Ht. split.
  - unfold files_of.
    assert (Hft : omap file_of m !! t = None).
    { rewrite lookup_omap. destruct Ht as [-> | ->]; reflexivity. }
    destruct n as [f| |]; [|contradiction|].
    + assert (src <> t) by (intros ->; destruct Ht; congruence).
      rewrite (omap_insert_Some file_of _ _ _ f) by reflexivity. rewrite omap_delete.
      rewrite map_to_list_insert by (rewrite lookup_delete_ne by assumption; exact Hft).
      rewrite <- (map_to_list_delete (omap file_of m) src f)
        by (rewrite lookup_omap, Hsrc; reflexivity).
      reflexivity.
    + rewrite omap_insert_None by reflexivity. rewrite omap_delete.
      rewrite (delete_id _ t).
      * rewrite delete_id; [reflexivity|]. rewrite lookup_omap, Hsrc. reflexivity.
      * destruct (decide (src = t)) as [->|Hne];
          [apply lookup_delete_eq | now rewrite lookup_delete_ne].
  - intros p Hp.
    assert (p <> src) by (intros ->; congruence).
    assert (p <> t) by (intros ->; destruct Ht; congruence).
    now rewrite lookup_insert_ne, lookup_delete_ne.
Qed.

Lemma relocation_conserved src m m' : relocation src m m' -> conserved m m'.
Proof.
  intros (m1 & Hadd & [->|(n & t & Hsrc & Hn & Ht & ->)]).
  - now apply dirs_added_conserved.
  - eapply conserved_trans; [apply dirs_added_conserved, Hadd|]. now apply move_conserved.
Qed.

Lemma relocation_keeps src m m' :
  relocation src m m' ->
  forall p n, m !! p = Some n -> n <> BrokenLink -> p <> src -> m' !! p = Some n.
Proof.
  intros (m1 & Hadd & Hm) p n Hp Hn Hps.
  pose proof (dirs_added_keeps _ _ _ _ Hadd Hp) as Hp1.
  destruct Hm as [->|(n0 & t & Hsrc & Hn0 & Ht & ->)]; [exact Hp1|].
  assert (p <> t) by (intros ->; destruct Ht; congruence).
  now rewrite lookup_insert_ne, lookup_delete_ne.
Qed.

Lemma relocation_remaining src m m' :
  relocation src m m' ->
  forall p n, m !! p = Some n -> n <> Dir -> p <> src ->
    exists n', m' !! p = Some n' /\ n' <> Dir.
Proof.
  intros (m1 & Hadd & Hm) p n Hp Hn Hps.
  pose proof (dirs_added_keeps _ _ _ _ Hadd Hp) as Hp1.
  destruct Hm as [->|(n0 & t & Hsrc & Hn0 & Ht & ->)]; [eauto|].
  destruct (decide (p = t)) as [->|Hpt].
  - exists n0. now rewrite lookup_insert_eq.
  - exists n. now rewrite lookup_insert_ne, lookup_delete_ne.
Qed.

Lemma relocation_after_dirs src m m1 m' :
  dirs_added m m1 -> relocation src m1 m' -> relocation src m m'.
Proof.
  intros H (m2 & Hadd & Hm). exists m2. split; [eapply dirs_added_trans; eauto | exact Hm].
Qed.

Lemma relocation_refl src m : relocation src m m.
Proof. exists m. split; [apply dirs_added_refl | now left]. Qed.

Lemma after_move_relocation (w0 : world) (src t : string) (done : message) (n : node) :
  fs w0 !! src = Some n -> n <> Dir -> exists_ (fs w0) t = false ->
  relocation src (fs w0) (fs (after_move w0 src t done)).
Proof.
  intros Hsrc Hn Hfree. unfold after_move.
  destruct (shutil_move (fs w0) src t) as [m|e] eqn:E; cbn [fs]; [|apply relocation_refl].
  destruct (shutil_move_free _ _ _ _ _ Hsrc Hn Hfree E) as (-> & Ht & _).
  exists (fs w0). split; [apply dirs_added_refl|]. right. exists n, t. auto.
Qed.

Lemma untouched_refl m : untouched m m.
Proof. intros p n H _ _. exact H. Qed.

Lemma untouched_trans m1 m2 m3 : untouched m1 m2 -> untouched m2 m3 -> untouched m1 m3.
Proof. intros H1 H2 p n Hp Hn Hk. apply H2; auto. Qed.

Lemma kept_refl m : kept m m.
Proof. split; [apply conserved_refl | apply untouched_refl]. Qed.

Lemma kept_trans m1 m2 m3 : kept m1 m2 -> kept m2 m3 -> kept m1 m3.
Proof.
  intros [C1 U1] [C2 U2]. split; [eapply conserved_trans | eapply untouched_trans]; eauto.
Qed.

(** The files of a listing: distinct names without a separator, each the
    name of an entry that is no directory. *)
Lemma listing_files (m : gmap string node) (top : string) entries :
  scandir m top = Ok entries ->
  NoDup (names_where false entries)
  /\ forall x, x ∈ names_where false entries ->
       contains sep x = false /\ exists n, m !! join top x = Some n /\ n <> Dir.
Proof.
  unfold scandir. destruct (isdir m top); [|discriminate]. intros [= <-].
  rewrite names_where_scandir. destruct (children_keys m top false) as [Hnd Hl].
  set (l := filter _ (map_to_list m)) in *.
  assert (Hkey : forall kn, kn ∈ l ->
            m !! kn.1 = Some kn.2 /\ join top (basename kn.1) = kn.1 /\ kn.2 <> Dir).
  { intros [k n] Hin. apply Hl in Hin as (Hm & Hc & Hn). cbn [fst snd].
    split; [exact Hm|]. split.
    - unfold child_of in Hc. apply andb_prop in Hc as [_ Hc]. now apply String.eqb_eq in Hc.
    - intros ->. discriminate. }
  split.
  - apply NoDup_fmap_2_strong.
    + intros [k1 n1] [k2 n2] H1 H2 Hb. cbn [fst] in Hb.
      destruct (Hkey _ H1) as (Hm1 & Hj1 & _). destruct (Hkey _ H2) as (Hm2 & Hj2 & _).
      cbn [fst snd] in *. assert (k1 = k2) as -> by congruence.
      f_equal. congruence.
    + unfold l. apply NoDup_filter, NoDup_map_to_list.
  - intros x (kn & -> & Hin)%list_elem_of_fmap.
    destruct (Hkey _ Hin) as (Hm & Hj & Hn).
    split; [apply basename_no_sep|]. exists kn.2. now rewrite Hj.
Qed.

Section Conservation.

Variable sha256_hex : string -> string.
Variable utcoffset : Z -> Z.
Variable strptime_year : string -> option Z.

Lemma move_file_safe_relocation (src dest dup : string) (count : nat) (w : world) (n : node) :
  fs w !! src = Some n -> n <> Dir ->
  exists w', move_file_safe sha256_hex src dest dup count w = (Return tt, w')
             /\ relocation src (fs w) (fs w').
Proof.
  intros Hsrc Hn.
  destruct (move_file_safe_relocated sha256_hex src dest dup count w) as [w' [Erun Hrel]].
  exists w'. split; [exact Erun|].
  inversion Hrel as [Hex | w1 m1 k Hex Hdup Hmk Hfree | w1 e Hex Hdup Hmk | w1 k Hex Hdup Hfree];
    subst; clear Hrel.
  - eapply after_move_relocation; eauto.
  - destruct (is_duplicate_fs sha256_hex _ _ _ _ _ Hdup) as (Efs & _).
    rewrite Efs in Hmk. pose proof (makedirs_dirs_added _ _ _ Hmk) as Hadd.
    eapply relocation_after_dirs; [exact Hadd|].
    apply (after_move_relocation {| fs := m1; out := MadeDirs dup :: out w1 |} src _ _ n);
      cbn [fs]; auto; [eapply dirs_added_keeps; eauto | apply Hfree].
  - destruct (is_duplicate_fs sha256_hex _ _ _ _ _ Hdup) as (Efs & _).
    cbn [fs]. rewrite Efs. apply relocation_refl.
  - destruct (is_duplicate_fs sha256_hex _ _ _ _ _ Hdup) as (Efs & _).
    rewrite <- Efs. apply (after_move_relocation w1 src _ _ n); auto; [now rewrite Efs | apply Hfree].
Qed.

(** The loop body, on an entry that is no directory. *)
Lemma sort_file_relocation (photo_dest_folder video_dest_folder duplicate_root root file : string)
    (count : nat) (w : world) (n : node) :
  fs w !! join root file = Some n -> n <> Dir ->
  relocation (join root file) (fs w)
    (fs (sort_file sha256_hex utcoffset strptime_year photo_dest_folder video_dest_folder
           duplicate_root root file count w).2)
  /\ (classify file = Ignored ->
      fs (sort_file sha256_hex utcoffset strptime_year photo_dest_folder video_dest_folder
            duplicate_root root file count w).2 = fs w).
Proof.
  intros Hsrc Hn.
  assert (Hstep : forall base tag year w1,
    fs w1 = fs w ->
    relocation (join root file) (fs w)
      (fs ((os_makedirs (join base (str_Z year));;
            move_file_safe sha256_hex (join root file) (join (join base (str_Z year)) file)
              (join3 duplicate_root tag (str_Z year)) (count + 1);;
            mret (count + 1)) w1).2)).
  { intros base tag year w1 Hfs.
    unfold os_makedirs, mbind, M_bind, bind, log, update_fs. cbn [fs out]. rewrite Hfs.
    destruct (makedirs (fs w) (join base (str_Z year))) as [m1|e] eqn:E; cbn [snd fs].
    2:{ rewrite ?Hfs. apply relocation_refl. }
    pose proof (makedirs_dirs_added _ _ _ E) as Hadd.
    destruct (move_file_safe_relocation (join root file) (join (join base (str_Z year)) file)
                (join3 duplicate_root tag (str_Z year)) (count + 1)
                {| fs := m1; out := MadeDirs (join base (str_Z year)) :: out w1 |} n)
      as (w' & -> & Hrel); cbn [fs]; auto.
    { eapply dirs_added_keeps; eauto. }
    cbn [snd]. eapply relocation_after_dirs; eauto. }
  split.
  - unfold sort_file. cbv zeta. destruct (classify file).
    + unfold mbind at 1. unfold M_bind at 1. unfold bind at 1.
      destruct (get_image_year_quiet utcoffset strptime_year (join root file) w)
        as (r & -> & Hr).
      destruct r as [year|e|]; [|apply relocation_refl|contradiction].
      now apply Hstep.
    + unfold mbind at 1. unfold M_bind at 1. unfold bind at 1.
      destruct (get_video_year_quiet utcoffset (join root file) w) as (r & evs & -> & Hr & _).
      destruct r as [year|e|]; [|apply relocation_refl|contradiction].
      now apply Hstep.
    + apply relocation_refl.
  - intros Hk. now rewrite sort_file_ignored.
Qed.

Lemma for_each_files_kept
    (photo_dest_folder video_dest_folder duplicate_root top : string) :
  forall (files : list string) (count : nat) (w : world),
    NoDup files ->
    (forall x, x ∈ files ->
       contains sep x = false /\ exists n, fs w !! join top x = Some n /\ n <> Dir) ->
    kept (fs w)
      (fs (for_each files
             (sort_file sha256_hex utcoffset strptime_year photo_dest_folder
                video_dest_folder duplicate_root top) count w).2).
Proof.
  induction files as [|x files IH]; intros count w Hnd Hfiles; [apply kept_refl|].
  apply NoDup_cons in Hnd as [Hx Hnd].
  destruct (Hfiles x ltac:(left)) as (Hsep & n & Hsrc & Hn).
  destruct (sort_file_relocation photo_dest_folder video_dest_folder duplicate_root top x
              count w n Hsrc Hn) as [Hrel Hign].
  cbn [for_each]. unfold mbind, M_bind, bind.
  destruct (sort_file sha256_hex utcoffset strptime_year photo_dest_folder video_dest_folder
              duplicate_root top x count w) as [r1 w1] eqn:E1.
  cbn [snd] in Hrel, Hign.
  assert (Hkept : kept (fs w) (fs w1)).
  { split; [eapply relocation_conserved; eauto|].
    intros p nd Hp Hnd' Hk.
    destruct (classify x) eqn:Ex; [| |rewrite Hign; auto];
      (eapply relocation_keeps; eauto; intros ->;
       rewrite (basename_join top x Hsep) in Hk; congruence). }
  destruct r1 as [a|e|]; cbn [snd]; try exact Hkept.
  eapply kept_trans; [exact Hkept|]. apply IH; [exact Hnd|].
  intros y Hy. destruct (Hfiles y ltac:(now right)) as (Hysep & ny & Hysrc & Hyn).
  split; [exact Hysep|].
  eapply relocation_remaining; eauto.
  intros E. apply Hx. assert (y = x) as <-; [|exact Hy].
  rewrite <- (basename_join top y Hysep), <- (basename_join top x Hsep). now f_equal.
Qed.

Lemma for_each_kept {A B} (body : A -> B -> M B) :
  (forall x acc w, kept (fs w) (fs (body x acc w).2)) ->
  forall l acc w, kept (fs w) (fs (for_each l body acc w).2).
Proof.
  intros Hbody. induction l as [|x l IH]; intros acc w; [apply kept_refl|].
  cbn [for_each]. unfold mbind, M_bind, bind.
  pose proof (Hbody x acc w) as H. destruct (body x acc w) as [[a|e|] w1]; cbn [snd] in *;
    try exact H.
  eapply kept_trans; [exact H | apply IH].
Qed.

Lemma walk_sort_kept (photo_dest_folder video_dest_folder duplicate_root : string) :
  forall (fuel : nat) (top : string) (count : nat) (w : world),
    kept (fs w)
      (fs (walk_sort sha256_hex utcoffset strptime_year fuel photo_dest_folder
             video_dest_folder duplicate_root top count w).2).
Proof.
  induction fuel as [|fuel IH]; intros top count w; [apply kept_refl|].
  cbn [walk_sort]. unfold mbind at 1. unfold M_bind at 1. unfold bind at 1. unfold read_fs.
  destruct (scandir (fs w) top) as [entries|e] eqn:Es; [|apply kept_refl].
  destruct (listing_files _ _ _ Es) as [Hnd Hfiles].
  pose proof (for_each_files_kept photo_dest_folder video_dest_folder duplicate_root top
                _ count w Hnd Hfiles) as H1.
  unfold mbind, M_bind, bind.
  destruct (for_each (names_where false entries) _ count w) as [[a|e|] w1]; cbn [snd] in *;
    try exact H1.
  eapply kept_trans; [exact H1|]. apply for_each_kept. intros d acc w2. apply IH.
Qed.

Lemma count_files_fs (fuel : nat) (d : string) (w : world) :
  exists r, count_files_in_directory fuel d w = (r, w).
Proof. unfold count_files_in_directory. destruct (walk_count fuel (fs w) d); eexists; reflexivity. Qed.

Lemma run_kept (fuel : nat)
    (source_folder photo_dest_folder video_dest_folder duplicate_root : string) (w : world) :
  kept (fs w)
    (fs (copy_media_sorted_by_year sha256_hex utcoffset strptime_year fuel
           source_folder photo_dest_folder video_dest_folder duplicate_root w).2).
Proof.
  unfold copy_media_sorted_by_year.
  repeat (unfold mbind at 1; unfold M_bind at 1; unfold bind at 1;
          match goal with
          | |- context [count_files_in_directory ?f ?d ?w0] =>
              let r := fresh "r" in let E := fresh "E" in
              destruct (count_files_fs f d w0) as [r E]; rewrite E; clear E;
              destruct r as [?|?|]; cbn [snd]; try apply kept_refl
          end).
  unfold mbind at 1. unfold M_bind at 1. unfold bind at 1. unfold print at 1, log at 1.
  unfold mbind at 1. unfold M_bind at 1. unfold bind at 1. unfold read_fs at 1. cbn [fs out].
  destruct (negb (isdir (fs w) source_folder)); [apply kept_refl|].
  unfold mbind at 1. unfold M_bind at 1. unfold bind at 1.
  set (w1 := {| fs := fs w; out := _ |}).
  pose proof (walk_sort_kept photo_dest_folder video_dest_folder duplicate_root fuel
                source_folder 0 w1) as H.
  change (fs w1) with (fs w) in H.
  destruct (walk_sort _ _ _ _ _ _ _ _ _ w1) as [[c|err|] w2]; cbn [snd] in *; try exact H.
  repeat (unfold mbind at 1; unfold M_bind at 1; unfold bind at 1;
          match goal with
          | |- context [count_files_in_directory ?f ?d ?w0] =>
              let r := fresh "r" in let E := fresh "E" in
              destruct (count_files_fs f d w0) as [r E]; rewrite E; clear E;
              destruct r as [?|?|]; cbn [snd]; try exact H
          end).
Qed.


(** X22.  What is neither a photo nor a video stays where it is.  A regular
    file or a directory whose name is Ignored is, after a run, however it
    ends, at the same path and unchanged, wherever in the file system it is:
    in the source tree, in a destination, or elsewhere. *)
Theorem run_leaves_other_entries_alone (fuel : nat)
    (source_folder photo_dest_folder video_dest_folder duplicate_root : string) (w : world)
    (p : string) (n : node) :
  fs w !! p = Some n -> n <> BrokenLink -> classify (basename p) = Ignored ->
  fs (copy_media_sorted_by_year sha256_hex utcoffset strptime_year fuel
        source_folder photo_dest_folder video_dest_folder duplicate_root w).2 !! p = Some n.
Proof.
  destruct (run_kept fuel source_folder photo_dest_folder video_dest_folder duplicate_root w)
    as [_ H].
  apply H.
Qed.

End Conservation.

(** ** Examples on the sample data *)

Lemma sample_sha_nonempty (content : string) : sample_sha content <> "".
Proof. unfold sample_sha. sapp. discriminate. Qed.

Lemma is_duplicate_size_then_digest_witness :
  fst (is_duplicate sample_sha "/src/a.jpg" "/out/Photo/2021/a.jpg" sample_world) = Return true
  /\ is_duplicate sample_sha "/src/two/a.jpg" "/out/Photo/2021/a.jpg" sample_world
     = (Return false, sample_world).
Proof.
  destruct (is_duplicate_size_then_digest sample_sha sample_world
              "/src/a.jpg" "/out/Photo/2021/a.jpg" sample_sha_nonempty) as [Hsame _].
  destruct (is_duplicate_size_then_digest sample_sha sample_world
              "/src/two/a.jpg" "/out/Photo/2021/a.jpg" sample_sha_nonempty) as [_ Hsize].
  split.
  - eapply Hsame; vm_compute; reflexivity.
  - apply (Hsize 4 3); [vm_compute; reflexivity | vm_compute; reflexivity | lia].
Defined.

Lemma hash_failure_is_not_duplicate_witness :
  fst (is_duplicate sample_sha "/src/two/locked.jpg" "/out/Photo/2021/a.jpg" sample_world)
  = Return false.
Proof.
  apply hash_failure_is_not_duplicate. left.
  exists (PermissionError "/src/two/locked.jpg"). vm_compute. reflexivity.
Defined.

Lemma is_duplicate_symmetric_witness :
  fst (is_duplicate sample_sha "/src/gone.jpg" "/src/a.jpg" sample_world)
  = fst (is_duplicate sample_sha "/src/a.jpg" "/src/gone.jpg" sample_world)
  /\ fst (is_duplicate sample_sha "/src/gone.jpg" "/src/a.jpg" sample_world) = Return false
  /\ fst (is_duplicate sample_sha "/src/a.jpg" "/src/gone.jpg" sample_world) = Return false.
Proof.
  destruct (is_duplicate_symmetric sample_sha sample_world "/src/gone.jpg" "/src/a.jpg")
    as [Hsym Hfail].
  split; [exact Hsym|]. apply Hfail. left.
  exists (FileNotFoundError "/src/gone.jpg"). vm_compute. reflexivity.
Defined.

Lemma missing_source_aborts_witness :
  exists photos videos duplicates,
    copy_media_sorted_by_year sample_sha sample_utcoffset sample_strptime_year 22
      "/nowhere" "/out/Photo" "/out/Video" "/dup" sample_world
    = (Return tt,
       {| fs := fs sample_world;
          out := Printed (MsgSourceMissing "/nowhere")
                 :: Printed (MsgInitialCounts 0 photos videos duplicates)
                 :: out sample_world |}).
Proof.
  apply missing_source_aborts.
  - vm_compute. reflexivity.
  - vm_compute. lia.
Defined.



(** The run of the sample with the empty video: it ends at that file, with
    the exception of [createParser]; the photo in the subfolder is not
    reached. *)
Example unopenable_video_aborts_run :
  copy_media_sorted_by_year sample_sha sample_utcoffset sample_strptime_year 10
    "/src" "/out/Photo" "/out/Video" "/dup" empty_video_world
  = (Raise (NullStreamError "/src/empty.mp4"),
     {| fs := empty_video_fs; out := [Printed (MsgInitialCounts 2 0 0 0)] |}).
Proof. vm_compute. reflexivity. Qed.

Lemma move_failure_is_contained_witness :
  exists w' evs m0,
    move_file_safe sample_sha "/src/a.jpg" "/nowhere/a.jpg" "/dup" 1 sample_world
    = (Return tt, w')
    /\ out w' = evs ++ out sample_world
    /\ dirs_added (fs sample_world) m0
    /\ ((moves_in evs = [] /\ fs w' = m0
         /\ exists e, head evs = Some (Printed (MsgMoveError "/src/a.jpg" e)))
        \/ exists target,
             moves_in evs = [("/src/a.jpg", target)]
             /\ match shutil_move m0 "/src/a.jpg" target with
                | Ok m =>
                    fs w' = m
                    /\ forall e, head evs <> Some (Printed (MsgMoveError "/src/a.jpg" e))
                | Err e =>
                    fs w' = m0
                    /\ head evs = Some (Printed (MsgMoveError "/src/a.jpg" e))
                    /\ forall n, fs sample_world !! "/src/a.jpg" = Some n ->
                                 fs w' !! "/src/a.jpg" = Some n
                end).
Proof.
  exact (move_failure_is_contained sample_sha "/src/a.jpg" "/nowhere/a.jpg" "/dup" 1
           sample_world).
Defined.

(** The same call, run: the move fails, the failure is printed, and the
    file system is untouched. *)
Example move_failure_run :
  move_file_safe sample_sha "/src/a.jpg" "/nowhere/a.jpg" "/dup" 1 sample_world
  = (Return tt,
     {| fs := sample_fs;
        out := [Printed (MsgMoveError "/src/a.jpg" (FileNotFoundError "/nowhere/a.jpg"));
                MoveTried "/src/a.jpg" "/nowhere/a.jpg"] |}).
Proof. vm_compute. reflexivity. Qed.

Lemma relocate_three_ways_witness :
  (exists w',
      move_file_safe sample_sha "/src/notes.txt" "/out/Photo/2021/notes.txt" "/dup" 1 sample_world
      = (Return tt, w')
      /\ fs w' !! "/out/Photo/2021/notes.txt" = Some (plain_file "text")
      /\ fs w' !! "/src/notes.txt" = None)
  /\ (exists w',
         move_file_safe sample_sha "/src/a.jpg" "/out/Photo/2021/a.jpg" "/dup/Photo/2021" 2
           sample_world
         = (Return tt, w')
         /\ fs w' !! "/dup/Photo/2021/a.jpg" = Some (plain_file "AAA")
         /\ fs w' !! "/dup/Photo" = Some Dir
         /\ fs w' !! "/out/Photo/2021/a.jpg" = Some (plain_file "AAA"))
  /\ (exists w',
         move_file_safe sample_sha "/src/one/a.jpg" "/out/Photo/2021/a.jpg" "/dup/Photo/2021" 3
           sample_world
         = (Return tt, w')
         /\ fs w' !! "/out/Photo/2021/a_1.jpg" = Some (plain_file "BBB")
         /\ fs w' !! "/out/Photo/2021/a.jpg" = Some (plain_file "AAA")).
Proof.
  split; [|split].
  - destruct (relocate_three_ways sample_sha "/src/notes.txt" "/out/Photo/2021/notes.txt"
                "/dup" 1 sample_world) as (w' & E & Hclear & _ & _).
    exists w'. split; [exact E|].
    rewrite Hclear by (vm_compute; reflexivity). vm_compute. split; reflexivity.
  - destruct (relocate_three_ways sample_sha "/src/a.jpg" "/out/Photo/2021/a.jpg"
                "/dup/Photo/2021" 2 sample_world) as (w' & E & _ & Hdup & _).
    exists w'. split; [exact E|].
    pose (m1 := <["/dup/Photo/2021" := Dir]>
                  (<["/dup/Photo" := Dir]> (<["/dup" := Dir]> sample_fs))).
    assert (makedirs (fs sample_world) "/dup/Photo/2021" = Ok m1) as Hm1
      by (vm_compute; reflexivity).
    destruct (Hdup ltac:(vm_compute; reflexivity) ltac:(vm_compute; reflexivity) m1 Hm1)
      as (_ & _ & k & [Hfree Hbefore] & ->).
    destruct k as [|k].
    + vm_compute. repeat split; reflexivity.
    + specialize (Hbefore 0 ltac:(lia)). vm_compute in Hbefore. discriminate.
  - destruct (relocate_three_ways sample_sha "/src/one/a.jpg" "/out/Photo/2021/a.jpg"
                "/dup/Photo/2021" 3 sample_world) as (w' & E & _ & _ & Hconflict).
    exists w'. split; [exact E|].
    destruct (Hconflict ltac:(vm_compute; reflexivity) ltac:(vm_compute; reflexivity))
      as (k & Hk & [Hfree Hbefore] & ->).
    destruct k as [|[|k]].
    + lia.
    + vm_compute. split; reflexivity.
    + specialize (Hbefore 1 ltac:(lia)). vm_compute in Hbefore. discriminate.
Defined.

Lemma same_name_files_get_distinct_names_witness :
  exists targets w',
    relocate_all sample_sha ["/src/one/a.jpg"; "/src/two/a.jpg"] "/out/Photo/2021/a.jpg"
      "/dup/Photo/2021" 0 sample_world = (Return 2, w')
    /\ placed "/out/Photo/2021/a.jpg" sample_world ["/src/one/a.jpg"; "/src/two/a.jpg"]
         targets w'
    /\ NoDup targets
    /\ length targets = 2
    /\ (forall i src target,
          ["/src/one/a.jpg"; "/src/two/a.jpg"] !! i = Some src -> targets !! i = Some target ->
          dirname target = dirname "/out/Photo/2021/a.jpg"
          /\ (splitext (basename target)).2 = (splitext (basename src)).2
          /\ exists f, fs sample_world !! src = Some (File f) /\ fs w' !! target = Some (File f))
    /\ (forall p n, fs sample_world !! p = Some n -> n <> BrokenLink ->
          p ∉ ["/src/one/a.jpg"; "/src/two/a.jpg"] -> fs w' !! p = Some n).
Proof.
  apply (same_name_files_get_distinct_names sample_sha
           ["/src/one/a.jpg"; "/src/two/a.jpg"] "/out/Photo/2021/a.jpg" "/dup/Photo/2021" 0).
  - apply (bool_decide_unpack _). vm_compute. exact I.
  - intros src Hin.
    repeat (apply elem_of_cons in Hin as [->|Hin]); [| |inversion Hin];
      (split; [vm_compute; reflexivity | eexists; vm_compute; reflexivity]).
  - intros s1 s2 f1 f2 H1 H2 Hne E1 E2.
    repeat (apply elem_of_cons in H1 as [->|H1]); [| |inversion H1];
      (repeat (apply elem_of_cons in H2 as [->|H2]); [| |inversion H2]);
      try congruence;
      vm_compute in E1, E2; injection E1 as <-; injection E2 as <-;
      left; vm_compute; lia.
  - intros src f g Hin E1 E2.
    repeat (apply elem_of_cons in Hin as [->|Hin]); [| |inversion Hin];
      vm_compute in E1, E2; injection E1 as <-; injection E2 as <-.
    + right. vm_compute. discriminate.
    + left. vm_compute. lia.
  - vm_compute. discriminate.
  - vm_compute. reflexivity.
Defined.

(** The same two relocations, run: the files end as [a_1.jpg] and [a_2.jpg]. *)
Example same_name_files_run :
  let r := relocate_all sample_sha ["/src/one/a.jpg"; "/src/two/a.jpg"]
             "/out/Photo/2021/a.jpg" "/dup/Photo/2021" 0 sample_world in
  fst r = Return 2
  /\ fs (snd r) !! "/out/Photo/2021/a.jpg" = Some (plain_file "AAA")
  /\ fs (snd r) !! "/out/Photo/2021/a_1.jpg" = Some (plain_file "BBB")
  /\ fs (snd r) !! "/out/Photo/2021/a_2.jpg" = Some (plain_file "CCCC")
  /\ moves_in (out (snd r))
     = [("/src/two/a.jpg", "/out/Photo/2021/a_2.jpg");
        ("/src/one/a.jpg", "/out/Photo/2021/a_1.jpg")].
Proof. vm_compute. repeat split; reflexivity. Qed.

(** ** Examples for the further properties *)

Lemma hash_independent_of_chunk_size_witness :
  calculate_file_hash_with sample_sha 3 "/src/two/a.jpg" sample_world
  = (Return (Some (sample_sha "CCCC")),
     {| fs := sample_fs; out := [Opened "/src/two/a.jpg"] |})
  /\ calculate_file_hash_with sample_sha 3 "/src/two/locked.jpg" sample_world
     = (Return None,
        {| fs := sample_fs;
           out := [Printed (MsgHashError "/src/two/locked.jpg"
                              (PermissionError "/src/two/locked.jpg"));
                   Opened "/src/two/locked.jpg"] |}).
Proof.
  split.
  - rewrite (hash_independent_of_chunk_size sample_sha 3 "/src/two/a.jpg" sample_world)
      by lia.
    vm_compute. reflexivity.
  - rewrite (hash_independent_of_chunk_size sample_sha 3 "/src/two/locked.jpg" sample_world)
      by lia.
    vm_compute. reflexivity.
Defined.

Lemma hash_with_chunk_size_zero_witness :
  calculate_file_hash_with sample_sha 0 "/src/a.jpg" sample_world
  = (Return (Some (sample_sha "")), {| fs := sample_fs; out := [Opened "/src/a.jpg"] |}).
Proof.
  apply (hash_with_chunk_size_zero sample_sha "/src/a.jpg" sample_world "AAA").
  vm_compute. reflexivity.
Defined.

Lemma is_duplicate_true_only_for_equal_files_witness :
  exists f g,
    fs_lookup sample_fs "/src/a.jpg" = Some (File f)
    /\ fs_lookup sample_fs "/out/Photo/2021/a.jpg" = Some (File g)
    /\ f_readable f = true /\ f_readable g = true
    /\ String.length (f_data f) = String.length (f_data g)
    /\ sample_sha (f_data f) = sample_sha (f_data g)
    /\ sample_sha (f_data f) <> ""
    /\ fs (is_duplicate sample_sha "/src/a.jpg" "/out/Photo/2021/a.jpg" sample_world).2
       = sample_fs.
Proof.
  apply (is_duplicate_true_only_for_equal_files sample_sha "/src/a.jpg"
           "/out/Photo/2021/a.jpg" sample_world).
  vm_compute. reflexivity.
Defined.

Lemma image_year_prefers_exif_witness :
  get_image_year sample_utcoffset sample_strptime_year "/in/dated.jpg" dated_world
  = (Return 2021%Z, dated_world)
  /\ getmtime dated_fs "/in/dated.jpg" = Ok 0%Z.
Proof.
  split; [|vm_compute; reflexivity].
  apply (image_year_prefers_exif sample_utcoffset sample_strptime_year "/in/dated.jpg"
           dated_world
           {| f_data := "DDD"; f_mtime := 0; f_readable := true;
              f_exif := ExifData (Some [(271, "Canon"); (36867, "2021:03:04 10:00:00")]);
              f_video := ParserNone |}
           [(271, "Canon")] [] "2021:03:04 10:00:00").
  - lazy -[Nat.of_num_uint]. reflexivity.
  - reflexivity.
  - reflexivity.
  - intros item Hin. apply list_elem_of_singleton in Hin. subst item.
    cbn [fst]. intros H. apply Nat.eqb_eq in H. vm_compute in H. discriminate.
  - vm_compute. reflexivity.
Defined.

Lemma image_year_falls_back_to_mtime_witness :
  get_image_year sample_utcoffset sample_strptime_year "/in/undated.jpg" album_world
  = (Return 1970%Z, album_world).
Proof.
  destruct (image_year_falls_back_to_mtime sample_utcoffset sample_strptime_year
              "/in/undated.jpg" album_world) as [_ H].
  - vm_compute. reflexivity.
  - apply (H 0%Z 1970%Z); vm_compute; reflexivity.
Defined.

Lemma video_year_prefers_creation_date_witness :
  get_video_year sample_utcoffset "/in/film.mov" album_world
  = (Return 2018%Z, {| fs := album_fs; out := [ParserClosed "/in/film.mov"] |}).
Proof.
  apply (video_year_prefers_creation_date sample_utcoffset "/in/film.mov" album_world).
  vm_compute. reflexivity.
Defined.

Lemma move_never_overwrites_witness :
  exists w',
    move_file_safe sample_sha "/src/one/a.jpg" "/out/Photo/2021/a.jpg" "/dup/Photo/2021" 1
      sample_world = (Return tt, w')
    /\ forall p n, fs sample_world !! p = Some n -> n <> BrokenLink -> p <> "/src/one/a.jpg" ->
                   fs w' !! p = Some n.
Proof.
  apply (move_never_overwrites sample_sha "/src/one/a.jpg" "/out/Photo/2021/a.jpg"
           "/dup/Photo/2021" 1 sample_world).
  vm_compute. discriminate.
Defined.

Lemma moved_file_is_where_the_report_says_witness :
  exists w',
    move_file_safe sample_sha "/src/one/a.jpg" "/out/Photo/2021/a.jpg" "/dup/Photo/2021" 1
      sample_world = (Return tt, w')
    /\ head (out w')
       = Some (Printed (MsgNameConflict "/src/one/a.jpg" "/out/Photo/2021/a_1.jpg"))
    /\ fs w' !! "/out/Photo/2021/a_1.jpg" = Some (plain_file "BBB")
    /\ fs w' !! "/src/one/a.jpg" = None.
Proof.
  destruct (moved_file_is_where_the_report_says sample_sha "/src/one/a.jpg"
              "/out/Photo/2021/a.jpg" "/dup/Photo/2021" 1 sample_world
              {| f_data := "BBB"; f_mtime := 1622548800000000; f_readable := true;
                 f_exif := ImageOpenRaises; f_video := ParserNone |})
    as (w' & Erun & _).
  - vm_compute. reflexivity.
  - exists w'. split; [exact Erun|].
    vm_compute in Erun. injection Erun as <-. vm_compute. repeat split; reflexivity.
Defined.

Lemma move_of_missing_source_changes_nothing_witness :
  exists w',
    move_file_safe sample_sha "/src/gone.jpg" "/out/Photo/2021/a.jpg" "/dup/Photo/2021" 1
      sample_world = (Return tt, w')
    /\ fs w' = fs sample_world
    /\ head (out w')
       = Some (Printed (MsgMoveError "/src/gone.jpg" (FileNotFoundError "/src/gone.jpg"))).
Proof.
  apply (move_of_missing_source_changes_nothing sample_sha "/src/gone.jpg"
           "/out/Photo/2021/a.jpg" "/dup/Photo/2021" 1 sample_world).
  vm_compute. reflexivity.
Defined.

Lemma file_at_its_destination_goes_to_duplicates_witness :
  exists w',
    move_file_safe sample_sha "/out/Photo/2021/a.jpg" "/out/Photo/2021/a.jpg"
      "/dup/Photo/2021" 1 sample_world = (Return tt, w')
    /\ fs w' !! "/dup/Photo/2021/a.jpg" = Some (plain_file "AAA")
    /\ fs w' !! "/out/Photo/2021/a.jpg" = None.
Proof.
  pose (m1 := <["/dup/Photo/2021" := Dir]>
                (<["/dup/Photo" := Dir]> (<["/dup" := Dir]> sample_fs))).
  destruct (file_at_its_destination_goes_to_duplicates sample_sha "/out/Photo/2021/a.jpg"
              "/dup/Photo/2021" 1 sample_world
              {| f_data := "AAA"; f_mtime := 1622548800000000; f_readable := true;
                 f_exif := ImageOpenRaises; f_video := ParserNone |} m1)
    as (_ & k & [Hfree Hbefore] & Erun).
  - vm_compute. reflexivity.
  - reflexivity.
  - apply sample_sha_nonempty.
  - vm_compute. reflexivity.
  - eexists. split; [exact Erun|].
    destruct k as [|k].
    + vm_compute. split; reflexivity.
    + specialize (Hbefore 0 ltac:(lia)). vm_compute in Hbefore. discriminate.
Defined.

Lemma year_folder_is_made_before_the_move_witness :
  (exists e w1 evs,
      sort_file sample_sha sample_utcoffset sample_strptime_year "/out/Photo" "/out/Video"
        "/dup" "/src" "a.jpg" 0 sample_world = (Raise e, w1)
      /\ fs w1 = fs sample_world /\ out w1 = evs ++ out sample_world /\ moves_in evs = [])
  \/ (exists year base tag evs m1 w',
        (classify "a.jpg" = Photo /\ base = "/out/Photo" /\ tag = "Photo"
         \/ classify "a.jpg" = Video /\ base = "/out/Video" /\ tag = "Video")
        /\ moves_in evs = []
        /\ makedirs (fs sample_world) (join base (str_Z year)) = Ok m1
        /\ isdir m1 (join base (str_Z year)) = true
        /\ move_file_safe sample_sha (join "/src" "a.jpg")
             (join (join base (str_Z year)) "a.jpg")
             (join3 "/dup" tag (str_Z year)) (0 + 1)
             {| fs := m1; out := MadeDirs (join base (str_Z year)) :: evs ++ out sample_world |}
           = (Return tt, w')
        /\ sort_file sample_sha sample_utcoffset sample_strptime_year "/out/Photo" "/out/Video"
             "/dup" "/src" "a.jpg" 0 sample_world = (Return (0 + 1), w')).
Proof.
  apply (year_folder_is_made_before_the_move sample_sha sample_utcoffset sample_strptime_year
           "/out/Photo" "/out/Video" "/dup" "/src" "a.jpg" 0 sample_world).
  vm_compute. discriminate.
Defined.

Lemma occupied_year_folder_stops_the_loop_witness :
  exists e,
    for_each ["undated.jpg"; "dated.jpg"]
      (sort_file sample_sha sample_utcoffset sample_strptime_year "/lib/Photo" "/lib/Video"
         "/lib/Duplicates" "/in") 0 album_world
    = (Raise e, {| fs := album_fs; out := [MadeDirs "/lib/Photo/1970"] |}).
Proof.
  eapply (occupied_year_folder_stops_the_loop sample_sha sample_utcoffset sample_strptime_year
            _ "/lib/Photo" "/lib/Video" "/lib/Duplicates" "/in" "undated.jpg" "/lib/Photo"
            ["dated.jpg"] 0 album_world album_world 1970%Z).
  - left. split; [reflexivity|]. split; [reflexivity|]. vm_compute. reflexivity.
  - vm_compute. reflexivity.
Defined.




Lemma numbered_name_keeps_class_witness :
  classify "a_1.jpg" = classify "a.jpg" /\ classify "clip_12.MOV" = classify "clip.MOV".
Proof.
  split.
  - apply (numbered_name_keeps_class "a.jpg" 1). vm_compute. discriminate.
  - apply (numbered_name_keeps_class "clip.MOV" 12). vm_compute. discriminate.
Defined.

Lemma census_counts_the_files_of_the_tree_witness :
  count_files_in_directory 22 "/nowhere" sample_world = (Return 0, sample_world)
  /\ exists l,
       count_files_in_directory 22 "/src" sample_world = (Return (length l), sample_world)
       /\ NoDup l
       /\ forall k, k ∈ l <-> counted sample_fs "/src" k.
Proof.
  destruct (census_counts_the_files_of_the_tree 22 "/nowhere" sample_world) as [H0 _];
    [vm_compute; lia|].
  destruct (census_counts_the_files_of_the_tree 22 "/src" sample_world) as [_ H1];
    [vm_compute; lia|].
  split.
  - apply H0. vm_compute. reflexivity.
  - apply H1. vm_compute. reflexivity.
Defined.

(** The census of the sample source tree, run: six entries that are not
    directories, in three directories. *)
Example census_run :
  count_files_in_directory 22 "/src" sample_world = (Return 6, sample_world).
Proof. vm_compute. reflexivity. Qed.

Lemma run_leaves_other_entries_alone_witness :
  fs (copy_media_sorted_by_year sample_sha sample_utcoffset sample_strptime_year 22
        "/src" "/out/Photo" "/out/Video" "/dup" sample_world).2 !! "/src/notes.txt"
  = Some (plain_file "text").
Proof.
  apply (run_leaves_other_entries_alone sample_sha sample_utcoffset sample_strptime_year 22
           "/src" "/out/Photo" "/out/Video" "/dup" sample_world "/src/notes.txt").
  - vm_compute. reflexivity.
  - discriminate.
  - vm_compute. reflexivity.
Defined.

(** A whole run on the sample tree: the duplicate of the sorted [a.jpg]
    goes to the duplicates tree, the two other files named [a.jpg] are
    numbered, the unreadable photo and the video are sorted by their
    modification time, and the text file stays. *)
Example sample_run :
  let r := copy_media_sorted_by_year sample_sha sample_utcoffset sample_strptime_year 22
             "/src" "/out/Photo" "/out/Video" "/dup" sample_world in
  r.1 = Return tt
  /\ head (out r.2) = Some (Printed (MsgPostCounts 5 1 6 1 1))
  /\ fs r.2 !! "/dup/Photo/2021/a.jpg" = Some (plain_file "AAA")
  /\ fs r.2 !! "/out/Photo/2021/a.jpg" = Some (plain_file "AAA")
  /\ fs r.2 !! "/out/Photo/2021/a_1.jpg" = Some (plain_file "BBB")
  /\ fs r.2 !! "/out/Photo/2021/a_2.jpg" = Some (plain_file "CCCC")
  /\ fs r.2 !! "/out/Photo/2021/locked.jpg" = Some (unreadable_file "AAA")
  /\ fs r.2 !! "/out/Video/2021/clip.mp4"
     = Some (video_file "VVV" (ParserOpened NoCreationDate))
  /\ fs r.2 !! "/src/notes.txt" = Some (plain_file "text").
Proof. vm_compute. repeat split; reflexivity. Qed.
